(** * rest_gae: REST endpoints over NDB models

    A shallow embedding of [rest_gae/rest_gae.py] and the properties of its
    permission gate, property projection, entity construction, pagination,
    batch update and JSON codec.

    Python values are one dynamically typed universe ([pyval]); Python
    dictionaries whose iteration order the code relies on are association
    lists; the datastore is a finite map from keys to entities.  Exceptions
    are an explicit result type, and the two pieces of mutable state the code
    touches (the datastore, and the class-level [translate_property_names]
    dictionaries that [translate_property_names] updates in place) are
    threaded through a state-and-exception monad. *)

From Stdlib Require Import ZArith Ascii String List Bool Lia.
From stdpp Require Import base option strings list gmap sets sorting.

Set Warnings "-register-all,-clear-no-such-hyp".

Local Open Scope string_scope.
Local Open Scope Z_scope.

(* ===================================================================== *)
(** * Python dictionaries as association lists *)
(* ===================================================================== *)

Module Dict.

(** [d.get(k)] : the first binding of [k]. *)
Fixpoint get {A} (k : string) (d : list (string * A)) : option A :=
  match d with
  | [] => None
  | (k', v) :: d' => if String.eqb k k' then Some v else get k d'
  end.

(** [k in d] *)
Definition has {A} (k : string) (d : list (string * A)) : bool :=
  match get k d with Some _ => true | None => false end.

(** [del d[k]] *)
Fixpoint del {A} (k : string) (d : list (string * A)) : list (string * A) :=
  match d with
  | [] => []
  | (k', v) :: d' => if String.eqb k k' then del k d' else (k', v) :: del k d'
  end.

(** [d[k] = v] : overwrite the binding in place, or add a new one. *)
Fixpoint set {A} (k : string) (v : A) (d : list (string * A)) : list (string * A) :=
  match d with
  | [] => [(k, v)]
  | (k', v') :: d' =>
      if String.eqb k k' then (k, v) :: del k d' else (k', v') :: set k v d'
  end.

(** [d.update(u)] *)
Definition update {A} (d u : list (string * A)) : list (string * A) :=
  fold_left (fun acc kv => set (fst kv) (snd kv) acc) u d.

(** [d.keys()] *)
Definition keys {A} (d : list (string * A)) : list string := map fst d.

(** [dict((k, v) for k, v in d.iteritems() if p(k))] *)
Definition filter_keys {A} (p : string -> bool) (d : list (string * A))
  : list (string * A) :=
  List.filter (fun kv => p (fst kv)) d.

End Dict.

(* ===================================================================== *)
(** * Keys, model classes and values *)
(* ===================================================================== *)

(** An [ndb.Key]: a kind and an integer or string identifier (ancestor
    paths are not used by the handlers and are left out). *)
Inductive key_id := IntId (n : Z) | StrId (s : string).

Record Key := MkKey { key_kind : string; key_ident : key_id }.

#[global] Instance key_id_eq_dec : EqDecision key_id.
Proof. solve_decision. Defined.

#[global] Instance Key_eq_dec : EqDecision Key.
Proof. solve_decision. Defined.

#[global] Instance key_id_countable : Countable key_id.
Proof.
  refine (inj_countable'
            (fun i => match i with IntId n => inl n | StrId s => inr s end)
            (fun x => match x with inl n => IntId n | inr s => StrId s end) _).
  by intros [].
Defined.

#[global] Instance Key_countable : Countable Key.
Proof.
  refine (inj_countable' (fun k => (key_kind k, key_ident k))
                         (fun p => MkKey (fst p) (snd p)) _).
  by intros [].
Defined.

(** [key.string_id()] : the identifier when it is a string, else [None]. *)
Definition string_id (k : Key) : option string :=
  match key_ident k with StrId s => Some s | IntId _ => None end.

(** The [RESTMeta] side-car class of a model.  A list attribute that the class
    does not declare reads as [[]] and a table as [{}], which is what the
    [getattr(..., default)] calls of the source return for it.  The attribute
    [translate_property_names] is not a field: the source updates that
    dictionary in place, so its current contents live in the mutable state
    (see [w_tables]). *)
Record RESTMeta := MkRESTMeta {
  included_input_properties : list string;
  included_output_properties : list string;
  included_properties : list string;
  excluded_input_properties : list string;
  excluded_output_properties : list string;
  excluded_properties : list string;
  translate_input_property_names : list (string * string);
  translate_output_property_names : list (string * string);
  user_owner_property : option string;
  use_input_id : bool;
  admin_property : option string
}.

(** An [ndb.Model] subclass: its kind, [_properties] and optional [RESTMeta].
    Only the property classes the source distinguishes are kept apart; every
    other property class (string, integer, boolean, ...) is [GenericProperty]. *)
Inductive model_class :=
| ModelClass (kind : string) (properties : list (string * property))
             (meta : option RESTMeta)
with property :=
| Property (ptype : prop_type) (repeated : bool)
with prop_type :=
| KeyProperty (kind : option string)
| DateTimeProperty
| DateProperty
| TimeProperty
| StructuredProperty (modelclass : model_class)
| GenericProperty.

Definition cls_kind (c : model_class) : string :=
  match c with ModelClass k _ _ => k end.
Definition _properties (c : model_class) : list (string * property) :=
  match c with ModelClass _ ps _ => ps end.
Definition cls_RESTMeta (c : model_class) : option RESTMeta :=
  match c with ModelClass _ _ m => m end.
Definition _repeated (p : property) : bool :=
  match p with Property _ r => r end.
Definition prop_ptype (p : property) : prop_type :=
  match p with Property t _ => t end.

(** Python values: what [json.loads] produces, the typed values NDB stores
    (date and time values are abstract ticks), model instances, and
    [VObject] for any other object (a bound method, a class), of which the
    code only uses that it is there. *)
Inductive pyval :=
| VNone
| VBool (b : bool)
| VInt (n : Z)
| VStr (s : string)
| VDateTime (t : Z)
| VDate (t : Z)
| VTime (t : Z)
| VKey (k : Key)
| VList (l : list pyval)
| VDict (d : list (string * pyval))
| VModel (e : entity)
| VObject
with entity :=
| Entity (cls : model_class) (key : option Key) (values : list (string * pyval)).

Definition e_cls (e : entity) : model_class :=
  match e with Entity c _ _ => c end.
Definition e_key (e : entity) : option Key :=
  match e with Entity _ k _ => k end.
Definition e_values (e : entity) : list (string * pyval) :=
  match e with Entity _ _ vs => vs end.

(** [model.key] as a Python value. *)
Definition key_value (k : option Key) : pyval :=
  match k with Some k => VKey k | None => VNone end.

(** Python truthiness ([if x:] / [not x]). *)
Definition truthy (v : pyval) : bool :=
  match v with
  | VNone => false
  | VBool b => b
  | VInt n => negb (n =? 0)
  | VStr s => negb (String.eqb s "")
  | VList l => match l with [] => false | _ => true end
  | VDict d => match d with [] => false | _ => true end
  | _ => true
  end.

(** [a == b] where [b] is a key reference (or [None]), as used for owner
    checks. *)
Definition eq_key_value (v : pyval) (k : option Key) : bool :=
  match v, k with
  | VKey k1, Some k2 => bool_decide (k1 = k2)
  | VNone, None => true
  | _, _ => false
  end.

(* ===================================================================== *)
(** * Exceptions, and the state-and-exception monad *)
(* ===================================================================== *)

Inductive exn_class :=
| RESTException | ValueError | TypeError | AttributeError | KeyError
| BadValueError | BadRequestError | BadArgumentError | KindError
| ProtocolBufferDecodeError | TransactionFailedError | RuntimeError.

(** A raised exception: its class and [str(exc)]. *)
Record exn := Exn { exn_cls : exn_class; exn_msg : string }.

Inductive result (A : Type) :=
| Ok (a : A)
| Raise (e : exn).
Arguments Ok {A} a.
Arguments Raise {A} e.

Definition is_RESTException (e : exn) : bool :=
  match exn_cls e with RESTException => true | _ => false end.

(** A page cursor of the datastore: the shape of the query it belongs to and
    the keys already returned. *)
Record Cursor := MkCursor {
  c_shape : string * option string * list string * list (bool * string);
  c_seen : list Key
}.

(** The mutable world: the datastore, and for every model class whose
    [RESTMeta] declares [translate_property_names] the current contents of
    that dictionary. *)
Record world := MkWorld {
  w_store : gmap Key entity;
  w_tables : gmap string (list (string * string))
}.

Definition M (A : Type) : Type := world -> result A * world.

Definition ret {A} (a : A) : M A := fun w => (Ok a, w).
Definition raise {A} (c : exn_class) (msg : string) : M A :=
  fun w => (Raise (Exn c msg), w).
Definition bind {A B} (m : M A) (k : A -> M B) : M B :=
  fun w => match m w with
           | (Ok a, w') => k a w'
           | (Raise e, w') => (Raise e, w')
           end.
Definition lift {A} (r : result A) : M A := fun w => (r, w).
Definition get_world : M world := fun w => (Ok w, w).
Definition put_world (w' : world) : M unit := fun _ => (Ok tt, w').

(** [try: m except Exception, exc: handler(exc)] *)
Definition try_except {A} (m : M A) (handler : exn -> M A) : M A :=
  fun w => match m w with
           | (Ok a, w') => (Ok a, w')
           | (Raise e, w') => handler e w'
           end.

Declare Scope py_scope.
Delimit Scope py_scope with py.
Notation "'let!' x := m 'in' k" := (bind m (fun x => k))
  (at level 10, x name, m at level 100, k at level 200, only parsing) : py_scope.
Notation "m ;; k" := (bind m (fun _ => k))
  (at level 100, k at level 200, right associativity, only parsing) : py_scope.
Local Open Scope py_scope.

(** Pure computations that may raise. *)
Definition rbind {A B} (r : result A) (k : A -> result B) : result B :=
  match r with Ok a => k a | Raise e => Raise e end.

(** [[f(x) for x in l]] *)
Fixpoint mapM {A B} (f : A -> M B) (l : list A) : M (list B) :=
  match l with
  | [] => ret []
  | x :: l' => let! y := f x in let! ys := mapM f l' in ret (y :: ys)
  end.

(* ===================================================================== *)
(** * The collaborators outside the repository *)
(* ===================================================================== *)

Inductive urlsafe_result :=
| KeyParsed (k : Key)
| KeyDecodeError          (* ProtocolBufferDecodeError *)
| KeyOtherError.          (* any other exception of [ndb.Key(urlsafe=...)] *)

(** What the code calls but does not define: the key and cursor codecs of
    NDB, [dateutil], [datetime.isoformat], the builtins [int] and [str],
    GQL, NDB's property validation and value ordering, the class registry
    [ndb.Model._kind_map], [urllib.urlencode], whether the commit of the
    n-th attempt of a transaction succeeds, which names a model class has
    as attributes besides its properties and its key (the methods of
    [ndb.Model], [RESTMeta], what the application's class defines), and the
    exception [put()] raises for an entity the datastore cannot write (a
    required property that is not set, an integer outside 64 bits), if
    any. *)
Record Env := MkEnv {
  key_from_urlsafe : string -> urlsafe_result;
  key_urlsafe : Key -> string;
  dateutil_parse : string -> option Z;
  isoformat : Z -> string;
  py_int : string -> option Z;
  py_str : pyval -> string;
  gql_where : string -> option (entity -> bool);
  validate : property -> pyval -> bool;
  value_leb : pyval -> pyval -> bool;
  _kind_map : string -> option model_class;
  cursor_from_urlsafe : string -> option Cursor;
  cursor_urlsafe : Cursor -> string;
  urlencode : list (string * string) -> string;
  commit_succeeds : nat -> bool;
  other_attribute : model_class -> string -> bool;
  put_error : entity -> option exn
}.

(* ===================================================================== *)
(** * Operations of Python values *)
(* ===================================================================== *)

Fixpoint is_substring (p s : string) : bool :=
  String.prefix p s ||
  match s with
  | EmptyString => false
  | String _ s' => is_substring p s'
  end.

Fixpoint chars (s : string) : list pyval :=
  match s with
  | EmptyString => []
  | String a s' => VStr (String a EmptyString) :: chars s'
  end.

Definition is_str (name : string) (v : pyval) : bool :=
  match v with VStr s => String.eqb s name | _ => false end.

(** [name in data] *)
Definition py_contains (name : string) (data : pyval) : result bool :=
  match data with
  | VDict d => Ok (Dict.has name d)
  | VStr s => Ok (is_substring name s)
  | VList l => Ok (existsb (is_str name) l)
  | _ => Raise (Exn TypeError "argument is not iterable")
  end.

(** [data[name]] *)
Definition py_getitem (data : pyval) (name : string) : result pyval :=
  match data with
  | VDict d =>
      match Dict.get name d with
      | Some v => Ok v
      | None => Raise (Exn KeyError name)
      end
  | _ => Raise (Exn TypeError "indices must be integers")
  end.

(** [del data[name]] *)
Definition py_delitem (data : pyval) (name : string) : result pyval :=
  match data with
  | VDict d =>
      if Dict.has name d then Ok (VDict (Dict.del name d))
      else Raise (Exn KeyError name)
  | _ => Raise (Exn TypeError "object does not support item deletion")
  end.

(** [data[name] = v] *)
Definition py_setitem (data : pyval) (name : string) (v : pyval) : result pyval :=
  match data with
  | VDict d => Ok (VDict (Dict.set name v d))
  | _ => Raise (Exn TypeError "object does not support item assignment")
  end.

(** [for x in v] *)
Definition py_iter (v : pyval) : result (list pyval) :=
  match v with
  | VList l => Ok l
  | VStr s => Ok (chars s)
  | VDict d => Ok (map VStr (Dict.keys d))
  | _ => Raise (Exn TypeError "object is not iterable")
  end.

(** The value of a property that was never assigned. *)
Definition default_value (p : property) : pyval :=
  if _repeated p then VList [] else VNone.

(** The two spellings of the key attribute of a model, [Model.key] and
    [Model._key]. *)
Definition is_key_name (name : string) : bool :=
  (String.eqb name "key" || String.eqb name "_key")%bool.

(** [getattr(model, name)] for a property of a model instance or its key. *)
Definition py_getattr (e : entity) (name : string) : result pyval :=
  match Dict.get name (_properties (e_cls e)) with
  | None =>
      if is_key_name name then Ok (key_value (e_key e))
      else Raise (Exn AttributeError name)
  | Some p =>
      match Dict.get name (e_values e) with
      | Some v => Ok v
      | None => Ok (default_value p)
      end
  end.

(** What [getattr(cls, name)] finds on a model class: a property, the key,
    or something else (a method, [RESTMeta], ...). *)
Inductive class_attribute :=
| AttrProperty (p : property)
| AttrKey
| AttrOther.

(** [getattr(cls, name, None)] on a model class. *)
Definition class_getattr (E : Env) (cls : model_class) (name : string)
  : option class_attribute :=
  match Dict.get name (_properties cls) with
  | Some p => Some (AttrProperty p)
  | None =>
      if is_key_name name then Some AttrKey
      else if other_attribute E cls name then Some AttrOther
      else None
  end.

(** [getattr(model, name)] for any name: an instance has the attributes of
    its class. *)
Definition getattr_instance (E : Env) (e : entity) (name : string) : result pyval :=
  match py_getattr e name with
  | Ok v => Ok v
  | Raise exc =>
      if other_attribute E (e_cls e) name then Ok VObject else Raise exc
  end.

(* ===================================================================== *)
(** * Utility functions *)
(* ===================================================================== *)

Inductive direction := Input | Output.

Definition translate_table_for (m : RESTMeta) (input_type : direction)
  : list (string * string) :=
  match input_type with
  | Input => translate_input_property_names m
  | Output => translate_output_property_names m
  end.

(** One iteration of the loop of [translate_property_names]. *)
Definition translate_step (input_type : direction) (data : pyval)
    (entry : string * string) : result pyval :=
  let old_name := fst entry in
  let new_name := snd entry in
  match input_type with
  | Output =>
      rbind (py_contains old_name data) (fun present =>
      if negb present then Ok data else
      rbind (py_getitem data old_name) (fun original_value =>
      rbind (py_delitem data old_name) (fun data =>
      py_setitem data new_name original_value)))
  | Input =>
      rbind (py_contains new_name data) (fun present =>
      if negb present then Ok data else
      rbind (py_getitem data new_name) (fun original_value =>
      rbind (py_delitem data new_name) (fun data =>
      py_setitem data old_name original_value)))
  end.

Fixpoint translate_loop (input_type : direction) (table : list (string * string))
    (data : pyval) : result pyval :=
  match table with
  | [] => Ok data
  | entry :: table' =>
      rbind (translate_step input_type data entry) (translate_loop input_type table')
  end.

(** [translate_property_names(data, model, input_type)].  The table is the
    class attribute [RESTMeta.translate_property_names] itself when the class
    declares it, and [update] then changes that dictionary for every later
    call; otherwise it is a fresh [{}]. *)
Definition translate_property_names (data : pyval) (model : model_class)
    (input_type : direction) : M pyval :=
  match cls_RESTMeta model with
  | None => ret data
  | Some meta_class =>
      let! w := get_world in
      let declared := w_tables w !! cls_kind model in
      let translation_table :=
        Dict.update (default [] declared) (translate_table_for meta_class input_type) in
      (match declared with
       | Some _ =>
           put_world (MkWorld (w_store w)
                              (<[cls_kind model := translation_table]> (w_tables w)))
       | None => ret tt
       end) ;;
      lift (translate_loop input_type translation_table data)
  end.

Definition DEFAULT_MAX_QUERY_RESULTS : Z := 1000.
Definition DEFAULT_EXCLUDED_INPUT_PROPERTIES : list string := ["class_"].
Definition DEFAULT_EXCLUDED_OUTPUT_PROPERTIES : list string := [].

Definition included_for (m : RESTMeta) (input_type : direction) : list string :=
  match input_type with
  | Input => included_input_properties m
  | Output => included_output_properties m
  end.

Definition excluded_for (m : RESTMeta) (input_type : direction) : list string :=
  match input_type with
  | Input => excluded_input_properties m
  | Output => excluded_output_properties m
  end.

(** [get_included_properties(model, input_type)] *)
Definition get_included_properties (model : model_class) (input_type : direction)
  : gset string :=
  let meta_class := cls_RESTMeta model in
  let included : gset string :=
    match meta_class with
    | Some m => list_to_set (included_for m input_type)
                ∪ list_to_set (included_properties m)
    | None => ∅
    end in
  let included : gset string :=
    if decide (included = ∅)
    then list_to_set (Dict.keys (_properties model))
    else included in
  let excluded : gset string :=
    match meta_class with
    | Some m => list_to_set (excluded_for m input_type)
                ∪ list_to_set (excluded_properties m)
    | None => ∅
    end in
  let excluded : gset string :=
    match input_type with
    | Input => excluded ∪ list_to_set DEFAULT_EXCLUDED_INPUT_PROPERTIES
    | Output => excluded ∪ list_to_set DEFAULT_EXCLUDED_OUTPUT_PROPERTIES
    end in
  let included : gset string :=
    match input_type, meta_class with
    | Input, Some m => if use_input_id m then included ∪ {["id"]} else included
    | _, _ => included
    end in
  included ∖ excluded.

(* ===================================================================== *)
(** * Model instances: construction and update *)
(* ===================================================================== *)

(** The key [ndb.Key(kind, id)] of an identifier: the datastore reads the
    number 0 and the empty string as no identifier (the key is incomplete
    and [put()] allocates one), and a negative number is refused.  A Python
    boolean is an integer, 1 or 0. *)
Definition key_of_id (kind : string) (v : pyval) : result (option Key) :=
  let of_int (n : Z) : result (option Key) :=
    if n =? 0 then Ok None
    else if n <? 0 then Raise (Exn BadArgumentError "Key id number is out of range")
    else Ok (Some (MkKey kind (IntId n))) in
  match v with
  | VNone => Ok None
  | VStr s =>
      if String.eqb s "" then Ok None else Ok (Some (MkKey kind (StrId s)))
  | VInt n => of_int n
  | VBool b => of_int (if b then 1 else 0)
  | _ => Raise (Exn BadArgumentError "key id must be a string or a number")
  end.

(** [Model._set_attributes(kwds)]: every name must be a property of the
    class ([AttributeError] when the class has no such attribute,
    [TypeError] when it has one that is no property), and every value must
    pass the property's validation.  The key never comes this way from the
    handlers: the constructor takes it out of the keywords first. *)
Fixpoint _set_attributes (E : Env) (cls : model_class)
    (kwds values : list (string * pyval)) : result (list (string * pyval)) :=
  match kwds with
  | [] => Ok values
  | (name, value) :: kwds' =>
      match class_getattr E cls name with
      | None => Raise (Exn AttributeError name)
      | Some (AttrProperty prop) =>
          if validate E prop value
          then _set_attributes E cls kwds' (Dict.set name value values)
          else Raise (Exn BadValueError name)
      | Some _ => Raise (Exn TypeError ("Cannot set non-property " ++ name))
      end
  end.

(** [Model._get_arg(kwds, kwd)]: the constructor keyword [kwd], spelled
    [_kwd] or [kwd], taken out of the keywords unless the class has a
    property of that name.  (The names of [_properties] are attribute names,
    which NDB does not let begin with an underscore.) *)
Definition _get_arg (cls : model_class) (kwds : list (string * pyval)) (kwd : string)
  : option pyval * list (string * pyval) :=
  let alt_kwd := "_" ++ kwd in
  if (Dict.has alt_kwd kwds && negb (Dict.has alt_kwd (_properties cls)))%bool
  then (Dict.get alt_kwd kwds, Dict.del alt_kwd kwds)
  else if (Dict.has kwd kwds && negb (Dict.has kwd (_properties cls)))%bool
  then (Dict.get kwd kwds, Dict.del kwd kwds)
  else (None, kwds).

Definition is_not_None (v : option pyval) : bool :=
  match v with
  | Some VNone | None => false
  | Some _ => true
  end.

(** [_validate_key(key, entity)]: a key of the kind of the class. *)
Definition _validate_key (cls : model_class) (v : pyval) : result (option Key) :=
  match v with
  | VKey k =>
      if String.eqb (key_kind k) (cls_kind cls) then Ok (Some k)
      else Raise (Exn KindError "Expected Key kind to be the kind of the class")
  | _ => Raise (Exn BadValueError "Expected Key")
  end.

(** The constructor call [cls( **kwds )]: the keywords [key] and [id] name
    the key, every other keyword is an attribute to set.  (The keywords
    [app], [namespace], [parent] and [projection] are left out: no handler
    passes them unless the owner property of a model is named so.) *)
Definition construct (E : Env) (cls : model_class) (kwds : list (string * pyval))
  : result entity :=
  let '(key, kwds) := _get_arg cls kwds "key" in
  let '(id, kwds) := _get_arg cls kwds "id" in
  rbind (if is_not_None key
         then
           if is_not_None id
           then Raise (Exn BadArgumentError
                         "Model constructor given key= does not accept id=")
           else _validate_key cls (default VNone key)
         else
           if is_not_None id then key_of_id (cls_kind cls) (default VNone id)
           else Ok None) (fun key =>
  rbind (_set_attributes E cls kwds []) (fun values =>
  Ok (Entity cls key values))).

(** [model.populate( **kwds )] *)
Definition populate (E : Env) (model : entity) (kwds : list (string * pyval))
  : result entity :=
  rbind (_set_attributes E (e_cls model) kwds (e_values model)) (fun values =>
  Ok (Entity (e_cls model) (e_key model) values)).

Definition in_set (s : gset string) (k : string) : bool := bool_decide (k ∈ s).

(** The value the loop of [_build_model_from_data] writes for a property:
    [[self._value_to_property(value, prop) for value in data[name]]] when the
    property is repeated, [self._value_to_property(data[name], prop)]
    otherwise. *)
Definition convert_input (convert : property -> pyval -> M pyval)
    (prop : property) (raw : pyval) : M pyval :=
  if _repeated prop
  then
    let! items := lift (py_iter raw) in
    let! vs := mapM (convert prop) items in
    ret (VList vs)
  else convert prop raw.

(** The loop of [_build_model_from_data] over [cls._properties]: every
    property the data names is converted ([convert] is [_value_to_property])
    and written to [input_properties]; every other key of the data is left
    behind. *)
Fixpoint collect_input_properties (convert : property -> pyval -> M pyval)
    (data : pyval) (props : list (string * property))
    (input_properties : list (string * pyval)) : M (list (string * pyval)) :=
  match props with
  | [] => ret input_properties
  | (name, prop) :: props' =>
      let! given := lift (py_contains name data) in
      if negb given then collect_input_properties convert data props' input_properties
      else
        let! raw := lift (py_getitem data name) in
        let! v := convert_input convert prop raw in
        collect_input_properties convert data props' (Dict.set name v input_properties)
  end.

(** [if not model and use_input_id: input_properties['id'] = data['id']] *)
Definition take_input_id (meta : option RESTMeta) (model : option entity)
    (data : pyval) (input_properties : list (string * pyval))
  : M (list (string * pyval)) :=
  match model, meta with
  | None, Some m =>
      if use_input_id m then
        let! has_id := lift (py_contains "id" data) in
        if negb has_id then raise RESTException "id field is required"
        else
          let! id := lift (py_getitem data "id") in
          ret (Dict.set "id" id input_properties)
      else ret input_properties
  | _, _ => ret input_properties
  end.

(** The ownership injection: [if not model and self.user:
    input_properties[user_owner_property] = self.user.key]. *)
Definition set_user_owner (meta : option RESTMeta) (model user : option entity)
    (input_properties : list (string * pyval)) : list (string * pyval) :=
  match meta with
  | Some m =>
      match user_owner_property m with
      | Some owner =>
          match model, user with
          | None, Some u => Dict.set owner (key_value (e_key u)) input_properties
          | _, _ => input_properties
          end
      | None => input_properties
      end
  | None => input_properties
  end.

(** [cls( **input_properties )] for a new model, [model.populate(...)] for
    an existing one. *)
Definition create_or_update (E : Env) (cls : model_class) (model : option entity)
    (input_properties : list (string * pyval)) : result entity :=
  match model with
  | None => construct E cls input_properties
  | Some model => populate E model input_properties
  end.

(** [BaseRESTHandler._build_model_from_data(data, cls, model)] and
    [BaseRESTHandler._value_to_property(value, prop)]; [user] is [self.user].
    Besides the model instance the first returns [data] as the in-place
    renaming of [translate_property_names] left it, which is what the
    callbacks of the handlers are given afterwards. *)
Fixpoint _build_model_from_data (E : Env) (user : option entity)
    (cls : model_class) (data : pyval) (model : option entity) {struct cls}
  : M (entity * pyval) :=
  match cls with
  | ModelClass kind properties meta =>
      let cls := ModelClass kind properties meta in
      let! data := translate_property_names data cls Input in
      let! input_properties :=
        collect_input_properties (_value_to_property E user) data properties [] in
      let! input_properties := take_input_id meta model data input_properties in
      let included_properties := get_included_properties cls Input in
      let input_properties :=
        Dict.filter_keys (in_set included_properties) input_properties in
      let input_properties := set_user_owner meta model user input_properties in
      let! model := lift (create_or_update E cls model input_properties) in
      ret (model, data)
  end
with _value_to_property (E : Env) (user : option entity)
    (prop : property) (value : pyval) {struct prop} : M pyval :=
  match prop with
  | Property ptype _ =>
      match ptype with
      | KeyProperty _kind =>
          match value with
          | VNone => ret VNone
          | VStr s =>
              match key_from_urlsafe E s with
              | KeyParsed k => ret (VKey k)
              | KeyDecodeError =>
                  match _kind with
                  | Some kind =>
                      match _kind_map E kind with
                      | Some model_class =>
                          match cls_RESTMeta model_class with
                          | Some m =>
                              if use_input_id m
                              then ret (VKey (MkKey (cls_kind model_class) (StrId s)))
                              else raise RESTException ("invalid key: " ++ py_str E value)
                          | None => raise RESTException ("invalid key: " ++ py_str E value)
                          end
                      | None => raise RESTException ("invalid key: " ++ py_str E value)
                      end
                  | None => raise RESTException ("invalid key: " ++ py_str E value)
                  end
              | KeyOtherError => raise TypeError "ndb.Key(urlsafe=...)"
              end
          | _ => raise TypeError "urlsafe must be a string"
          end
      | DateTimeProperty | TimeProperty | DateProperty =>
          match value with
          | VStr s =>
              match dateutil_parse E s with
              | Some t => ret (VDateTime t)
              | None => raise ValueError "unknown string format"
              end
          | _ => raise AttributeError "read"
          end
      | StructuredProperty modelclass =>
          let! built := _build_model_from_data E user modelclass value None in
          ret (VModel (fst built))
      | GenericProperty => ret value
      end
  end.

(* ===================================================================== *)
(** * NDBEncoder *)
(* ===================================================================== *)

(** [NDBEncoder._decode_key(key)] *)
Definition _decode_key (E : Env) (key : Key) : pyval :=
  match _kind_map E (key_kind key) with
  | Some model_class =>
      match cls_RESTMeta model_class with
      | Some m =>
          if use_input_id m
          then match string_id key with Some s => VStr s | None => VNone end
          else VStr (key_urlsafe E key)
      | None => VStr (key_urlsafe E key)
      end
  | None => VStr (key_urlsafe E key)
  end.

(** [Model.to_dict()]: every property of the class with its value (or its
    default), the values of structured properties turned into dictionaries
    themselves.  A structured value is an instance of the property's model
    class, which is how the recursion is arranged. *)
Fixpoint to_dict_values (cls : model_class) (values : list (string * pyval))
  : list (string * pyval) :=
  match cls with
  | ModelClass _ properties _ =>
      (fix each (props : list (string * property)) : list (string * pyval) :=
         match props with
         | [] => []
         | (name, Property ptype repeated) :: props' =>
             let value :=
               match Dict.get name values with
               | Some v => v
               | None => default_value (Property ptype repeated)
               end in
             let value :=
               match ptype with
               | StructuredProperty modelclass =>
                   let nested v :=
                     match v with
                     | VModel e => VDict (to_dict_values modelclass (e_values e))
                     | _ => v
                     end in
                   if repeated
                   then match value with
                        | VList l => VList (map nested l)
                        | _ => value
                        end
                   else nested value
               | _ => value
               end in
             (name, value) :: each props'
         end) properties
  end.

Definition to_dict (e : entity) : list (string * pyval) :=
  to_dict_values (e_cls e) (e_values e).

(** [NDBEncoder.default(obj)] *)
Definition NDBEncoder_default (E : Env) (obj : pyval) : M pyval :=
  match obj with
  | VModel e =>
      let obj_dict := to_dict e in
      let included_properties := get_included_properties (e_cls e) Output in
      let obj_dict := Dict.filter_keys (in_set included_properties) obj_dict in
      let! obj_dict := translate_property_names (VDict obj_dict) (e_cls e) Output in
      match e_key e with
      | Some key => lift (py_setitem obj_dict "id" (_decode_key E key))
      | None => raise AttributeError "kind"
      end
  | VDateTime t => ret (VStr (isoformat E t))
  | VKey k => ret (_decode_key E k)
  | _ => raise TypeError "is not JSON serializable"
  end.

(** [json.dumps(o, cls=NDBEncoder)] as a JSON tree (the text of a tree is
    left to the [json] module).  The encoder calls [default] on what it
    cannot serialize and encodes what [default] returns; [fuel] is the depth
    Python's recursion limit allows. *)
Fixpoint json_encode (E : Env) (fuel : nat) (o : pyval) : M pyval :=
  match fuel with
  | O => raise RuntimeError "maximum recursion depth exceeded"
  | S fuel' =>
      match o with
      | VNone | VBool _ | VInt _ | VStr _ => ret o
      | VList l =>
          let! l' := mapM (json_encode E fuel') l in
          ret (VList l')
      | VDict d =>
          let! d' := mapM (fun kv =>
                             let! v := json_encode E fuel' (snd kv) in
                             ret (fst kv, v)) d in
          ret (VDict d')
      | _ =>
          let! o' := NDBEncoder_default E o in
          json_encode E fuel' o'
      end
  end.

Definition RECURSION_LIMIT : nat := 1000.

(* ===================================================================== *)
(** * The datastore: a reference model of the storage collaborator *)
(* ===================================================================== *)

(** A query: the kind, the GQL [WHERE] text, the equality filters added by
    [query.filter(prop == key)] and the sort orders ([true] = descending). *)
Record Query := MkQuery {
  q_kind : string;
  q_where : option string;
  q_filters : list (string * option Key);
  q_orders : list (bool * string)
}.

Definition query_shape (q : Query)
  : string * option string * list string * list (bool * string) :=
  (q_kind q, q_where q, map fst (q_filters q), q_orders q).

(** An entity as read from the datastore: its key is the key it is stored
    under. *)
Definition loaded (ke : Key * entity) : entity :=
  Entity (e_cls (snd ke)) (Some (fst ke)) (e_values (snd ke)).

(** The value the datastore holds for a name: [__key__] is the key. *)
Definition stored_value (e : entity) (name : string) : pyval :=
  if String.eqb name "__key__" then key_value (e_key e)
  else match Dict.get name (e_values e) with Some v => v | None => VNone end.

(** [prop == key] as the datastore evaluates it: a repeated property
    matches when one of its elements does. *)
Definition filter_holds (e : entity) (f : string * option Key) : bool :=
  match stored_value e (fst f) with
  | VList l => existsb (fun v => eq_key_value v (snd f)) l
  | v => eq_key_value v (snd f)
  end.

Definition query_matches (E : Env) (q : Query) (e : entity) : bool :=
  String.eqb (cls_kind (e_cls e)) (q_kind q)
  && match q_where q with
     | None => true
     | Some text =>
         match gql_where E text with Some p => p e | None => false end
     end
  && forallb (filter_holds e) (q_filters q).

Fixpoint order_leb (E : Env) (orders : list (bool * string)) (e1 e2 : entity) : bool :=
  match orders with
  | [] => true
  | (descending, name) :: orders' =>
      let a := stored_value (if descending then e2 else e1) name in
      let b := stored_value (if descending then e1 else e2) name in
      if value_leb E a b
      then (if value_leb E b a then order_leb E orders' e1 e2 else true)
      else false
  end.

(** All entities a query matches, in the order of its sort orders. *)
Definition run_query (E : Env) (store : gmap Key entity) (q : Query) : list entity :=
  merge_sort (fun e1 e2 => Is_true (order_leb E (q_orders q) e1 e2))
    (map loaded
       (map_to_list
          (filter (fun ke : Key * entity => query_matches E q (loaded ke) = true) store))).

Definition key_seen (seen : list Key) (e : entity) : bool :=
  match e_key e with
  | Some k => bool_decide (k ∈ seen)
  | None => false
  end.

Definition keys_of (l : list entity) : list Key :=
  omap e_key l.

(** The page sizes NDB takes: it asks the datastore for one result more
    than the page, a number that has to fit 32 bits. *)
Definition MAX_PAGE_SIZE : Z := 2147483646.

(** [query.fetch_page(limit, start_cursor=cursor)]: the next [limit] matches
    that the cursor has not passed, the cursor after them, and whether more
    are left.  A page size above [MAX_PAGE_SIZE] raises [ValueError] before
    the datastore is asked; a cursor of a query of another shape is refused
    by the datastore. *)
Definition fetch_page (E : Env) (store : gmap Key entity) (q : Query)
    (limit : Z) (start_cursor : option Cursor)
  : result (list entity * option Cursor * bool) :=
  let seen := match start_cursor with Some c => c_seen c | None => [] end in
  let shape_ok :=
    match start_cursor with
    | Some c => bool_decide (c_shape c = query_shape q)
    | None => true
    end in
  if MAX_PAGE_SIZE <? limit then Raise (Exn ValueError "Value out of range")
  else if negb shape_ok then Raise (Exn BadRequestError "cursor does not match query")
  else
    let rest := List.filter (fun e => negb (key_seen seen e)) (run_query E store q) in
    let results := take (Z.to_nat limit) rest in
    let cursor :=
      match results with
      | [] => None
      | _ => Some (MkCursor (query_shape q) (seen ++ keys_of results)%list)
      end in
    Ok (results, cursor, bool_decide (Z.to_nat limit < length rest)%nat).

(** The integer id the datastore gives an entity put without one. *)
Definition allocate_id (store : gmap Key entity) : Z :=
  1 + map_fold (fun k _ acc =>
                  match key_ident k with
                  | IntId n => Z.max n acc
                  | StrId _ => acc
                  end) 0 store.

(** [key.get()] *)
Definition key_get (k : Key) : M (option entity) :=
  fun w => (Ok (option_map (fun e => loaded (k, e)) (w_store w !! k)), w).

(** [model.put()]: an entity the datastore cannot write raises and nothing
    is written; otherwise the entity is written under its key, one the
    datastore allocates when it has none, and the instance then carries its
    complete key. *)
Definition model_put (E : Env) (model : entity) : M entity :=
  fun w =>
    match put_error E model with
    | Some exc => (Raise exc, w)
    | None =>
        let k := match e_key model with
                 | Some k => k
                 | None => MkKey (cls_kind (e_cls model)) (IntId (allocate_id (w_store w)))
                 end in
        let stored := Entity (e_cls model) (Some k) (e_values model) in
        (Ok stored, MkWorld (<[k := stored]> (w_store w)) (w_tables w))
    end.

(** [key.delete()] *)
Definition key_delete (k : Key) : M unit :=
  fun w => (Ok tt, MkWorld (delete k (w_store w)) (w_tables w)).

(** [ndb.delete_multi(keys)] *)
Definition delete_multi (ks : list Key) : M unit :=
  fun w => (Ok tt, MkWorld (foldr delete (w_store w) ks) (w_tables w)).

(** [@ndb.transactional(retries=n)]: the callback runs against the store;
    an exception in it rolls the store back and is re-raised; a commit that
    fails rolls back and, while attempts are left, runs the callback again.
    What the callback did to objects in memory is not undone. *)
Fixpoint transaction_attempts {A} (E : Env) (callback : M A)
    (attempts_left attempt : nat) (w : world) : result A * world :=
  match attempts_left with
  | O => (Raise (Exn TransactionFailedError "The transaction could not be committed"), w)
  | S attempts_left' =>
      match callback w with
      | (Raise e, w') => (Raise e, MkWorld (w_store w) (w_tables w'))
      | (Ok a, w') =>
          if commit_succeeds E attempt then (Ok a, w')
          else transaction_attempts E callback attempts_left' (S attempt)
                 (MkWorld (w_store w) (w_tables w'))
      end
  end.

Definition ndb_transactional {A} (E : Env) (retries : nat) (callback : M A) : M A :=
  transaction_attempts E callback (S retries) O.

(* ===================================================================== *)
(** * BaseRESTHandler *)
(* ===================================================================== *)

Inductive permission :=
| PERMISSION_ANYONE
| PERMISSION_LOGGED_IN_USER
| PERMISSION_OWNER_USER
| PERMISSION_ADMIN.

#[global] Instance permission_eq_dec : EqDecision permission.
Proof. solve_decision. Defined.

(** What [get_rest_class] fixes for a handler class: the model, the
    permissions and the callbacks.  A callback is a function of its arguments
    that returns or raises. *)
Module Self.
Record handler := MkHandler {
  model : model_class;
  permissions : list (string * permission);
  get_callback : option (pyval -> result pyval);
  post_callback : option (entity -> pyval -> result entity);
  put_callback : option (entity -> pyval -> result entity);
  delete_callback : option (entity -> result unit)
}.
End Self.

(** What a handler instance reads of the request: the query string
    ([request.GET], a multi-dictionary: the pairs of the query string in
    their order, a name possibly more than once), the body as [json.loads]
    parsed it ([None] when it raised [ValueError]), [request.path_url], and
    [self.user]. *)
Record request := MkRequest {
  GET : list (string * string);
  body : option pyval;
  path_url : string;
  user : option entity
}.

Record response := Response { status : Z; content : pyval }.

(** The double quote character, for the messages that contain it. *)
Definition dquote : string :=
  String (Ascii.Ascii false true false false false true false false) EmptyString.

Definition is_space (a : ascii) : bool :=
  let n := Ascii.nat_of_ascii a in
  (Nat.eqb n 32 || (Nat.leb 9 n && Nat.leb n 13))%bool.

Fixpoint lstrip (s : string) : string :=
  match s with
  | EmptyString => EmptyString
  | String a s' => if is_space a then lstrip s' else s
  end.

(** [s.strip()] *)
Definition strip (s : string) : string :=
  String.rev (lstrip (String.rev (lstrip s))).

Fixpoint split_go (sep : ascii) (cur s : string) : list string :=
  match s with
  | EmptyString => [String.rev cur]
  | String a s' =>
      if Ascii.eqb a sep then String.rev cur :: split_go sep EmptyString s'
      else split_go sep (String a cur) s'
  end.

(** [s.split(',')] *)
Definition split_commas (s : string) : list string :=
  split_go (Ascii.Ascii false false true true false true false false) EmptyString s.

(** [request.GET.get(name)]: of a name given more than once, the last
    value. *)
Definition GET_get (R : request) (name : string) : option string :=
  Dict.get name (rev (GET R)).

(** [request.GET.get(name)] where the code tests it first: [None] and ['']
    both read as absent. *)
Definition GET_param (R : request) (name : string) : option string :=
  match GET_get R name with
  | Some s => if String.eqb s "" then None else Some s
  | None => None
  end.

(** [params[name] = value] on the multi-dictionary: the former values of the
    name are removed and the pair is added at the end. *)
Definition GET_set (name value : string) (params : list (string * string))
  : list (string * string) :=
  (Dict.del name params ++ [(name, value)])%list.

(** ['%s' % request.GET.get(name)] *)
Definition GET_text (R : request) (name : string) : string :=
  match GET_get R name with Some s => s | None => "None" end.

(** [try: m except RESTException, exc: handler(exc)] *)
Definition except_RESTException {A} (m : M A) (handler : exn -> M A) : M A :=
  try_except m (fun e => if is_RESTException e then handler e else lift (Raise e)).

(** An argument of [query.order]: a sort order ([true] = descending) on a
    datastore name, or an object that is none. *)
Inductive order_arg :=
| OrderBy (descending : bool) (name : string)
| NotAnOrder.

Section BaseRESTHandler.
Context (E : Env) (H : Self.handler) (R : request).

(** [get_response(status, content)] (the headers are left out). *)
Definition get_response (status : Z) (content : pyval) : M response :=
  let! text := json_encode E RECURSION_LIMIT content in
  ret (Response status text).

Definition success (content : pyval) : M response := get_response 200 content.
Definition error (exception : exn) : M response :=
  get_response 400 (VDict [("error", VStr (exn_msg exception))]).
Definition method_not_allowed : M response := get_response 405 (VDict []).
Definition permission_denied (reason : pyval) : M response :=
  get_response 403 (VDict [("reason", reason)]).
Definition unauthorized : M response := get_response 401 (VDict []).

Definition model_use_input_id : bool :=
  match cls_RESTMeta (Self.model H) with
  | Some m => use_input_id m
  | None => false
  end.

(** [_model_id_to_model(model_id)] *)
Definition _model_id_to_model (model_id : pyval) : M (option entity) :=
  if negb (truthy model_id) then ret None
  else
    try_except
      (let! key :=
         (if model_use_input_id
          then
            let! k := lift (key_of_id (cls_kind (Self.model H)) model_id) in
            match k with
            | Some k => ret k
            | None => raise TypeError "incomplete key"
            end
          else
            match model_id with
            | VStr s =>
                match key_from_urlsafe E s with
                | KeyParsed k => ret k
                | KeyDecodeError => raise ProtocolBufferDecodeError s
                | KeyOtherError => raise TypeError s
                end
            | _ => raise TypeError "urlsafe must be a string"
            end) in
       let! found := key_get key in
       match found with
       | Some m => ret (Some m)
       | None => raise ValueError ""
       end)
      (fun _ => raise RESTException ("Invalid model id - " ++ py_str E model_id)).

(** [_build_next_query_url(cursor)] *)
Definition _build_next_query_url (cursor : option Cursor) : pyval :=
  match cursor with
  | None => VNone
  | Some c =>
      let params := GET_set "cursor" (cursor_urlsafe E c) (GET R) in
      VStr (path_url R ++ "?" ++ urlencode E params)
  end.

(** [_filter_query()] *)
Definition _filter_query : M Query :=
  match GET_param R "q" with
  | None => ret (MkQuery (cls_kind (Self.model H)) None [] [])
  | Some q =>
      match gql_where E q with
      | Some _ => ret (MkQuery (cls_kind (Self.model H)) (Some q) [] [])
      | None =>
          raise RESTException ("Invalid query param - " ++ dquote ++ q ++ dquote)
      end
  end.

(** [_fetch_query(query)]: of the exceptions of [fetch_page] only
    [BadRequestError] is caught. *)
Definition _fetch_query (query : Query) : M (list entity * option Cursor) :=
  let! limit :=
    (match GET_param R "limit" with
     | None => ret DEFAULT_MAX_QUERY_RESULTS
     | Some text =>
         match py_int E text with
         | Some limit =>
             if limit <=? 0
             then raise RESTException
                    ("Invalid " ++ dquote ++ "limit" ++ dquote ++ " parameter - " ++ text)
             else ret limit
         | None =>
             raise RESTException
               ("Invalid " ++ dquote ++ "limit" ++ dquote ++ " parameter - " ++ text)
         end
     end) in
  let! cursor :=
    (match GET_param R "cursor" with
     | None => ret None
     | Some text =>
         match cursor_from_urlsafe E text with
         | Some c => ret (Some c)
         | None =>
             raise RESTException
               ("Invalid " ++ dquote ++ "cursor" ++ dquote ++ " argument - " ++ text)
         end
     end) in
  let! w := get_world in
  match fetch_page E (w_store w) query limit cursor with
  | Raise exc =>
      match exn_cls exc with
      | BadRequestError =>
          raise RESTException
            ("Invalid " ++ dquote ++ "cursor" ++ dquote ++ " argument - "
             ++ GET_text R "cursor")
      | _ => lift (Raise exc)
      end
  | Ok (results, cursor, more_available) =>
      let cursor := if negb more_available then None else cursor in
      ret (results, cursor)
  end.

(** One element of the [order] parameter, as the list comprehension of
    [_order_query] evaluates it: [getattr(self.model, name)], negated for a
    leading [-].  A property or the key gives a sort order; the negation of
    anything else raises [TypeError] there and then; anything else that is
    not negated is handed on as it is. *)
Definition parse_order (o : string) : result order_arg :=
  let o := strip o in
  let o := if (String.prefix "-" o || String.prefix "+" o)%bool then o else "+" ++ o in
  let name := String.substring 1 (String.length o - 1) o in
  let descending := String.prefix "-" o in
  match class_getattr E (Self.model H) name with
  | None => Raise (Exn AttributeError name)
  | Some (AttrProperty _) => Ok (OrderBy descending name)
  | Some AttrKey => Ok (OrderBy descending "__key__")
  | Some AttrOther =>
      if descending then Raise (Exn TypeError "bad operand type for unary -")
      else Ok NotAnOrder
  end.

Fixpoint parse_orders (os : list string) : result (list order_arg) :=
  match os with
  | [] => Ok []
  | o :: os' =>
      rbind (parse_order o) (fun x =>
      rbind (parse_orders os') (fun xs => Ok (x :: xs)))
  end.

(** [query.order] on the arguments: one that is no sort order raises
    [TypeError]. *)
Definition query_order (query : Query) (orders : list order_arg) : result Query :=
  if existsb (fun o => match o with NotAnOrder => true | OrderBy _ _ => false end) orders
  then Raise (Exn TypeError "order() expects a Property or query Order")
  else Ok (MkQuery (q_kind query) (q_where query) (q_filters query)
             (q_orders query
              ++ omap (fun o => match o with
                                | OrderBy descending name => Some (descending, name)
                                | NotAnOrder => None
                                end) orders)%list).

(** [_order_query(query)]: of the exceptions of the comprehension only
    [AttributeError] is caught, and [query.order] is called outside the
    [try]. *)
Definition _order_query (query : Query) : M Query :=
  match GET_param R "order" with
  | None => ret query
  | Some text =>
      match parse_orders (split_commas text) with
      | Ok orders => lift (query_order query orders)
      | Raise exc =>
          match exn_cls exc with
          | AttributeError =>
              raise RESTException
                ("Invalid " ++ dquote ++ "order" ++ dquote ++ " parameter - " ++ text)
          | _ => lift (Raise exc)
          end
      end
  end.

End BaseRESTHandler.

(* ===================================================================== *)
(** * get_rest_class and RESTHandlerClass *)
(* ===================================================================== *)

(** [get_rest_class(ndb_model, **kwd)]: the handler class, or the
    [ValueError] its argument validation raises; the owner property is
    looked up with [hasattr] on the class. *)
Definition get_rest_class (E : Env) (ndb_model : model_class)
    (kwd_permissions : list (string * permission))
    (get_cb : option (pyval -> result pyval))
    (post_cb put_cb : option (entity -> pyval -> result entity))
    (delete_cb : option (entity -> result unit)) : result Self.handler :=
  let permissions := Dict.update [("OPTIONS", PERMISSION_ANYONE)] kwd_permissions in
  let h := Self.MkHandler ndb_model permissions get_cb post_cb put_cb delete_cb in
  if existsb (fun kv => bool_decide (snd kv = PERMISSION_OWNER_USER)) permissions
  then
    match cls_RESTMeta ndb_model with
    | Some m =>
        match user_owner_property m with
        | Some owner =>
            match class_getattr E ndb_model owner with
            | Some _ => Ok h
            | None =>
                Raise (Exn ValueError
                         "The user_owner_property does not exist in the given model")
            end
        | None => Raise (Exn ValueError "Must define a RESTMeta.user_owner_property")
        end
    | None => Raise (Exn ValueError "Must define a RESTMeta.user_owner_property")
    end
  else Ok h.

Module RESTHandlerClass.
Section RESTHandlerClass.
Context (E : Env) (H : Self.handler) (R : request).

(** [is_user_admin] *)
Definition is_user_admin : result pyval :=
  match user R with
  | None => Raise (Exn ValueError "The user model class must include a RESTMeta class")
  | Some u =>
      match cls_RESTMeta (e_cls u) with
      | None => Raise (Exn ValueError "The user model class must include a RESTMeta class")
      | Some m =>
          match admin_property m with
          | None => Raise (Exn ValueError "The user model class must include a RESTMeta class")
          | Some admin_property =>
              match getattr_instance E u admin_property with
              | Ok v => Ok v
              | Raise _ => Raise (Exn ValueError "The user model class does not have the property")
              end
          end
      end
  end.

(** [user_owner_property] *)
Definition user_owner_property_name : result string :=
  match cls_RESTMeta (Self.model H) with
  | Some m =>
      match user_owner_property m with
      | Some owner => Ok owner
      | None => Raise (Exn AttributeError "user_owner_property")
      end
  | None => Raise (Exn AttributeError "RESTMeta")
  end.

(** [get_model_owner(model)] *)
Definition get_model_owner (model : option entity) : result pyval :=
  rbind user_owner_property_name (fun owner =>
  match model with
  | Some m => getattr_instance E m owner
  | None => Raise (Exn AttributeError owner)
  end).

(** [self.user.key] *)
Definition user_key : result (option Key) :=
  match user R with
  | Some u => Ok (e_key u)
  | None => Raise (Exn AttributeError "key")
  end.

(** [get_model_owner(model) != self.user.key] *)
Definition not_owned (model : option entity) : result bool :=
  rbind (get_model_owner model) (fun owner =>
  rbind user_key (fun k => Ok (negb (eq_key_value owner k)))).

Definition requires_login (p : permission) : bool :=
  match p with
  | PERMISSION_LOGGED_IN_USER | PERMISSION_OWNER_USER | PERMISSION_ADMIN => true
  | PERMISSION_ANYONE => false
  end.

(** [rest_method_wrapper(func)], that is [inner_f(self, model_id)];
    [method_name] is [func.func_name.upper()] and [model_id] the part of the
    path after the resource: [''], ['/'] or ['/<id>']. *)
Definition rest_method_wrapper (func : option entity -> M pyval)
    (method_name : string) (model_id : string) : M response :=
  match Dict.get method_name (Self.permissions H) with
  | None => method_not_allowed E
  | Some permission =>
      if (requires_login permission && negb (bool_decide (is_Some (user R))))%bool
      then unauthorized E
      else
        let! not_admin :=
          (if bool_decide (permission = PERMISSION_ADMIN)
           then let! admin := lift is_user_admin in ret (negb (truthy admin))
           else ret false) in
        if not_admin then permission_denied E VNone
        else
          except_RESTException
            (if negb (String.eqb model_id "")
             then
               let! model :=
                 _model_id_to_model E H
                   (VStr (String.substring 1 (String.length model_id - 1) model_id)) in
               let! denied :=
                 (if bool_decide (permission = PERMISSION_OWNER_USER)
                  then lift (not_owned model)
                  else ret false) in
               if denied then permission_denied E VNone
               else
                 let! result := func model in
                 success E result
             else
               let! result := func None in
               success E result)
            (fun exc => error E exc)
  end.

(** [options] *)
Definition options (model : option entity) : M pyval := ret (VStr "").

(** The owner filter [getattr(self.model, self.user_owner_property) ==
    self.user.key] added to a query: a filter on the property, whose
    comparison validates the key as a value of the property, or on the key;
    for any other attribute the comparison is a boolean, which
    [query.filter] refuses.  (Properties are taken as indexed, as NDB's are
    unless declared otherwise.) *)
Definition filter_by_owner (query : Query) : M Query :=
  let! owner := lift user_owner_property_name in
  match class_getattr E (Self.model H) owner with
  | None => raise AttributeError owner
  | Some attribute =>
      let! k := lift user_key in
      let filtered (name : string) : Query :=
        MkQuery (q_kind query) (q_where query) (q_filters query ++ [(name, k)])%list
                (q_orders query) in
      match attribute with
      | AttrProperty prop =>
          match k with
          | Some key =>
              if validate E prop (VKey key) then ret (filtered owner)
              else raise BadValueError owner
          | None => ret (filtered owner)
          end
      | AttrKey => ret (filtered "__key__")
      | AttrOther => raise TypeError "Cannot filter a non-Node argument"
      end
  end.

Definition permission_of (method_name : string) : M permission :=
  match Dict.get method_name (Self.permissions H) with
  | Some p => ret p
  | None => raise KeyError method_name
  end.

(** [get] *)
Definition get (model : option entity) : M pyval :=
  match model with
  | None =>
      let! query := _filter_query E H R in
      let! permission := permission_of "GET" in
      let! query :=
        (if bool_decide (permission = PERMISSION_OWNER_USER)
         then filter_by_owner query
         else ret query) in
      let! query := _order_query E H R query in
      let! page := _fetch_query E R query in
      let! results :=
        (match Self.get_callback H with
         | Some callback => lift (callback (VList (map VModel (fst page))))
         | None => ret (VList (map VModel (fst page)))
         end) in
      ret (VDict [("results", results);
                  ("next_results_url", _build_next_query_url E R (snd page))])
  | Some model =>
      match Self.get_callback H with
      | Some callback => lift (callback (VModel model))
      | None => ret (VModel model)
      end
  end.

Definition wrap_exception {A} (prefix : string) (m : M A) : M A :=
  try_except m (fun exc => raise RESTException (prefix ++ exn_msg exc)).

(** [post] *)
Definition post (model : option entity) : M pyval :=
  match model with
  | Some _ => raise RESTException "Cannot POST to a specific model ID"
  | None =>
      match body R with
      | None => raise RESTException "Invalid JSON POST data"
      | Some json_data =>
          let! model :=
            wrap_exception "Invalid JSON POST data - "
              (let! built := _build_model_from_data E (user R) (Self.model H) json_data None in
               let! model :=
                 (match Self.post_callback H with
                  | Some callback => lift (callback (fst built) (snd built))
                  | None => ret (fst built)
                  end) in
               model_put E model) in
          ret (VModel model)
      end
  end.

(** One turn of the loop of [_multi_update_models(models)]: the model that
    is appended to [updated_models]. *)
Definition update_model (permission : permission) (model_to_update : pyval)
  : M entity :=
  let! has_id := lift (py_contains "id" model_to_update) in
  if negb has_id
  then raise RESTException
         ("Missing " ++ dquote ++ "id" ++ dquote ++ " argument for model")
  else
    let! model_id := lift (py_getitem model_to_update "id") in
    let! model := _model_id_to_model E H model_id in
    let! denied :=
      (if bool_decide (permission = PERMISSION_OWNER_USER)
       then lift (not_owned model)
       else ret false) in
    if denied
    then raise RESTException
           ("Model id " ++ py_str E model_id ++ " is not owned by user")
    else
      wrap_exception "Invalid JSON PUT data - "
        (let! built :=
           _build_model_from_data E (user R) (Self.model H) model_to_update model in
         let! model :=
           (match Self.put_callback H with
            | Some callback => lift (callback (fst built) (snd built))
            | None => ret (fst built)
            end) in
         model_put E model).

(** The loop of [_multi_update_models(models)]. *)
Fixpoint update_each (permission : permission) (models : list pyval)
    (updated_models : list entity) : M (list entity) :=
  match models with
  | [] => ret updated_models
  | model_to_update :: models' =>
      let! model := update_model permission model_to_update in
      update_each permission models' (updated_models ++ [model])%list
  end.

(** A model instance as it is when [updated_models] is returned.  Inside the
    transaction NDB's context cache hands out one instance per key, so an
    instance that a later element of the batch updated again shows that
    later state: it is the entity stored under its key.  (This is the
    reading for handlers without a put callback; a callback may return
    another instance than the one it is given.) *)
Definition current_instance (w : world) (model : entity) : entity :=
  match e_key model with
  | Some k =>
      match w_store w !! k with
      | Some e => loaded (k, e)
      | None => model
      end
  | None => model
  end.

(** [_multi_update_models(models)], decorated with
    [@ndb.transactional(retries=0, xg=True)]. *)
Definition _multi_update_models (models : list pyval) : M (list entity) :=
  ndb_transactional E 0
    (let! permission := permission_of "PUT" in
     let! updated_models := update_each permission models [] in
     let! w := get_world in
     ret (map (current_instance w) updated_models)).

(** [put] *)
Definition put (model : option entity) : M pyval :=
  match body R with
  | None => raise RESTException "Invalid JSON PUT data"
  | Some json_data =>
      match model with
      | None =>
          match json_data with
          | VList models =>
              let! updated_models := _multi_update_models models in
              ret (VList (map VModel updated_models))
          | _ => raise RESTException "Invalid JSON PUT data"
          end
      | Some model =>
          let! model :=
            wrap_exception "Invalid JSON PUT data - "
              (let! built :=
                 _build_model_from_data E (user R) (Self.model H) json_data (Some model) in
               let! model :=
                 (match Self.put_callback H with
                  | Some callback => lift (callback (fst built) (snd built))
                  | None => ret (fst built)
                  end) in
               model_put E model) in
          ret (VModel model)
      end
  end.

(** [m.key.delete()] *)
Definition delete_entity (m : entity) : M unit :=
  match e_key m with
  | Some k => key_delete k
  | None => raise AttributeError "delete"
  end.

(** The [for m in results] loop of a collection [DELETE] with a callback. *)
Fixpoint delete_each (callback : entity -> result unit) (results : list entity)
    (deleted_models : list entity) : M (list entity) :=
  match results with
  | [] => ret deleted_models
  | m :: results' =>
      lift (callback m) ;;
      delete_entity m ;;
      delete_each callback results' (deleted_models ++ [m])%list
  end.

(** The [while more_available] loop of a collection [DELETE]; [fuel] bounds
    the number of pages. *)
Fixpoint delete_pages (fuel : nat) (query : Query) (cursor : option Cursor)
    (deleted_models : list entity) : M (list entity) :=
  match fuel with
  | O => raise RuntimeError "out of fuel"
  | S fuel' =>
      let! w := get_world in
      let! page := lift (fetch_page E (w_store w) query DEFAULT_MAX_QUERY_RESULTS cursor) in
      let results := fst (fst page) in
      let cursor := snd (fst page) in
      let more_available := snd page in
      let! deleted_models :=
        (match results with
         | [] => ret deleted_models
         | _ =>
             match Self.delete_callback H with
             | Some callback => delete_each callback results deleted_models
             | None =>
                 delete_multi (keys_of results) ;;
                 ret (deleted_models ++ results)%list
             end
         end) in
      if more_available then delete_pages fuel' query cursor deleted_models
      else ret deleted_models
  end.

(** [delete] *)
Definition delete (model : option entity) : M pyval :=
  match model with
  | None =>
      let! permission := permission_of "DELETE" in
      let! query :=
        (if bool_decide (permission = PERMISSION_OWNER_USER)
         then filter_by_owner (MkQuery (cls_kind (Self.model H)) None [] [])
         else ret (MkQuery (cls_kind (Self.model H)) None [] [])) in
      let! w := get_world in
      let! deleted_models := delete_pages (S (size (w_store w))) query None [] in
      ret (VList (map VModel deleted_models))
  | Some model =>
      wrap_exception "Could not delete model - "
        (match Self.delete_callback H with
         | Some callback => lift (callback model)
         | None => ret tt
         end ;;
         delete_entity model) ;;
      ret (VModel model)
  end.

End RESTHandlerClass.
End RESTHandlerClass.

(* ===================================================================== *)
(** * BaseRESTHandler.dispatch *)
(* ===================================================================== *)

(** [s.upper()] on ASCII text. *)
Definition ascii_upper (a : ascii) : ascii :=
  let n := Ascii.nat_of_ascii a in
  if (Nat.leb 97 n && Nat.leb n 122)%bool then Ascii.ascii_of_nat (n - 32) else a.

Fixpoint upper (s : string) : string :=
  match s with
  | EmptyString => EmptyString
  | String a s' => String (ascii_upper a) (upper s')
  end.

(** What [dispatch] reads of the request besides what the handler methods
    read: the method, and the headers [X-HTTP-Method-Override] and [Origin]
    ([None] when the request does not carry the header). *)
Record http := MkHttp {
  http_method : string;
  header_method_override : option string;
  header_origin : option string
}.

Definition OVERRIDE_METHODS : list string :=
  ["GET"; "POST"; "PUT"; "DELETE"; "OPTIONS"].

Section Dispatch.
Context (E : Env).
(** The class attributes [allow_http_method_override] and [allowed_origin]
    that [get_rest_class] sets from its keyword arguments, and
    [webapp2.RequestHandler.dispatch(self)], which runs the handler method
    of the method [self.request.method] names. *)
Context (allow_http_method_override : bool) (allowed_origin : option string).
Context (RequestHandler_dispatch : string -> M response).

(** [dispatch()] (the session store is left out). *)
Definition dispatch (q : http) : M response :=
  let after_override (method : string) : M response :=
    match allowed_origin with
    | Some allowed =>
        if negb (String.eqb allowed "")
        then
          match header_origin q with
          | Some origin =>
              if (negb (String.eqb origin allowed) && negb (String.eqb allowed "*"))%bool
              then permission_denied E (VStr "Origin not allowed")
              else RequestHandler_dispatch method
          | None => RequestHandler_dispatch method
          end
        else RequestHandler_dispatch method
    | None => RequestHandler_dispatch method
    end in
  match (if allow_http_method_override then header_method_override q else None) with
  | Some text =>
      let overridden_method_name := strip (upper text) in
      if negb (existsb (String.eqb overridden_method_name) OVERRIDE_METHODS)
      then method_not_allowed E
      else after_override overridden_method_name
  | None => after_override (http_method q)
  end.

End Dispatch.

(** The handler method [webapp2] finds for a method name, wrapped as
    [rest_method_wrapper] wraps it; [None] for a name the handler class
    defines no REST method for. *)
Definition handler_method (E : Env) (H : Self.handler) (R : request)
    (method : string) : option (option entity -> M pyval) :=
  if String.eqb method "GET" then Some (RESTHandlerClass.get E H R)
  else if String.eqb method "POST" then Some (RESTHandlerClass.post E H R)
  else if String.eqb method "PUT" then Some (RESTHandlerClass.put E H R)
  else if String.eqb method "DELETE" then Some (RESTHandlerClass.delete E H R)
  else if String.eqb method "OPTIONS" then Some RESTHandlerClass.options
  else None.

(* ===================================================================== *)
(** * A small application, for the examples *)
(* ===================================================================== *)

Module Example.

Definition kU : Key := MkKey "User" (IntId 1).
Definition kV : Key := MkKey "User" (IntId 2).
Definition kA : Key := MkKey "User" (IntId 3).
Definition k1 : Key := MkKey "MyModel" (IntId 1).
Definition k2 : Key := MkKey "MyModel" (IntId 2).
Definition kP : Key := MkKey "Post" (IntId 1).
Definition kAcc : Key := MkKey "Account" (IntId 1).
Definition kE : Key := MkKey "Event" (IntId 1).

Definition meta0 : RESTMeta :=
  MkRESTMeta [] [] [] [] [] [] [] [] None false None.

(** class MyUser: is_admin = BooleanProperty; RESTMeta.admin_property = 'is_admin' *)
Definition User : model_class :=
  ModelClass "User" [("is_admin", Property GenericProperty false)]
    (Some (MkRESTMeta [] [] [] [] [] [] [] [] None false (Some "is_admin"))).

(** class MyModel: RESTMeta.user_owner_property = 'owner' *)
Definition MyModel : model_class :=
  ModelClass "MyModel"
    [("name", Property GenericProperty false);
     ("count", Property GenericProperty false);
     ("created", Property DateTimeProperty false);
     ("owner", Property (KeyProperty (Some "User")) false)]
    (Some (MkRESTMeta [] [] [] [] [] [] [] [] (Some "owner") false None)).

Definition env : Env := {|
  key_from_urlsafe s :=
    if String.eqb s "kU" then KeyParsed kU else
    if String.eqb s "kV" then KeyParsed kV else
    if String.eqb s "kA" then KeyParsed kA else
    if String.eqb s "k1" then KeyParsed k1 else
    if String.eqb s "k2" then KeyParsed k2 else
    if String.eqb s "kP" then KeyParsed kP else
    if String.eqb s "kAcc" then KeyParsed kAcc else
    if String.eqb s "kE" then KeyParsed kE else KeyDecodeError;
  key_urlsafe k :=
    if bool_decide (k = kU) then "kU" else
    if bool_decide (k = kV) then "kV" else
    if bool_decide (k = kA) then "kA" else
    if bool_decide (k = k1) then "k1" else
    if bool_decide (k = k2) then "k2" else
    if bool_decide (k = kP) then "kP" else
    if bool_decide (k = kAcc) then "kAcc" else
    if bool_decide (k = kE) then "kE" else "k?";
  dateutil_parse s := if String.eqb s "2013-01-01T00:00:00" then Some 0 else None;
  isoformat t := if t =? 0 then "2013-01-01T00:00:00" else "?";
  py_int s :=
    if String.eqb s "1" then Some 1 else
    if String.eqb s "0" then Some 0 else None;
  py_str v := match v with VStr s => s | _ => "?" end;
  gql_where s := None;
  validate p v := true;
  value_leb a b := true;
  _kind_map k :=
    if String.eqb k "User" then Some User else
    if String.eqb k "MyModel" then Some MyModel else None;
  cursor_from_urlsafe s := None;
  cursor_urlsafe c := "cursor";
  urlencode l := "";
  commit_succeeds n := true;
  other_attribute cls name := (String.eqb name "query" || String.eqb name "put")%bool;
  put_error e := None
|}.

Definition eU : entity := Entity User (Some kU) [("is_admin", VBool false)].
Definition eV : entity := Entity User (Some kV) [("is_admin", VBool false)].
Definition eA : entity := Entity User (Some kA) [("is_admin", VBool true)].
Definition m1 : entity :=
  Entity MyModel (Some k1) [("name", VStr "a"); ("owner", VKey kU)].
Definition m2 : entity :=
  Entity MyModel (Some k2) [("name", VStr "b"); ("owner", VKey kV)].

(** Two stored entities, owned by U and by V. *)
Definition w0 : world := MkWorld (<[k1 := m1]> (<[k2 := m2]> ∅)) ∅.

Definition handler_with (ps : list (string * permission)) : Self.handler :=
  Self.MkHandler MyModel (Dict.update [("OPTIONS", PERMISSION_ANYONE)] ps)
    None None None None.

Definition request_of (u : option entity) (b : option pyval) : request :=
  MkRequest [] b "/mymodel" u.

(** class Folder: a title and a structured property of class MyModel *)
Definition Folder : model_class :=
  ModelClass "Folder"
    [("title", Property GenericProperty false);
     ("first", Property (StructuredProperty MyModel) false)]
    None.

(** class Note: RESTMeta.excluded_input_properties = ['name'] *)
Definition Note : model_class :=
  ModelClass "Note"
    [("name", Property GenericProperty false);
     ("text", Property GenericProperty false)]
    (Some (MkRESTMeta [] [] [] ["name"] [] [] [] [] None false None)).

Definition kN : Key := MkKey "Note" (IntId 1).
Definition n1 : entity := Entity Note (Some kN) [("name", VStr "a"); ("text", VStr "t")].
Definition wN : world := MkWorld (<[kN := n1]> ∅) ∅.
Definition note_handler : Self.handler :=
  Self.MkHandler Note
    [("OPTIONS", PERMISSION_ANYONE); ("PUT", PERMISSION_ANYONE); ("POST", PERMISSION_ANYONE)]
    None None None None.

(** class Article: RESTMeta.translate_input_property_names = {'name': 'title'} *)
Definition Article : model_class :=
  ModelClass "Article" [("name", Property GenericProperty false)]
    (Some (MkRESTMeta [] [] [] [] [] [] [("name", "title")] [] None false None)).

(** class Account: RESTMeta.excluded_output_properties = ['password'] *)
Definition Account : model_class :=
  ModelClass "Account"
    [("login", Property GenericProperty false);
     ("password", Property GenericProperty false)]
    (Some (MkRESTMeta [] [] [] [] ["password"] [] [] [] None false None)).
Definition acc1 : entity :=
  Entity Account (Some kAcc) [("login", VStr "u"); ("password", VStr "s")].

(** class Post: the wire name of 'name' is 'title', in both directions *)
Definition Post : model_class :=
  ModelClass "Post"
    [("name", Property GenericProperty false);
     ("created", Property DateTimeProperty false);
     ("author", Property (KeyProperty (Some "User")) false);
     ("tags", Property GenericProperty true)]
    (Some (MkRESTMeta [] [] [] [] [] [] [("name", "title")] [("name", "title")]
             None false None)).
Definition p1 : entity :=
  Entity Post (Some kP)
    [("name", VStr "a"); ("created", VDateTime 0); ("author", VKey kU);
     ("tags", VList [VStr "x"; VStr "y"])].

(** class Event: day = DateProperty, at = DateTimeProperty *)
Definition Event : model_class :=
  ModelClass "Event"
    [("day", Property DateProperty false);
     ("at", Property DateTimeProperty false)]
    None.
(** class Labelled: included_input_properties = ['label'] and
    use_input_id = True; class Hidden: excluded_input_properties = ['id'] and
    use_input_id = True *)
Definition Labelled : model_class :=
  ModelClass "Labelled"
    [("label", Property GenericProperty false);
     ("secret", Property GenericProperty false)]
    (Some (MkRESTMeta ["label"] [] [] [] [] [] [] [] None true None)).
Definition Hidden : model_class :=
  ModelClass "Hidden" [("label", Property GenericProperty false)]
    (Some (MkRESTMeta [] [] [] ["id"] [] [] [] [] None true None)).

(** class Tag: RESTMeta.use_input_id = True *)
Definition Tag : model_class :=
  ModelClass "Tag" [("label", Property GenericProperty false)]
    (Some (MkRESTMeta [] [] [] [] [] [] [] [] None true None)).

(** A stored tag, and a handler of tags that anyone may POST to. *)
Definition kT : Key := MkKey "Tag" (StrId "t1").
Definition t_old : entity := Entity Tag (Some kT) [("label", VStr "old")].
Definition wT : world := MkWorld (<[kT := t_old]> ∅) ∅.
Definition tag_handler : Self.handler :=
  Self.MkHandler Tag [("OPTIONS", PERMISSION_ANYONE); ("POST", PERMISSION_ANYONE)]
    None None None None.

(** A delete callback that refuses the entity of key [k2]. *)
Definition keep_k2 (e : entity) : result unit :=
  if bool_decide (e_key e = Some k2) then Raise (Exn ValueError "kept") else Ok tt.
Definition guarded_handler : Self.handler :=
  Self.MkHandler MyModel
    [("OPTIONS", PERMISSION_ANYONE); ("DELETE", PERMISSION_ANYONE)]
    None None None (Some keep_k2).

(** class Feed: RESTMeta.translate_property_names = {} and
    translate_output_property_names = {'name': 'title'}; the state holds the
    declared table. *)
Definition Feed : model_class :=
  ModelClass "Feed" [("name", Property GenericProperty false)]
    (Some (MkRESTMeta [] [] [] [] [] [] [] [("name", "title")] None false None)).
Definition wF : world := MkWorld ∅ (<["Feed" := []]> ∅).

End Example.

(* ===================================================================== *)
(** * Vocabulary of the statements *)
(* ===================================================================== *)

(** ** The property projection, as the specification words it *)

(** The inclusion lists and the exclusion lists a model declares for a
    direction: the list of the direction and the list of both directions. *)
Definition declared_included (M : model_class) (d : direction) : gset string :=
  match cls_RESTMeta M, d with
  | Some m, Input =>
      list_to_set (included_input_properties m) ∪ list_to_set (included_properties m)
  | Some m, Output =>
      list_to_set (included_output_properties m) ∪ list_to_set (included_properties m)
  | None, _ => ∅
  end.

Definition declared_excluded (M : model_class) (d : direction) : gset string :=
  match cls_RESTMeta M, d with
  | Some m, Input =>
      list_to_set (excluded_input_properties m) ∪ list_to_set (excluded_properties m)
  | Some m, Output =>
      list_to_set (excluded_output_properties m) ∪ list_to_set (excluded_properties m)
  | None, _ => ∅
  end.

(** The identifier is added for the input of a model with client-supplied
    identifiers. *)
Definition forces_id (M : model_class) (d : direction) : bool :=
  match d, cls_RESTMeta M with
  | Input, Some m => use_input_id m
  | _, _ => false
  end.

(** The exclusions built into the handlers. *)
Definition built_in_excluded (d : direction) : gset string :=
  match d with
  | Input => {["class_"]}
  | Output => ∅
  end.

(** The claim's reading of the projection: the declared inclusions, or all
    properties when none is declared, minus the exclusions, and then the
    identifier forced in. *)
Definition claimed_includedProperties (M : model_class) (d : direction) : gset string :=
  ((if decide (declared_included M d = ∅)
    then list_to_set (Dict.keys (_properties M))
    else declared_included M d)
   ∖ (declared_excluded M d ∪ built_in_excluded d))
  ∪ (if forces_id M d then {["id"]} else ∅).

(** ** Pages of a query *)

Section Paging.
Context (E : Env) (R : request).

(** The limit of a page: 1000 when the request gives none, the given number
    when it is a positive integer, and otherwise none. *)
Definition page_limit : option Z :=
  match GET_param R "limit" with
  | None => Some 1000
  | Some text =>
      match py_int E text with
      | Some n => if n <=? 0 then None else Some n
      | None => None
      end
  end.

(** The resume cursor of the request: [Some None] when it gives no token,
    [None] when its token does not decode. *)
Definition page_cursor : option (option Cursor) :=
  match GET_param R "cursor" with
  | None => Some None
  | Some text =>
      match cursor_from_urlsafe E text with
      | Some c => Some (Some c)
      | None => None
      end
  end.

(** The matches of a query that a cursor has not passed. *)
Definition remaining (store : gmap Key entity) (query : Query)
    (cursor : option Cursor) : list entity :=
  List.filter
    (fun e => negb (key_seen (match cursor with Some c => c_seen c | None => [] end) e))
    (run_query E store query).

Definition raises_RESTException {A} (r : result A * world) (w : world) : Prop :=
  exists msg, r = (Raise (Exn RESTException msg), w).

End Paging.

(** ** The permission gate as a decision table *)

Inductive gate_outcome :=
| MethodNotAllowed
| Unauthorized
| Forbidden
| InvalidModelId (e : exn)
| Allow.

(** What the path addresses: nothing, an identifier that resolves to a
    stored entity, or an identifier that does not. *)
Inductive target :=
| NotAddressed
| Resolved (e : entity)
| Unresolved (e : exn).

(** The gate with the resolution of the addressed identifier in its place:
    after the admin rule and before the owner rule, an identifier that does
    not resolve ends the request. *)
Definition gate_check (level : option permission) (has_principal is_admin : bool)
    (t : target) (owner_differs : bool) : gate_outcome :=
  match level with
  | None => MethodNotAllowed
  | Some level =>
      if (RESTHandlerClass.requires_login level && negb has_principal)%bool
      then Unauthorized
      else if (bool_decide (level = PERMISSION_ADMIN) && negb is_admin)%bool
      then Forbidden
      else
        match t with
        | Unresolved e => InvalidModelId e
        | _ =>
            if (bool_decide (level = PERMISSION_OWNER_USER) && owner_differs)%bool
            then Forbidden
            else Allow
        end
  end.

(** ** The permission gate on a request *)

Section Gate.
Context (E : Env) (H : Self.handler) (R : request).

Definition has_principal : bool := bool_decide (is_Some (user R)).

Definition principal_is_admin : bool :=
  match RESTHandlerClass.is_user_admin E R with
  | Ok v => truthy v
  | Raise _ => false
  end.

(** The part of the path after the leading slash. *)
Definition path_id (model_id : string) : pyval :=
  VStr (String.substring 1 (String.length model_id - 1) model_id).

Definition addressed (model_id : string) (w : world) : target :=
  if String.eqb model_id "" then NotAddressed
  else
    match fst (_model_id_to_model E H (path_id model_id) w) with
    | Ok (Some e) => Resolved e
    | Ok None => NotAddressed
    | Raise e => Unresolved e
    end.

Definition target_entity (t : target) : option entity :=
  match t with Resolved e => Some e | _ => None end.

Definition owner_differs (t : target) : bool :=
  match t with
  | Resolved e =>
      match RESTHandlerClass.not_owned E H R (Some e) with
      | Ok b => b
      | Raise _ => false
      end
  | _ => false
  end.

(** The response of each outcome; an allowed request runs the handler
    method on the target. *)
Definition respond (func : option entity -> M pyval) (t : target)
    (o : gate_outcome) : M response :=
  match o with
  | MethodNotAllowed => method_not_allowed E
  | Unauthorized => unauthorized E
  | Forbidden => permission_denied E VNone
  | InvalidModelId e => error E e
  | Allow =>
      except_RESTException
        (let! result := func (target_entity t) in success E result)
        (fun exc => error E exc)
  end.

End Gate.

(** ** Name translation and payload dictionaries *)

Section Renaming.
Import Dict.

(** One renaming of the translation loop on a dictionary. *)
Definition rename_key (src dst : string) (d : list (string * pyval))
  : list (string * pyval) :=
  match get src d with
  | Some v => set dst v (del src d)
  | None => d
  end.

Definition step_src (dir : direction) (entry : string * string) : string :=
  match dir with Input => snd entry | Output => fst entry end.

Definition step_dst (dir : direction) (entry : string * string) : string :=
  match dir with Input => fst entry | Output => snd entry end.

Definition rename_all (dir : direction) (table : list (string * string))
    (d : list (string * pyval)) : list (string * pyval) :=
  fold_left (fun d entry => rename_key (step_src dir entry) (step_dst dir entry) d)
            table d.

(** The translation table a call of [translate_property_names] uses. *)
Definition effective_table (cls : model_class) (dir : direction) (w : world)
  : list (string * string) :=
  match cls_RESTMeta cls with
  | Some m => update (default [] (w_tables w !! cls_kind cls)) (translate_table_for m dir)
  | None => []
  end.

(** The tables after a call of [translate_property_names]. *)
Definition tables_after (cls : model_class) (dir : direction) (w : world) : world :=
  match cls_RESTMeta cls, w_tables w !! cls_kind cls with
  | Some m, Some _ =>
      MkWorld (w_store w) (<[cls_kind cls := effective_table cls dir w]> (w_tables w))
  | _, _ => w
  end.

(** Two dictionaries that hold the same under every key but [k]. *)
Definition agree_except (k : string) (d1 d2 : list (string * pyval)) : Prop :=
  forall key, key ≠ k -> get key d1 = get key d2.

(** The model instance and the world of a construction, without the data it
    hands on. *)
Definition built_model (x : result (entity * pyval) * world) : result entity * world :=
  (match fst x with Ok b => Ok (fst b) | Raise e => Raise e end, snd x).

(** Whether a construction reads the identifier from the data. *)
Definition takes_input_id (cls : model_class) (model : option entity) : bool :=
  match model, cls_RESTMeta cls with
  | None, Some m => use_input_id m
  | _, _ => false
  end.

(** The input renaming undoes the output renaming on the property names,
    and keeps the [id] the encoder adds. *)
Definition translation_inverts (t_out t_in : list (string * string))
    (names : list string) : Prop :=
  forall (d : list (string * pyval)) (id : pyval),
    keys d = names ->
    get "id" (rename_all Input t_in (set "id" id (rename_all Output t_out d)))
    = Some id
    /\ forall name, name ∈ names ->
         get name (rename_all Input t_in (set "id" id (rename_all Output t_out d)))
         = get name d.

End Renaming.

(** ** Ownership and batches *)

(** The owner rule of an update: the owner of the updated entity is the one
    of the existing entity, unless the payload names the owner property and
    the property is accepted as input; then it is the conversion of the
    value the payload gives. *)
Definition owner_after_update (E : Env) (user : option entity) (cls : model_class)
    (o : string) (existing updated : entity) (payload : pyval) : Prop :=
  (py_contains o payload = Ok false \/ (o ∉ get_included_properties cls Input) ->
   Dict.get o (e_values updated) = Dict.get o (e_values existing))
  /\ (py_contains o payload = Ok true -> o ∈ get_included_properties cls Input ->
      exists prop raw w1 x w2,
        (o, prop) ∈ _properties cls
        /\ py_getitem payload o = Ok raw
        /\ convert_input (_value_to_property E user) prop raw w1 = (Ok x, w2)
        /\ Dict.get o (e_values updated) = Some x).

(** The course of a batch: each element in its turn, in the state the
    elements before it left, with the entity every element gave. *)
Inductive batch_course (step : pyval -> M entity)
  : list pyval -> world -> list entity -> world -> Prop :=
| course_nil w : batch_course step [] w [] w
| course_cons x xs w m w1 ms w' :
    step x w = (Ok m, w1) -> batch_course step xs w1 ms w' ->
    batch_course step (x :: xs) w (m :: ms) w'.

(** The value of a structured property whose entities the principal owns. *)
Definition nested_owned (o : string) (u : entity) (repeated : bool) (v : pyval) : Prop :=
  let owned x :=
    exists e, x = VModel e /\ Dict.get o (e_values e) = Some (key_value (e_key u)) in
  if repeated then exists l, v = VList l /\ forall x, x ∈ l -> owned x
  else owned v.

(** ** Transactions *)

(** What a rolled-back transaction leaves: the store as it was, and the
    objects in memory as the callback left them. *)
Definition rolled_back (w w1 : world) : world := MkWorld (w_store w) (w_tables w1).

(** ** The paging loop of a collection DELETE *)

Section Deletion.
Context (E : Env) (H : Self.handler) (R : request) (q : Query).

(** The deletion of one page, as the loop of [delete] does it. *)
Definition delete_page (results deleted_models : list entity) : M (list entity) :=
  match results with
  | [] => ret deleted_models
  | _ =>
      match Self.delete_callback H with
      | Some callback => RESTHandlerClass.delete_each callback results deleted_models
      | None =>
          delete_multi (keys_of results) ;;
          ret (deleted_models ++ results)%list
      end
  end.

(** The store of [w'] is the store of [w] without the keys of [gone]. *)
Definition store_without (gone : list entity) (w w' : world) : Prop :=
  (forall k, w_store w' !! k
             = if bool_decide (k ∈ keys_of gone) then None else w_store w !! k)
  /\ w_tables w' = w_tables w.

(** The store of [w'] holds what the store of [w] holds, but for entities
    that the query matched. *)
Definition only_matches_gone (w w' : world) : Prop :=
  forall k,
    w_store w' !! k = w_store w !! k
    \/ (w_store w' !! k = None
        /\ exists e0, w_store w !! k = Some e0
                      /\ query_matches E q (loaded (k, e0)) = true).

(** A cursor that fits the query and has passed only keys that are gone. *)
Definition cursor_fresh (cursor : option Cursor) (w : world) : Prop :=
  forall c, cursor = Some c ->
    c_shape c = query_shape q /\ forall k, k ∈ c_seen c -> w_store w !! k = None.

End Deletion.

(** ** Ownership of stored entities *)

Section Owned.
Context (E : Env) (H : Self.handler) (R : request) (u : entity) (o : string).

(** An entity of the handler's model whose owner property is the key of the
    principal. *)
Definition owned_by_principal (e : entity) : bool :=
  String.eqb (cls_kind (e_cls e)) (cls_kind (Self.model H))
  && filter_holds e (o, e_key u).

(** An entity as the store holds it. *)
Definition stored (w : world) (e : entity) : Prop :=
  exists k e0, w_store w !! k = Some e0 /\ e = loaded (k, e0).

Definition owner_query : Query :=
  MkQuery (cls_kind (Self.model H)) None [(o, e_key u)] [].

End Owned.

(** ** Encoding of values *)

Section RoundTripTerms.
Context (E : Env).
Import Dict.

(** The value [to_dict] gives for a property: the stored one or the default. *)
Definition value_or_default (values : list (string * pyval))
    (np : string * property) : pyval :=
  match get (fst np) values with
  | Some v => v
  | None => default_value (snd np)
  end.

Definition is_structured (p : property) : bool :=
  match prop_ptype p with StructuredProperty _ => true | _ => false end.

(** The JSON of a scalar value and of a flat value, as a function. *)
Definition encode_scalar (v : pyval) : pyval :=
  match v with
  | VDateTime t => VStr (isoformat E t)
  | VKey k => _decode_key E k
  | _ => v
  end.

Definition encode_value (v : pyval) : pyval :=
  match v with
  | VList l => VList (map encode_scalar l)
  | _ => encode_scalar v
  end.

Definition encodable_scalar (v : pyval) : Prop :=
  match v with
  | VNone | VBool _ | VInt _ | VStr _ | VDateTime _ | VKey _ => True
  | _ => False
  end.

Definition encodable (v : pyval) : Prop :=
  match v with
  | VList l => Forall encodable_scalar l
  | _ => encodable_scalar v
  end.

Definition map_values (f : pyval -> pyval) (d : list (string * pyval))
  : list (string * pyval) :=
  map (fun kv => (fst kv, f (snd kv))) d.

(** A property of all the values of a dictionary, kept by the renamings. *)
Definition values_all (P : pyval -> Prop) (d : list (string * pyval)) : Prop :=
  Forall (fun kv => P (snd kv)) d.

(** The token [_decode_key] gives for a key is read back as that key by the
    [KeyProperty] branch of [_value_to_property]. *)
Definition key_token_decodes (kind : option string) (k : Key) : Prop :=
  match _decode_key E k with
  | VStr s =>
      match key_from_urlsafe E s with
      | KeyParsed k' => k' = k
      | KeyDecodeError =>
          match kind with
          | Some kind =>
              match _kind_map E kind with
              | Some model_class =>
                  match cls_RESTMeta model_class with
                  | Some m =>
                      use_input_id m = true
                      /\ MkKey (cls_kind model_class) (StrId s) = k
                  | None => False
                  end
              | None => False
              end
          | None => False
          end
      | KeyOtherError => False
      end
  | _ => False
  end.

(** The values of the kinds the round trip is about: strings, integers (and
    the other JSON scalars) for a generic property, a [datetime] the parser
    reads back from its ISO text, a key (or [None]) for a key property. *)
Definition scalar_value_ok (ptype : prop_type) (v : pyval) : Prop :=
  match ptype, v with
  | GenericProperty, (VNone | VBool _ | VInt _ | VStr _) => True
  | DateTimeProperty, VDateTime t => dateutil_parse E (isoformat E t) = Some t
  | KeyProperty _, VNone => True
  | KeyProperty kind, VKey k => key_token_decodes kind k
  | _, _ => False
  end.

Definition property_value_ok (p : property) (v : pyval) : Prop :=
  is_structured p = false
  /\ if _repeated p
     then match v with
          | VList l => Forall (scalar_value_ok (prop_ptype p)) l
          | _ => False
          end
     else scalar_value_ok (prop_ptype p) v.

End RoundTripTerms.

(** ** Effects on the datastore *)

(** A computation that leaves the datastore as it found it, whatever it
    returns or raises. *)
Definition keeps_store {A} (m : M A) : Prop :=
  forall w r w', m w = (r, w') -> w_store w' = w_store w.

(** A computation that leaves the datastore and the translation tables as
    it found them. *)
Definition keeps_world {A} (m : M A) : Prop :=
  forall w r w', m w = (r, w') -> w' = w.

(** The nesting depth of the structured properties of a model class. *)
Fixpoint cls_depth (c : model_class) : nat :=
  match c with
  | ModelClass _ properties _ =>
      S ((fix each (props : list (string * property)) : nat :=
            match props with
            | [] => O
            | (_, Property ptype _) :: props' =>
                Nat.max
                  (match ptype with
                   | StructuredProperty modelclass => cls_depth modelclass
                   | _ => O
                   end)
                  (each props')
            end) properties)
  end.

(** ** Temporal values *)

(** A [date] or a [time] value, which is no [datetime]. *)
Definition is_date_or_time (v : pyval) : bool :=
  match v with VDate _ | VTime _ => true | _ => false end.

(** A property whose input [_value_to_property] hands to the date parser. *)
Definition is_temporal (ptype : prop_type) : bool :=
  match ptype with
  | DateTimeProperty | DateProperty | TimeProperty => true
  | _ => false
  end.

(** A computation whose [RESTException]s leave the datastore as it was. *)
Definition raise_keeps_store {A} (m : M A) : Prop :=
  forall w e w', m w = (Raise e, w') -> is_RESTException e = true ->
                 w_store w' = w_store w.

(** A computation whose responses other than 200 leave the datastore as it
    was. *)
Definition refusal_keeps_store (m : M response) : Prop :=
  forall w resp w', m w = (Ok resp, w') -> status resp ≠ 200 ->
                    w_store w' = w_store w.

(* ===================================================================== *)
(** * Lemmas on dictionaries and on the monad *)
(* ===================================================================== *)

Module DictFacts.
Import Dict.

Lemma get_set_eq {A} k (v : A) d : get k (set k v d) = Some v.
Proof.
  induction d as [|[k' v'] d IH]; simpl.
  - by rewrite String.eqb_refl.
  - destruct (String.eqb k k') eqn:Hk; simpl.
    + by rewrite String.eqb_refl.
    + by rewrite Hk.
Qed.

Lemma get_del_eq {A} k (d : list (string * A)) : get k (del k d) = None.
Proof.
  induction d as [|[k' v'] d IH]; simpl; [done|].
  destruct (String.eqb k k') eqn:Hk; simpl; [done|]. by rewrite Hk.
Qed.

Lemma get_del_ne {A} k k' (d : list (string * A)) :
  k ≠ k' -> get k' (del k d) = get k' d.
Proof.
  intros Hne. induction d as [|[k0 v0] d IH]; simpl; [done|].
  destruct (String.eqb k k0) eqn:Hk; simpl.
  - apply String.eqb_eq in Hk as <-.
    destruct (String.eqb k' k) eqn:Hk'; [|done].
    apply String.eqb_eq in Hk'. congruence.
  - by rewrite IH.
Qed.

Lemma get_set_ne {A} k k' (v : A) d :
  k ≠ k' -> get k' (set k v d) = get k' d.
Proof.
  intros Hne. induction d as [|[k0 v0] d IH]; simpl.
  - destruct (String.eqb k' k) eqn:Hk'; [|done].
    apply String.eqb_eq in Hk'. congruence.
  - destruct (String.eqb k k0) eqn:Hk; simpl.
    + apply String.eqb_eq in Hk as <-.
      destruct (String.eqb k' k) eqn:Hk'.
      * apply String.eqb_eq in Hk'. congruence.
      * by apply get_del_ne.
    + by rewrite IH.
Qed.

Lemma get_set {A} k k' (v : A) d :
  get k' (set k v d) = if String.eqb k' k then Some v else get k' d.
Proof.
  destruct (String.eqb k' k) eqn:Hk.
  - apply String.eqb_eq in Hk as ->. apply get_set_eq.
  - apply String.eqb_neq in Hk. by apply get_set_ne.
Qed.

Lemma has_set {A} k k' (v : A) d :
  has k' (set k v d) = (String.eqb k' k || has k' d)%bool.
Proof. unfold has. rewrite get_set. by destruct (String.eqb k' k). Qed.

Lemma get_del {A} k k' (d : list (string * A)) :
  get k' (del k d) = if String.eqb k' k then None else get k' d.
Proof.
  destruct (String.eqb k' k) eqn:Hk.
  - apply String.eqb_eq in Hk as ->. apply get_del_eq.
  - apply String.eqb_neq in Hk. by apply get_del_ne.
Qed.

Lemma get_filter_keys {A} p k (d : list (string * A)) :
  get k (filter_keys p d) = if p k then get k d else None.
Proof.
  unfold filter_keys.
  induction d as [|[k' v'] d IH]; simpl.
  - by destruct (p k).
  - destruct (String.eqb k k') eqn:Hk.
    + apply String.eqb_eq in Hk as <-.
      destruct (p k) eqn:Hp; simpl; [by rewrite String.eqb_refl|done].
    + destruct (p k'); simpl; [by rewrite Hk|]; done.
Qed.

Lemma get_None_not_in {A} k (d : list (string * A)) :
  get k d = None <-> k ∉ keys d.
Proof.
  induction d as [|[k' v'] d IH]; simpl.
  - split; [intros _; apply not_elem_of_nil | done].
  - rewrite not_elem_of_cons. destruct (String.eqb k k') eqn:Hk.
    + apply String.eqb_eq in Hk. split; [done | tauto].
    + apply String.eqb_neq in Hk. rewrite IH. tauto.
Qed.

Lemma get_Some_in {A} k (v : A) d : get k d = Some v -> k ∈ keys d.
Proof.
  intros Hg. destruct (decide (k ∈ keys d)) as [|Hn]; [done|].
  apply get_None_not_in in Hn. congruence.
Qed.

Lemma get_elem {A} k (v : A) d : get k d = Some v -> (k, v) ∈ d.
Proof.
  induction d as [|[k' v'] d IH]; simpl; [done|].
  destruct (String.eqb k k') eqn:Hk.
  - apply String.eqb_eq in Hk as ->. intros [= ->]. by left.
  - intros Hg. right. by apply IH.
Qed.

Lemma elem_get {A} k (v : A) d : NoDup (keys d) -> (k, v) ∈ d -> get k d = Some v.
Proof.
  induction d as [|[k' v'] d IH]; simpl.
  - intros _ Hin. by apply elem_of_nil in Hin.
  - intros [Hnin Hnd]%NoDup_cons [[= -> ->]|Hin]%elem_of_cons.
    + by rewrite String.eqb_refl.
    + destruct (String.eqb k k') eqn:Hk; [|by apply IH].
      apply String.eqb_eq in Hk as ->. apply IH in Hin; [|done].
      apply get_Some_in in Hin. done.
Qed.

End DictFacts.

(* ===================================================================== *)
(** * Property projection (C6) *)
(* ===================================================================== *)

(** C6 (as amended).  [get_included_properties] is: the declared inclusion
    lists of the direction, or all the properties of the model when those
    lists are empty or not declared, with [id] added for the input of a model
    with client-supplied identifiers, minus the declared exclusion lists and
    the built-in exclusion.  So no declared excluded name is in the result,
    [id] included: an excluded [id] is not forced back in.  And when the
    declared inclusion lists are not empty, the result holds only names from
    them and, where it is added, [id]. *)
Theorem included_properties_projection (M : model_class) (d : direction) :
  (forall x,
      x ∈ get_included_properties M d <->
      ((if decide (declared_included M d = ∅)
        then x ∈ Dict.keys (_properties M)
        else x ∈ declared_included M d)
       \/ (forces_id M d = true /\ x = "id"))
      /\ (x ∉ declared_excluded M d) /\ (x ∉ built_in_excluded d))
  /\ (forall x, x ∈ declared_excluded M d -> x ∉ get_included_properties M d)
  /\ (declared_included M d ≠ ∅ ->
      forall x, x ∈ get_included_properties M d ->
                x ∈ declared_included M d \/ (x = "id" /\ forces_id M d = true))
  /\ (forces_id M d = true ->
      ("id" ∈ get_included_properties M d <->
       "id" ∉ declared_excluded M d)).
Proof.
  assert (forall x,
            x ∈ get_included_properties M d <->
            ((if decide (declared_included M d = ∅)
              then x ∈ Dict.keys (_properties M)
              else x ∈ declared_included M d)
             \/ (forces_id M d = true /\ x = "id"))
            /\ (x ∉ declared_excluded M d) /\ (x ∉ built_in_excluded d)) as Hiff.
  { intros x.
    unfold get_included_properties, declared_included, declared_excluded, forces_id,
      built_in_excluded, included_for, excluded_for.
    unfold DEFAULT_EXCLUDED_INPUT_PROPERTIES, DEFAULT_EXCLUDED_OUTPUT_PROPERTIES.
    destruct (cls_RESTMeta M) as [m|].
    - destruct d; destruct (decide (_ = ∅)) as [Hemp|Hne];
        destruct (use_input_id m); set_solver.
    - destruct d; rewrite !decide_True by done; set_solver. }
  split; [exact Hiff|]. split; [|split].
  - intros x Hx Hin. apply Hiff in Hin. tauto.
  - intros Hne x Hx. apply Hiff in Hx as [[Hx|Hx] _]; [|tauto].
    rewrite decide_False in Hx by done. by left.
  - intros Hforce. rewrite Hiff. split; [tauto|]. intros Hex.
    split; [by right|]. split; [done|].
    unfold built_in_excluded. destruct d; set_solver.
Qed.

(** The claim as stated says that the result holds only names of a declared
    inclusion list, and that [id] is forced in.  The first fails for a model
    that declares an inclusion list and client-supplied identifiers: [id] is
    in the projection and in no list.  The second fails for a model that
    excludes [id]: it is not in the projection. *)
Lemma forced_id_against_the_declared_lists :
  declared_included Example.Labelled Input = {["label"]}
  /\ ~ (forall x, x ∈ get_included_properties Example.Labelled Input ->
                  x ∈ declared_included Example.Labelled Input)
  /\ forces_id Example.Hidden Input = true
  /\ ("id" ∉ get_included_properties Example.Hidden Input)
  /\ get_included_properties Example.Hidden Input
     ≠ claimed_includedProperties Example.Hidden Input.
Proof.
  assert ("id" ∈ get_included_properties Example.Labelled Input) as Hid.
  { apply (bool_decide_unpack _). vm_compute. exact I. }
  assert ("id" ∉ get_included_properties Example.Hidden Input) as Hno.
  { apply (bool_decide_unpack _). vm_compute. exact I. }
  assert (declared_included Example.Labelled Input = {["label"]}) as Hdecl.
  { unfold declared_included. simpl. set_solver. }
  split; [exact Hdecl|]. split; [|split; [reflexivity|split; [exact Hno|]]].
  - intros Hall. specialize (Hall "id" Hid). rewrite Hdecl in Hall. set_solver.
  - intros Heq. apply Hno. rewrite Heq. unfold claimed_includedProperties. simpl.
    set_solver.
Qed.

(* ===================================================================== *)
(** * Pagination (C7) *)
(* ===================================================================== *)

Section FetchQuery.
Context (E : Env) (R : request).
Local Abbreviation page_limit := (page_limit E R).
Local Abbreviation page_cursor := (page_cursor E R).
Local Abbreviation remaining := (remaining E).

Lemma fetch_page_more store query limit cursor results next more :
  0 < limit ->
  fetch_page E store query limit cursor = Ok (results, next, more) ->
  results = take (Z.to_nat limit) (remaining store query cursor)
  /\ more = bool_decide (Z.to_nat limit < length (remaining store query cursor))%nat
  /\ (more = true -> next ≠ None).
Proof.
  intros Hpos. unfold fetch_page, remaining.
  set (rest := List.filter _ _).
  destruct (MAX_PAGE_SIZE <? limit); [done|].
  destruct (negb _); [done|]. intros [= <- <- <-].
  split; [done|]. split; [done|].
  intros Hmore%bool_decide_eq_true.
  destruct rest as [|e rest']; simpl in *; [lia|].
  destruct (Z.to_nat limit) eqn:Hn; [lia|]. done.
Qed.

(** The exceptions of [fetch_page]: a page size NDB does not take, and a
    cursor the datastore refuses. *)
Lemma fetch_page_Raise store query limit cursor e :
  fetch_page E store query limit cursor = Raise e ->
  (MAX_PAGE_SIZE < limit /\ exn_cls e = ValueError)
  \/ (limit <= MAX_PAGE_SIZE /\ exn_cls e = BadRequestError
      /\ exists c, cursor = Some c /\ c_shape c ≠ query_shape query).
Proof.
  unfold fetch_page. destruct (MAX_PAGE_SIZE <? limit) eqn:Hl.
  - intros [= <-]. left. split; [by apply Z.ltb_lt|done].
  - apply Z.ltb_ge in Hl. destruct cursor as [c|]; simpl; [|done].
    case_bool_decide as Hs; simpl; [done|]. intros [= <-]. right.
    split; [done|]. split; [done|]. by exists c.
Qed.

Lemma fetch_page_Ok store query limit cursor :
  limit <= MAX_PAGE_SIZE ->
  (forall c, cursor = Some c -> c_shape c = query_shape query) ->
  exists page, fetch_page E store query limit cursor = Ok page.
Proof.
  intros Hl Hs. unfold fetch_page.
  rewrite (proj2 (Z.ltb_ge _ _) Hl).
  destruct cursor as [c|]; simpl; [|by eauto].
  rewrite bool_decide_eq_true_2 by (by apply Hs). simpl. by eauto.
Qed.

Lemma fetch_query_cases (query : Query) (w : world) :
  match page_limit with
  | None => raises_RESTException (_fetch_query E R query w) w
  | Some limit =>
      0 < limit /\
      match page_cursor with
      | None => raises_RESTException (_fetch_query E R query w) w
      | Some cursor =>
          match fetch_page E (w_store w) query limit cursor with
          | Raise e =>
              match exn_cls e with
              | BadRequestError => raises_RESTException (_fetch_query E R query w) w
              | _ => _fetch_query E R query w = (Raise e, w)
              end
          | Ok (results, next, more) =>
              _fetch_query E R query w
              = (Ok (results, if more then next else None), w)
          end
      end
  end.
Proof.
  unfold page_limit, page_cursor, raises_RESTException, _fetch_query.
  unfold bind, ret, raise, lift, get_world, DEFAULT_MAX_QUERY_RESULTS.
  destruct (GET_param R "limit") as [text|].
  - destruct (py_int E text) as [n|]; [|by eexists].
    destruct (n <=? 0) eqn:Hn; [by eexists|].
    apply Z.leb_gt in Hn. split; [done|].
    destruct (GET_param R "cursor") as [ctext|].
    + destruct (cursor_from_urlsafe E ctext); [|by eexists].
      destruct (fetch_page _ _ _ _ _) as [[[rs nx] more]|e]; [by destruct more|].
      destruct (exn_cls e); try done. by eexists.
    + destruct (fetch_page _ _ _ _ _) as [[[rs nx] more]|e]; [by destruct more|].
      destruct (exn_cls e); try done. by eexists.
  - split; [done|].
    destruct (GET_param R "cursor") as [ctext|].
    + destruct (cursor_from_urlsafe E ctext); [|by eexists].
      destruct (fetch_page _ _ _ _ _) as [[[rs nx] more]|e]; [by destruct more|].
      destruct (exn_cls e); try done. by eexists.
    + destruct (fetch_page _ _ _ _ _) as [[[rs nx] more]|e]; [by destruct more|].
      destruct (exn_cls e); try done. by eexists.
Qed.

(** C7.  [_fetch_query]: without a [limit] the page limit is 1000; a limit
    that is not a positive integer, a cursor token that does not decode and a
    cursor the datastore refuses each fail with a [RESTException] (the
    validation error of the handlers); a page that is returned is the page
    of the limit after the cursor, and the cursor returned with it is [None]
    exactly when the page reaches the end of the matches; and the page is
    returned for every limit NDB takes and every cursor of the query. *)
Theorem fetch_query_contract (query : Query) (w : world) :
  (GET_param R "limit" = None -> page_limit = Some 1000)
  /\ (forall text, GET_param R "limit" = Some text ->
        (py_int E text = None \/ exists n, py_int E text = Some n /\ n <= 0) ->
        raises_RESTException (_fetch_query E R query w) w)
  /\ (page_cursor = None -> raises_RESTException (_fetch_query E R query w) w)
  /\ (forall limit cursor e,
        page_limit = Some limit -> page_cursor = Some cursor ->
        fetch_page E (w_store w) query limit cursor = Raise e ->
        exn_cls e = BadRequestError ->
        raises_RESTException (_fetch_query E R query w) w)
  /\ (forall results returned w',
        _fetch_query E R query w = (Ok (results, returned), w') ->
        w' = w
        /\ exists limit cursor,
             page_limit = Some limit /\ page_cursor = Some cursor
             /\ results = take (Z.to_nat limit) (remaining (w_store w) query cursor)
             /\ (returned = None <->
                 (length (remaining (w_store w) query cursor) <= Z.to_nat limit)%nat))
  /\ (forall limit cursor,
        page_limit = Some limit -> limit <= MAX_PAGE_SIZE ->
        page_cursor = Some cursor ->
        (forall c, cursor = Some c -> c_shape c = query_shape query) ->
        exists page, _fetch_query E R query w = (Ok page, w)).
Proof.
  pose proof (fetch_query_cases query w) as Hc.
  split; [|split; [|split; [|split; [|split]]]].
  - unfold page_limit. by intros ->.
  - intros text Htext Hbad.
    assert (page_limit = None) as Hnone.
    { unfold page_limit. rewrite Htext.
      destruct Hbad as [->|(n & -> & Hn)]; [done|].
      by rewrite (proj2 (Z.leb_le n 0)). }
    by rewrite Hnone in Hc.
  - intros Hcur. destruct page_limit as [limit|]; [|done].
    rewrite Hcur in Hc. tauto.
  - intros limit cursor e Hl Hcur Hf Hcls. rewrite Hl, Hcur, Hf, Hcls in Hc. tauto.
  - intros results returned w' Hf.
    destruct page_limit as [limit|] eqn:Hl.
    2:{ destruct Hc as [msg Hc]. by rewrite Hc in Hf. }
    destruct Hc as [Hpos Hc].
    destruct page_cursor as [cursor|] eqn:Hcur.
    2:{ destruct Hc as [msg Hc]. by rewrite Hc in Hf. }
    destruct (fetch_page E (w_store w) query limit cursor)
      as [[[rs nx] more]|e] eqn:Hp.
    2:{ destruct (exn_cls e); try (by rewrite Hc in Hf).
        destruct Hc as [msg Hc]. by rewrite Hc in Hf. }
    rewrite Hc in Hf. injection Hf as <- <- <-. split; [done|].
    exists limit, cursor. split; [done|]. split; [done|].
    destruct (fetch_page_more _ _ _ _ _ _ _ Hpos Hp) as (Hres & Hmore & Hnext).
    split; [done|]. split.
    + intros Hret. destruct more; [by apply Hnext in Hret|].
      symmetry in Hmore. apply bool_decide_eq_false in Hmore. lia.
    + intros Hlen. destruct more; [|done].
      symmetry in Hmore. apply bool_decide_eq_true in Hmore. lia.
  - intros limit cursor Hl Hmax Hcur Hshape. rewrite Hl, Hcur in Hc.
    destruct Hc as [_ Hc].
    destruct (fetch_page_Ok (w_store w) query limit cursor Hmax Hshape) as [page Hp].
    rewrite Hp in Hc. destruct page as [[rs nx] more]. by eauto.
Qed.

End FetchQuery.

(* ===================================================================== *)
(** * The permission gate (C4) *)
(* ===================================================================== *)

Section GateFacts.
Context (E : Env) (H : Self.handler) (R : request).

Lemma model_id_to_model_cases model_id w :
  (exists m, _model_id_to_model E H model_id w = (Ok m, w))
  \/ (exists msg, _model_id_to_model E H model_id w = (Raise (Exn RESTException msg), w)).
Proof.
  unfold _model_id_to_model.
  destruct (negb (truthy model_id)); [left; by eexists|].
  unfold try_except, bind, lift, ret, raise, key_get.
  destruct (model_use_input_id H).
  - destruct (key_of_id _ _) as [[k|]|]; [|right; by eexists..].
    destruct (w_store w !! k); [left|right]; by eexists.
  - destruct model_id; try (right; by eexists).
    destruct (key_from_urlsafe E s) as [k| |]; [|right; by eexists..].
    destruct (w_store w !! k); [left|right]; by eexists.
Qed.

Lemma denied_responses w :
  method_not_allowed E w = (Ok (Response 405 (VDict [])), w)
  /\ unauthorized E w = (Ok (Response 401 (VDict [])), w)
  /\ permission_denied E VNone w = (Ok (Response 403 (VDict [("reason", VNone)])), w).
Proof. done. Qed.

Lemma error_response e w :
  error E e w = (Ok (Response 400 (VDict [("error", VStr (exn_msg e))])), w).
Proof. done. Qed.

(** The wrapper answers a request by the first rule that applies: 405 when
    the method has no permission entry; 401 when the level needs a principal
    and there is none; 403 when the level is admin and the principal is not
    an admin; 400 when the path addresses an identifier that does not
    resolve; 403 when the level is owner_user and the resolved entity's
    owner is not the principal; otherwise the handler method runs on the
    target.  The hypotheses are that the admin flag of the principal and the
    owner of the addressed entity can be read, and that under owner_user the
    path is not the collection path with a trailing slash. *)
Theorem permission_gate_rules (func : option entity -> M pyval)
    (method_name model_id : string) (w : world) :
  let level := Dict.get method_name (Self.permissions H) in
  let t := addressed E H model_id w in
  (level = Some PERMISSION_ADMIN -> is_Some (user R) ->
   exists v, RESTHandlerClass.is_user_admin E R = Ok v) ->
  (level = Some PERMISSION_OWNER_USER -> is_Some (user R) ->
   match t with
   | Resolved e => exists b, RESTHandlerClass.not_owned E H R (Some e) = Ok b
   | NotAddressed => model_id = ""
   | Unresolved _ => True
   end) ->
  RESTHandlerClass.rest_method_wrapper E H R func method_name model_id w
  = respond E func t
      (gate_check level (has_principal R) (principal_is_admin E R) t
         (owner_differs E H R t)) w.
Proof.
  intros level t Hadmin Howner. subst level t.
  unfold RESTHandlerClass.rest_method_wrapper, gate_check, has_principal.
  destruct (Dict.get method_name (Self.permissions H)) as [p|]; [|done].
  destruct (RESTHandlerClass.requires_login p && _)%bool eqn:Hlogin; [done|].
  assert (p ≠ PERMISSION_ANYONE -> is_Some (user R)) as Huser.
  { intros Hp. apply andb_false_iff in Hlogin as [Hl|Hl]; [by destruct p|].
    apply negb_false_iff, bool_decide_eq_true in Hl. done. }
  unfold principal_is_admin.
  destruct (bool_decide (p = PERMISSION_ADMIN)) eqn:Hp.
  - apply bool_decide_eq_true in Hp as ->.
    destruct (Hadmin eq_refl (Huser ltac:(done))) as [v Hv]. rewrite Hv.
    unfold bind at 1. unfold bind at 1. unfold lift, ret. simpl.
    destruct (negb (truthy v)); [reflexivity|]. simpl.
    unfold addressed, except_RESTException, try_except, bind.
    destruct (String.eqb model_id ""); simpl; [reflexivity|].
    destruct (model_id_to_model_cases (path_id model_id) w) as [[m Hm]|[msg Hm]];
      unfold path_id in *; rewrite Hm; simpl; [|reflexivity].
    unfold ret. destruct m; reflexivity.
  - apply bool_decide_eq_false in Hp.
    unfold bind at 1. unfold ret at 1. simpl.
    unfold addressed, except_RESTException, try_except, bind.
    destruct (String.eqb model_id "") eqn:Hid; simpl.
    { rewrite andb_false_r. reflexivity. }
    apply String.eqb_neq in Hid.
    unfold addressed in Howner. rewrite (proj2 (String.eqb_neq _ _) Hid) in Howner.
    destruct (model_id_to_model_cases (path_id model_id) w) as [[m Hm]|[msg Hm]];
      unfold path_id in *; rewrite Hm in *; simpl in *; [|reflexivity].
    destruct (bool_decide (p = PERMISSION_OWNER_USER)) eqn:Hp'.
    + apply bool_decide_eq_true in Hp' as ->.
      specialize (Howner eq_refl (Huser ltac:(done))).
      destruct m as [e|]; [|done]. destruct Howner as [b Hb].
      simpl. unfold lift. rewrite Hb. destruct b; reflexivity.
    + unfold ret. destruct m; reflexivity.
Qed.

End GateFacts.

(** The wrapper at work: a path that resolves to an entity of another
    owner is refused under owner_user. *)
Lemma permission_gate_rules_witness :
  let H := Example.handler_with [("GET", PERMISSION_OWNER_USER)] in
  let R := Example.request_of (Some Example.eU) None in
  let func := RESTHandlerClass.get Example.env H R in
  RESTHandlerClass.rest_method_wrapper Example.env H R func "GET" "/k2" Example.w0
  = respond Example.env func (addressed Example.env H "/k2" Example.w0)
      (gate_check (Dict.get "GET" (Self.permissions H)) (has_principal R)
         (principal_is_admin Example.env R) (addressed Example.env H "/k2" Example.w0)
         (owner_differs Example.env H R (addressed Example.env H "/k2" Example.w0)))
      Example.w0.
Proof.
  apply (permission_gate_rules Example.env
           (Example.handler_with [("GET", PERMISSION_OWNER_USER)])
           (Example.request_of (Some Example.eU) None)).
  - intros [=].
  - intros _ _. vm_compute. eexists. reflexivity.
Defined.

(** C4 (a defect of the code).  A collection path that ends in a slash
    addresses no entity ([model_id] is ['/']), so no rule of the gate refuses
    the logged-in principal U and the request is to be allowed.  Under
    owner_user the wrapper instead runs the owner check on [None]: the
    request ends with an [AttributeError] that nothing catches, where under
    logged_in_user the same request is answered as the path without the
    slash is. *)
Lemma trailing_slash_under_owner_user :
  let R := Example.request_of (Some Example.eU) None in
  let H := Example.handler_with [("GET", PERMISSION_OWNER_USER)] in
  let H' := Example.handler_with [("GET", PERMISSION_LOGGED_IN_USER)] in
  fst (RESTHandlerClass.rest_method_wrapper Example.env H R
         (RESTHandlerClass.get Example.env H R) "GET" "/" Example.w0)
  = Raise (Exn AttributeError "owner")
  /\ fst (RESTHandlerClass.rest_method_wrapper Example.env H' R
            (RESTHandlerClass.get Example.env H' R) "GET" "/" Example.w0)
     = fst (RESTHandlerClass.rest_method_wrapper Example.env H' R
              (RESTHandlerClass.get Example.env H' R) "GET" "" Example.w0).
Proof. split; vm_compute; reflexivity. Qed.

(* ===================================================================== *)
(** * Facts on entity construction *)
(* ===================================================================== *)

Lemma bind_Ok {A B} (m : M A) (k : A -> M B) w b w' :
  bind m k w = (Ok b, w') -> exists a w1, m w = (Ok a, w1) /\ k a w1 = (Ok b, w').
Proof.
  unfold bind. destruct (m w) as [[a|e] w1]; [|done]. intros Hk. by exists a, w1.
Qed.

Lemma bind_Ok_intro {A B} (m : M A) (k : A -> M B) w a w1 :
  m w = (Ok a, w1) -> bind m k w = k a w1.
Proof. unfold bind. by intros ->. Qed.

Lemma bind_Raise_intro {A B} (m : M A) (k : A -> M B) w e w1 :
  m w = (Raise e, w1) -> bind m k w = (Raise e, w1).
Proof. unfold bind. by intros ->. Qed.

Lemma lift_Ok {A} (r : result A) w a w' :
  lift r w = (Ok a, w') -> r = Ok a /\ w' = w.
Proof. unfold lift. by intros [= -> ->]. Qed.

Lemma ret_Ok {A} (x : A) w a w' : ret x w = (Ok a, w') -> a = x /\ w' = w.
Proof. unfold ret. by intros [= -> ->]. Qed.

Lemma rbind_Ok {A B} (r : result A) (k : A -> result B) b :
  rbind r k = Ok b -> exists a, r = Ok a /\ k a = Ok b.
Proof. destruct r as [a|e]; [|done]. intros Hk. by exists a. Qed.

(** Inversion of a computation of the monad that returned. *)
Ltac inv_M :=
  repeat match goal with
  | Hb : bind _ _ _ = (Ok _, _) |- _ =>
      let a := fresh "a" in let w := fresh "w" in
      let H1 := fresh "Hm" in let H2 := fresh "Hk" in
      apply bind_Ok in Hb as (a & w & H1 & H2)
  | Hb : lift _ _ = (Ok _, _) |- _ =>
      let H1 := fresh "Hl" in apply lift_Ok in Hb as [H1 ->]
  | Hb : ret _ _ = (Ok _, _) |- _ => apply ret_Ok in Hb as [-> ->]
  | Hb : rbind _ _ = Ok _ |- _ =>
      let a := fresh "a" in
      let H1 := fresh "Hr" in let H2 := fresh "Hk" in
      apply rbind_Ok in Hb as (a & H1 & H2)
  end.

Lemma mapM_Ok_all {A B} (f : A -> M B) (l : list A) w l' w' y :
  mapM f l w = (Ok l', w') -> y ∈ l' -> exists x w1 w2, x ∈ l /\ f x w1 = (Ok y, w2).
Proof.
  revert w l' w'. induction l as [|a l IH]; intros w l' w' Hm Hy; simpl in Hm.
  - inv_M. by apply elem_of_nil in Hy.
  - unfold bind in Hm. destruct (f a w) as [[b|e] wa] eqn:Hf; [|done].
    destruct (mapM f l wa) as [[bs|e] wb] eqn:Hl; [|done].
    unfold ret in Hm. injection Hm as <- <-.
    apply elem_of_cons in Hy as [->|Hy].
    + exists a, w, wa. split; [by left|done].
    + destruct (IH _ _ _ Hl Hy) as (x & w2 & w3 & Hx & Hx').
      exists x, w2, w3. split; [by right|done].
Qed.

Module KeysFacts.
Import Dict DictFacts.

Lemma elem_of_keys_del {A} k k' (d : list (string * A)) :
  k' ∈ keys (del k d) <-> k' ≠ k /\ k' ∈ keys d.
Proof.
  split.
  - intros Hin. destruct (get k' (del k d)) as [v|] eqn:Hg.
    + rewrite get_del in Hg. destruct (String.eqb k' k) eqn:Hk; [done|].
      apply String.eqb_neq in Hk. split; [done|]. by eapply get_Some_in.
    + by apply get_None_not_in in Hg.
  - intros [Hne Hin]. destruct (get k' (del k d)) as [v|] eqn:Hg.
    + by eapply get_Some_in.
    + rewrite get_del_ne in Hg by done. by apply get_None_not_in in Hg.
Qed.

Lemma elem_of_keys_set {A} k k' (v : A) d :
  k' ∈ keys (set k v d) <-> k' = k \/ k' ∈ keys d.
Proof.
  split.
  - intros Hin. destruct (decide (k' = k)) as [|Hne]; [by left|right].
    destruct (get k' d) as [x|] eqn:Hg; [by eapply get_Some_in|].
    rewrite <- (get_set_ne k k' v) in Hg by done.
    by apply get_None_not_in in Hg.
  - intros [->|Hin].
    + eapply get_Some_in, get_set_eq.
    + destruct (get k' (set k v d)) as [x|] eqn:Hg; [by eapply get_Some_in|].
      rewrite get_set in Hg. destruct (String.eqb k' k); [done|].
      by apply get_None_not_in in Hg.
Qed.

Lemma NoDup_keys_del {A} k (d : list (string * A)) :
  NoDup (keys d) -> NoDup (keys (del k d)).
Proof.
  induction d as [|[k' v'] d IH]; simpl; [done|].
  intros [Hnin Hnd]%NoDup_cons. destruct (String.eqb k k'); [by apply IH|].
  simpl. apply NoDup_cons. split; [|by apply IH].
  intros Hin. apply elem_of_keys_del in Hin. tauto.
Qed.

Lemma NoDup_keys_set {A} k (v : A) d :
  NoDup (keys d) -> NoDup (keys (set k v d)).
Proof.
  induction d as [|[k' v'] d IH]; simpl.
  - intros _. apply NoDup_singleton.
  - intros [Hnin Hnd]%NoDup_cons. destruct (String.eqb k k') eqn:Hk; simpl.
    + apply NoDup_cons. split; [|by apply NoDup_keys_del].
      intros Hin. apply elem_of_keys_del in Hin. tauto.
    + apply String.eqb_neq in Hk. apply NoDup_cons. split; [|by apply IH].
      intros Hin. apply elem_of_keys_set in Hin as [->|Hin]; done.
Qed.

Lemma NoDup_keys_filter {A} p (d : list (string * A)) :
  NoDup (keys d) -> NoDup (keys (filter_keys p d)).
Proof.
  unfold filter_keys.
  induction d as [|[k' v'] d IH]; simpl; [done|].
  intros [Hnin Hnd]%NoDup_cons. destruct (p k'); [|by apply IH].
  simpl. apply NoDup_cons. split; [|by apply IH].
  intros Hin. apply Hnin.
  destruct (get k' (List.filter (fun kv => p kv.1) d)) as [x|] eqn:Hg.
  - pose proof (get_filter_keys p k' d) as Hf. unfold filter_keys in Hf.
    rewrite Hg in Hf. destruct (p k'); [|done]. symmetry in Hf.
    by eapply get_Some_in.
  - by apply get_None_not_in in Hg.
Qed.

End KeysFacts.

Section SetAttributes.
Context (E : Env).
Import Dict DictFacts KeysFacts.

Lemma class_getattr_property cls name prop :
  class_getattr E cls name = Some (AttrProperty prop) <->
  get name (_properties cls) = Some prop.
Proof.
  unfold class_getattr. destruct (get name (_properties cls)) as [p|].
  - split; by intros [= ->].
  - destruct (is_key_name name); [done|]. by destruct (other_attribute E cls name).
Qed.

(** What [_set_attributes] leaves in the values: the keyword arguments over
    the former values. *)
Lemma set_attributes_lookup cls kwds values values' :
  _set_attributes E cls kwds values = Ok values' ->
  NoDup (keys kwds) ->
  forall name,
    get name values' =
    match get name kwds with Some v => Some v | None => get name values end.
Proof.
  revert values. induction kwds as [|[n v] kwds IH]; simpl; intros values.
  - by intros [= ->].
  - destruct (class_getattr E cls n) as [[prop| |]|]; try done.
    destruct (validate E prop v); [|done].
    intros Hset [Hnin Hnd]%NoDup_cons name.
    rewrite (IH _ Hset Hnd name).
    destruct (String.eqb name n) eqn:Hn.
    + apply String.eqb_eq in Hn as ->.
      apply get_None_not_in in Hnin. rewrite Hnin. apply get_set_eq.
    + apply String.eqb_neq in Hn.
      destruct (get name kwds); [done|]. by apply get_set_ne.
Qed.

(** Every keyword argument of a successful [_set_attributes] names a
    property of the class and passed its validation. *)
Lemma set_attributes_valid cls kwds values values' :
  _set_attributes E cls kwds values = Ok values' ->
  forall name v, (name, v) ∈ kwds ->
    exists prop, get name (_properties cls) = Some prop /\ validate E prop v = true.
Proof.
  revert values. induction kwds as [|[n x] kwds IH]; simpl; intros values.
  - intros _ name v Hin. by apply elem_of_nil in Hin.
  - destruct (class_getattr E cls n) as [[prop| |]|] eqn:Hp; try done.
    apply class_getattr_property in Hp.
    destruct (validate E prop x) eqn:Hv; [|done].
    intros Hset name v [[= -> ->]|Hin]%elem_of_cons; [by exists prop|].
    by eapply IH.
Qed.

Lemma del_absent {A} k (d : list (string * A)) : get k d = None -> del k d = d.
Proof.
  induction d as [|[k' v] d IH]; simpl; [done|].
  destruct (String.eqb k k'); [done|]. intros Hg. by rewrite IH.
Qed.

(** A constructor keyword is taken out of the keywords only when it names
    no property. *)
Lemma get_arg_cases cls kwds kwd :
  _get_arg cls kwds kwd = (None, kwds)
  \/ exists name, has name (_properties cls) = false /\ has name kwds = true
                  /\ (name = kwd \/ name = "_" ++ kwd)
                  /\ _get_arg cls kwds kwd = (get name kwds, del name kwds).
Proof.
  unfold _get_arg.
  destruct (has ("_" ++ kwd) kwds) eqn:Ha; simpl.
  - destruct (has ("_" ++ kwd) (_properties cls)) eqn:Hp; simpl.
    + destruct (has kwd kwds) eqn:Hk; simpl; [|by left].
      destruct (has kwd (_properties cls)) eqn:Hq; simpl; [by left|].
      right. exists kwd. by eauto.
    + right. exists ("_" ++ kwd). by eauto.
  - destruct (has kwd kwds) eqn:Hk; simpl; [|by left].
    destruct (has kwd (_properties cls)) eqn:Hq; simpl; [by left|].
    right. exists kwd. by eauto.
Qed.

Lemma get_arg_keeps cls kwds kwd v kwds' :
  _get_arg cls kwds kwd = (v, kwds') ->
  (forall name, has name (_properties cls) = true -> get name kwds' = get name kwds)
  /\ (NoDup (keys kwds) -> NoDup (keys kwds'))
  /\ (forall name, name ∈ keys kwds' -> name ∈ keys kwds).
Proof.
  destruct (get_arg_cases cls kwds kwd) as [->|(n & Hn & _ & _ & ->)].
  - by intros [= <- <-].
  - intros [= <- <-]. split; [|split].
    + intros name Hname. apply get_del_ne. intros ->. congruence.
    + apply NoDup_keys_del.
    + intros name Hin. apply elem_of_keys_del in Hin. tauto.
Qed.

(** The constructor on keywords that all name properties: no key. *)
Lemma construct_properties cls kwds :
  (forall name, name ∈ keys kwds -> has name (_properties cls) = true) ->
  construct E cls kwds
  = rbind (_set_attributes E cls kwds []) (fun values => Ok (Entity cls None values)).
Proof.
  intros Hall.
  assert (forall kwd, _get_arg cls kwds kwd = (None, kwds)) as Hnone.
  { intros kwd. destruct (get_arg_cases cls kwds kwd) as [->|(n & Hn & Hk & _ & _)];
      [done|].
    unfold has in Hk. destruct (get n kwds) as [x|] eqn:Hg; [|done].
    apply get_Some_in, Hall in Hg. congruence. }
  unfold construct. by rewrite !Hnone.
Qed.

(** The constructor on keywords that name properties, and [id]: the key is
    the one the identifier names. *)
Lemma construct_with_id cls kwds :
  (forall name, name ∈ keys kwds -> has name (_properties cls) = true \/ name = "id") ->
  has "id" (_properties cls) = false ->
  construct E cls kwds
  = rbind (match get "id" kwds with
           | Some v => key_of_id (cls_kind cls) v
           | None => Ok None
           end) (fun key =>
    rbind (_set_attributes E cls (del "id" kwds) []) (fun values =>
    Ok (Entity cls key values))).
Proof.
  intros Hall Hid.
  assert (forall kwd kwds0,
            (forall name, name ∈ keys kwds0 ->
               has name (_properties cls) = true \/ name = "id") ->
            kwd ≠ "id" -> _get_arg cls kwds0 kwd = (None, kwds0)) as Hnone.
  { intros kwd kwds0 Hall0 Hne.
    destruct (get_arg_cases cls kwds0 kwd) as [->|(n & Hn & Hk & Hname & _)]; [done|].
    unfold has in Hk. destruct (get n kwds0) as [x|] eqn:Hg; [|done].
    apply get_Some_in, Hall0 in Hg as [Hg| ->]; [congruence|].
    destruct Hname as [<-|Hname]; [done|]. discriminate Hname. }
  unfold construct. rewrite (Hnone "key" kwds Hall) by done.
  destruct (get_arg_cases cls kwds "id") as [Hg|(n & Hn & Hk & Hname & Hg)];
    rewrite Hg.
  - assert (get "id" kwds = None) as Hno.
    { destruct (get "id" kwds) as [x|] eqn:Hx; [|done].
      unfold _get_arg in Hg. unfold has in Hg. rewrite Hx in Hg. simpl in Hg.
      unfold has in Hid. destruct (get "id" (_properties cls)); [done|].
      destruct (get ("_" ++ "id") kwds) as [y|]; simpl in Hg;
        [destruct (get ("_" ++ "id") (_properties cls)); simpl in Hg|];
        by inversion Hg. }
    rewrite Hno, (del_absent _ _ Hno). done.
  - assert (n = "id") as ->.
    { destruct Hname as [-> | ->]; [done|].
      unfold has in Hk. destruct (get ("_" ++ "id") kwds) as [x|] eqn:Hx; [|done].
      apply get_Some_in, Hall in Hx as [Hx|Hx]; [congruence|discriminate Hx]. }
    unfold has in Hk. destruct (get "id" kwds) as [v|]; [|done]. simpl.
    by destruct v.
Qed.

End SetAttributes.

Section BuildFacts.
Context (E : Env) (user : option entity).
Import Dict DictFacts KeysFacts.

Lemma build_unfold cls data model :
  _build_model_from_data E user cls data model
  = (let! data := translate_property_names data cls Input in
     let! input_properties :=
       collect_input_properties (_value_to_property E user) data (_properties cls) [] in
     let! input_properties :=
       take_input_id (cls_RESTMeta cls) model data input_properties in
     let input_properties :=
       filter_keys (in_set (get_included_properties cls Input)) input_properties in
     let input_properties :=
       set_user_owner (cls_RESTMeta cls) model user input_properties in
     let! model := lift (create_or_update E cls model input_properties) in
     ret (model, data))%py.
Proof. by destruct cls. Qed.

Lemma translate_step_dict dir d entry :
  translate_step dir (VDict d) entry
  = Ok (VDict (rename_key (step_src dir entry) (step_dst dir entry) d)).
Proof.
  unfold translate_step, rename_key, step_src, step_dst.
  destruct dir; simpl; unfold has; by destruct (get _ d).
Qed.

Lemma translate_loop_dict dir table d :
  translate_loop dir table (VDict d) = Ok (VDict (rename_all dir table d)).
Proof.
  revert d. induction table as [|entry table IH]; intros d; simpl; [done|].
  rewrite translate_step_dict. simpl. apply IH.
Qed.

Lemma translate_property_names_eq data cls dir w :
  translate_property_names data cls dir w
  = (translate_loop dir (effective_table cls dir w) data, tables_after cls dir w).
Proof.
  unfold translate_property_names, tables_after, effective_table.
  destruct (cls_RESTMeta cls) as [m|]; [|done].
  unfold bind, get_world, put_world, lift, ret.
  by destruct (w_tables w !! cls_kind cls).
Qed.

Section Collect.
Context (convert : property -> pyval -> M pyval) (data : pyval).

Lemma collect_NoDup props acc w ip w' :
  collect_input_properties convert data props acc w = (Ok ip, w') ->
  NoDup (keys acc) -> NoDup (keys ip).
Proof.
  revert acc w. induction props as [|[n p] props IH]; simpl; intros acc w Hc Hnd.
  - inv_M. done.
  - inv_M. destruct (negb a); [by eapply IH|].
    inv_M. eapply IH; [done|]. by apply NoDup_keys_set.
Qed.

(** A name that is no property, or that the data does not hold, is not
    written. *)
Lemma collect_frame props acc w ip w' name :
  collect_input_properties convert data props acc w = (Ok ip, w') ->
  (name ∈ keys props -> py_contains name data = Ok false) ->
  get name ip = get name acc.
Proof.
  revert acc w. induction props as [|[n p] props IH]; simpl; intros acc w Hc Hname.
  - inv_M. done.
  - inv_M. destruct (negb a) eqn:Ha.
    + eapply IH; [done|]. intros Hin. apply Hname. by right.
    + inv_M. erewrite IH; [|done|].
      * apply get_set_ne. intros ->.
        rewrite Hname in Hl by (by left). injection Hl as <-. done.
      * intros Hin. apply Hname. by right.
Qed.

(** A property that the data holds is written, with the conversion of the
    value the data holds for it. *)
Lemma collect_named props acc w ip w' name :
  collect_input_properties convert data props acc w = (Ok ip, w') ->
  name ∈ keys props ->
  py_contains name data = Ok true ->
  exists prop raw w1 v w2,
    (name, prop) ∈ props /\ py_getitem data name = Ok raw
    /\ convert_input convert prop raw w1 = (Ok v, w2)
    /\ get name ip = Some v.
Proof.
  revert acc w. induction props as [|[n p] props IH]; simpl; intros acc w Hc Hin Hhas.
  - by apply elem_of_nil in Hin.
  - inv_M. destruct (decide (name ∈ keys props)) as [Hin'|Hnin].
    + assert (exists acc' w0, collect_input_properties convert data props acc' w0
                              = (Ok ip, w')) as (acc' & w0 & Hc').
      { destruct (negb a); [by eauto|]. inv_M. eauto. }
      destruct (IH _ _ Hc' Hin' Hhas) as (prop & raw & w1 & v & w2 & Hp & Hraw & Hconv & Hget).
      exists prop, raw, w1, v, w2. repeat split; try done. by right.
    + apply elem_of_cons in Hin as [->|Hin]; [|done].
      rewrite Hhas in Hl. injection Hl as <-. simpl in Hk. inv_M.
      exists p, a, w, a0, w1. repeat split; try done; [by left|].
      erewrite collect_frame; [|done|done]. apply get_set_eq.
Qed.

(** Only properties of the class are written. *)
Lemma collect_keys props acc w ip w' name :
  collect_input_properties convert data props acc w = (Ok ip, w') ->
  name ∈ keys ip -> name ∈ keys props \/ name ∈ keys acc.
Proof.
  intros Hc Hin. destruct (decide (name ∈ keys props)) as [|Hnin]; [by left|right].
  destruct (get name ip) as [v|] eqn:Hg.
  - erewrite collect_frame in Hg; [|done|done]. by eapply get_Some_in.
  - by apply get_None_not_in in Hg.
Qed.

End Collect.

Lemma take_input_id_cases meta model data ip w ip' w' :
  take_input_id meta model data ip w = (Ok ip', w') ->
  w' = w /\
  (ip' = ip \/
   exists m id, model = None /\ meta = Some m /\ use_input_id m = true
                /\ py_getitem data "id" = Ok id /\ ip' = set "id" id ip).
Proof.
  unfold take_input_id. destruct model; [intros; inv_M; auto|].
  destruct meta as [m|]; [|intros; inv_M; auto].
  destruct (use_input_id m) eqn:Hu; [|intros; inv_M; auto].
  intros Ht. inv_M. destruct (negb a); [done|]. inv_M.
  split; [done|]. right. by exists m, a0.
Qed.

Lemma build_inv cls data model w built w' :
  _build_model_from_data E user cls data model w = (Ok built, w') ->
  exists collected ip w1,
    translate_loop Input (effective_table cls Input w) data = Ok (snd built)
    /\ collect_input_properties (_value_to_property E user) (snd built)
         (_properties cls) [] (tables_after cls Input w) = (Ok collected, w1)
    /\ take_input_id (cls_RESTMeta cls) model (snd built) collected w1 = (Ok ip, w')
    /\ create_or_update E cls model
         (set_user_owner (cls_RESTMeta cls) model user
            (filter_keys (in_set (get_included_properties cls Input)) ip))
       = Ok (fst built).
Proof.
  rewrite build_unfold. intros Hb. inv_M.
  rewrite translate_property_names_eq in Hm. injection Hm as Ht <-.
  cbv zeta in Hk. inv_M. simpl. eauto 10.
Qed.

End BuildFacts.

Section UpdateFacts.
Context (E : Env) (user : option entity).
Import Dict DictFacts KeysFacts.

(** The values of a newly constructed instance: what the keywords give for
    the properties of the class, and nothing else. *)
Lemma construct_lookup cls kwds e :
  construct E cls kwds = Ok e ->
  NoDup (keys kwds) ->
  e_cls e = cls
  /\ forall name,
       get name (e_values e)
       = if has name (_properties cls) then get name kwds else None.
Proof.
  unfold construct.
  destruct (_get_arg cls kwds "key") as [key kwds1] eqn:H1.
  destruct (_get_arg cls kwds1 "id") as [id kwds2] eqn:H2.
  intros Hc Hnd. inv_M. injection Hk0 as <-. split; [done|].
  apply get_arg_keeps in H1 as (K1 & N1 & _), H2 as (K2 & N2 & _).
  intros name. simpl.
  rewrite (set_attributes_lookup E _ _ _ _ Hr0) by (by apply N2, N1).
  destruct (has name (_properties cls)) eqn:Hp.
  - rewrite (K2 name Hp), (K1 name Hp). by destruct (get name kwds).
  - destruct (get name kwds2) as [v|] eqn:Hg; [|done]. exfalso.
    apply get_elem in Hg.
    destruct (set_attributes_valid E _ _ _ _ Hr0 name v Hg) as (prop & Hprop & _).
    unfold has in Hp. by rewrite Hprop in Hp.
Qed.

Lemma populate_inv m kwds e :
  populate E m kwds = Ok e ->
  exists values,
    e = Entity (e_cls m) (e_key m) values
    /\ _set_attributes E (e_cls m) kwds (e_values m) = Ok values.
Proof. unfold populate. intros Hc. inv_M. injection Hk as <-. eauto. Qed.

Lemma set_user_owner_update meta m ip :
  set_user_owner meta (Some m) user ip = ip.
Proof.
  unfold set_user_owner. destruct meta as [mt|]; [|done].
  by destruct (user_owner_property mt).
Qed.

Lemma take_input_id_NoDup meta model data ip w ip' w' :
  take_input_id meta model data ip w = (Ok ip', w') ->
  NoDup (keys ip) -> NoDup (keys ip').
Proof.
  intros Htake Hnd.
  apply take_input_id_cases in Htake as [_ [->|(? & ? & _ & _ & _ & _ & ->)]];
    [done|by apply NoDup_keys_set].
Qed.

(** The ownership injection on creation: whatever the data holds for the
    owner property, the new instance holds the key of the current user. *)
Lemma build_create_owner cls m o u data w built w' :
  cls_RESTMeta cls = Some m -> user_owner_property m = Some o ->
  o ∈ keys (_properties cls) ->
  user = Some u ->
  _build_model_from_data E user cls data None w = (Ok built, w') ->
  get o (e_values (fst built)) = Some (key_value (e_key u)).
Proof.
  intros Hmeta Howner Hprop -> Hb.
  apply build_inv in Hb as (collected & ip & w1 & _ & Hcol & Htake & Hcreate).
  simpl in Hcreate. unfold set_user_owner in Hcreate. rewrite Hmeta, Howner in Hcreate.
  assert (NoDup (keys ip)) as Hnd.
  { eapply take_input_id_NoDup; [exact Htake|].
    eapply collect_NoDup; [exact Hcol|]. apply NoDup_nil_2. }
  apply construct_lookup in Hcreate as [_ Hget];
    [|by apply NoDup_keys_set, NoDup_keys_filter].
  rewrite Hget, get_set_eq.
  assert (has o (_properties cls) = true) as ->; [|done].
  unfold has. destruct (get o (_properties cls)) eqn:Hg; [done|].
  by apply get_None_not_in in Hg.
Qed.

(** An update writes the named and accepted properties over the values of
    the existing instance, and nothing else. *)
Lemma build_update_lookup cls m data w built w' name :
  _build_model_from_data E user cls data (Some m) w = (Ok built, w') ->
  e_cls (fst built) = e_cls m /\ e_key (fst built) = e_key m
  /\ ((py_contains name (snd built) = Ok false
       \/ name ∉ get_included_properties cls Input
       \/ name ∉ keys (_properties cls)) ->
      get name (e_values (fst built)) = get name (e_values m))
  /\ (py_contains name (snd built) = Ok true ->
      name ∈ get_included_properties cls Input ->
      name ∈ keys (_properties cls) ->
      exists prop raw w1 v w2,
        (name, prop) ∈ _properties cls
        /\ py_getitem (snd built) name = Ok raw
        /\ convert_input (_value_to_property E user) prop raw w1 = (Ok v, w2)
        /\ get name (e_values (fst built)) = Some v).
Proof.
  intros Hb.
  apply build_inv in Hb as (collected & ip & w1 & _ & Hcol & Htake & Hcreate).
  simpl in Hcreate. rewrite set_user_owner_update in Hcreate.
  apply populate_inv in Hcreate as (values & -> & Hset). simpl.
  apply take_input_id_cases in Htake as [-> [->|(? & ? & [=] & _)]].
  pose proof (collect_NoDup _ _ _ _ _ _ _ Hcol (NoDup_nil_2)) as Hnd.
  pose proof (set_attributes_lookup E _ _ _ _ Hset (NoDup_keys_filter _ _ Hnd) name) as Hget.
  rewrite get_filter_keys in Hget. unfold in_set in Hget.
  split; [done|]. split; [done|]. split.
  - intros Hnot. rewrite Hget.
    destruct (bool_decide _) eqn:Hin; [|done].
    apply bool_decide_eq_true in Hin.
    rewrite (collect_frame _ _ _ _ _ _ _ name Hcol); [done|].
    intros Hprop. destruct Hnot as [Hc|[Hi|Hp]]; done.
  - intros Hc Hin Hprop.
    destruct (collect_named _ _ _ _ _ _ _ name Hcol Hprop Hc)
      as (prop & raw & w2 & v & w3 & Hp & Hraw & Hconv & Hg).
    exists prop, raw, w2, v, w3. repeat split; try done.
    by rewrite Hget, bool_decide_eq_true_2, Hg.
Qed.

Lemma wrap_exception_Ok {A} prefix (m : M A) w a w' :
  RESTHandlerClass.wrap_exception prefix m w = (Ok a, w') -> m w = (Ok a, w').
Proof.
  unfold RESTHandlerClass.wrap_exception, try_except.
  by destruct (m w) as [[x|e] w1].
Qed.

Lemma model_put_inv e w e' w' :
  model_put E e w = (Ok e', w') ->
  exists k, e' = Entity (e_cls e) (Some k) (e_values e)
            /\ (forall k0, e_key e = Some k0 -> k = k0)
            /\ w' = MkWorld (<[k := e']> (w_store w)) (w_tables w).
Proof.
  unfold model_put. destruct (put_error E e); [done|].
  intros [= <- <-]. eexists. split; [done|]. split; [|done].
  by intros k0 ->.
Qed.

End UpdateFacts.

(* ===================================================================== *)
(** * Single PUT: update, not replacement (C8) *)
(* ===================================================================== *)

Section Put.
Context (E : Env) (H : Self.handler) (R : request).
Import Dict.

(** C8 (as amended).  A single PUT without a callback that succeeds persists
    the resolved entity with: every property that the payload (after the
    input name translation) does not name, or names without it being accepted
    as input, at its prior value; and every named and accepted property at
    the conversion of the payload's value. *)
Theorem put_updates_in_place (m : entity) (w : world) (v : pyval) (w' : world) :
  Self.put_callback H = None ->
  RESTHandlerClass.put E H R (Some m) w = (Ok v, w') ->
  exists m' json payload k,
    v = VModel m'
    /\ body R = Some json
    /\ translate_loop Input (effective_table (Self.model H) Input w) json = Ok payload
    /\ e_key m' = Some k /\ w_store w' !! k = Some m'
    /\ (forall name,
          py_contains name payload = Ok false
          \/ name ∉ get_included_properties (Self.model H) Input
          \/ name ∉ keys (_properties (Self.model H)) ->
          get name (e_values m') = get name (e_values m))
    /\ (forall name,
          py_contains name payload = Ok true ->
          name ∈ get_included_properties (Self.model H) Input ->
          name ∈ keys (_properties (Self.model H)) ->
          exists prop raw w1 x w2,
            (name, prop) ∈ _properties (Self.model H)
            /\ py_getitem payload name = Ok raw
            /\ convert_input (_value_to_property E (user R)) prop raw w1 = (Ok x, w2)
            /\ get name (e_values m') = Some x).
Proof.
  intros Hcb. unfold RESTHandlerClass.put. rewrite Hcb.
  destruct (body R) as [json|]; [|done].
  intros Hput. inv_M. apply wrap_exception_Ok in Hm. inv_M.
  apply model_put_inv in Hk0 as (k & -> & _ & ->).
  destruct a0 as [m' payload]. simpl in *.
  pose proof (build_inv _ _ _ _ _ _ _ _ Hm0) as (_ & _ & _ & Ht & _).
  exists (Entity (e_cls m') (Some k) (e_values m')), json, payload, k.
  repeat split; try done.
  - simpl. apply lookup_insert_eq.
  - intros name Hname. simpl.
    by apply (build_update_lookup _ _ _ _ _ _ _ _ name Hm0).
  - intros name Hc Hin Hp. simpl.
    by apply (build_update_lookup _ _ _ _ _ _ _ _ name Hm0).
Qed.

End Put.

(** A PUT of [{"count": 7}] on an entity with a name and an owner: the
    count is written, the name and the owner stay. *)
Lemma put_updates_in_place_witness :
  let H := Example.handler_with [("PUT", PERMISSION_OWNER_USER)] in
  let R := Example.request_of (Some Example.eU) (Some (VDict [("count", VInt 7)])) in
  let done := RESTHandlerClass.put Example.env H R (Some Example.m1) Example.w0 in
  exists m' json payload k,
    VModel (Entity Example.MyModel (Some Example.k1)
              [("name", VStr "a"); ("owner", VKey Example.kU); ("count", VInt 7)])
    = VModel m'
    /\ body R = Some json
    /\ translate_loop Input (effective_table (Self.model H) Input Example.w0) json
       = Ok payload
    /\ e_key m' = Some k /\ w_store (snd done) !! k = Some m'
    /\ (forall name,
          py_contains name payload = Ok false
          \/ name ∉ get_included_properties (Self.model H) Input
          \/ name ∉ Dict.keys (_properties (Self.model H)) ->
          Dict.get name (e_values m') = Dict.get name (e_values Example.m1))
    /\ (forall name,
          py_contains name payload = Ok true ->
          name ∈ get_included_properties (Self.model H) Input ->
          name ∈ Dict.keys (_properties (Self.model H)) ->
          exists prop raw w1 x w2,
            (name, prop) ∈ _properties (Self.model H)
            /\ py_getitem payload name = Ok raw
            /\ convert_input (_value_to_property Example.env (user R)) prop raw w1
               = (Ok x, w2)
            /\ Dict.get name (e_values m') = Some x).
Proof.
  apply (put_updates_in_place Example.env
           (Example.handler_with [("PUT", PERMISSION_OWNER_USER)])
           (Example.request_of (Some Example.eU) (Some (VDict [("count", VInt 7)])))
           Example.m1 Example.w0).
  - reflexivity.
  - vm_compute. reflexivity.
Defined.

(** The claim as stated fails where the model excludes a property from the
    input: the payload names [name] with ["x"], which converts to itself, the
    PUT succeeds, and the stored name is still ["a"]. *)
Lemma put_keeps_excluded_named_property :
  let R := Example.request_of None (Some (VDict [("name", VStr "x")])) in
  let done := RESTHandlerClass.put Example.env Example.note_handler R
                (Some Example.n1) Example.wN in
  py_getitem (VDict [("name", VStr "x")]) "name" = Ok (VStr "x")
  /\ fst (convert_input (_value_to_property Example.env None)
            (Property GenericProperty false) (VStr "x") Example.wN) = Ok (VStr "x")
  /\ fst done = Ok (VModel Example.n1)
  /\ w_store (snd done) !! Example.kN = Some Example.n1
  /\ Dict.get "name" (e_values Example.n1) = Some (VStr "a")
  /\ Dict.get "name" (e_values Example.n1) ≠ Some (VStr "x").
Proof. repeat split; try (vm_compute; reflexivity). done. Qed.

(* ===================================================================== *)
(** * Ownership injection (C3) *)
(* ===================================================================== *)

Section Ownership.
Context (E : Env).
Import Dict DictFacts KeysFacts.

Lemma elem_of_keys_has {A} name (d : list (string * A)) :
  name ∈ keys d -> has name d = true.
Proof.
  intros Hin. unfold has. destruct (get name d) eqn:Hg; [done|].
  by apply get_None_not_in in Hg.
Qed.

Lemma build_update_owner user cls o existing data w built w' :
  o ∈ keys (_properties cls) ->
  _build_model_from_data E user cls data (Some existing) w = (Ok built, w') ->
  owner_after_update E user cls o existing (fst built) (snd built).
Proof.
  intros Hprop Hb.
  pose proof (build_update_lookup _ _ _ _ _ _ _ _ o Hb) as (_ & _ & Hframe & Hnamed).
  split.
  - intros Hnot. apply Hframe. tauto.
  - intros Hc Hin. by apply Hnamed.
Qed.

(** The value a creation gives a property that the payload names and the
    projection accepts: the conversion of the payload's value. *)
Lemma build_create_named user cls data w built w' name :
  _build_model_from_data E user cls data None w = (Ok built, w') ->
  name ∈ keys (_properties cls) -> name ≠ "id" ->
  (forall m, cls_RESTMeta cls = Some m -> user_owner_property m ≠ Some name) ->
  py_contains name (snd built) = Ok true ->
  name ∈ get_included_properties cls Input ->
  exists prop raw w1 v w2,
    (name, prop) ∈ _properties cls
    /\ py_getitem (snd built) name = Ok raw
    /\ convert_input (_value_to_property E user) prop raw w1 = (Ok v, w2)
    /\ get name (e_values (fst built)) = Some v.
Proof.
  intros Hb Hprop Hid Hown Hhas Hincl.
  apply build_inv in Hb as (collected & ip & w1 & _ & Hcol & Htake & Hcreate).
  destruct (collect_named _ _ _ _ _ _ _ name Hcol Hprop Hhas)
    as (prop & raw & w2 & v & w3 & Hp & Hraw & Hconv & Hget).
  exists prop, raw, w2, v, w3. repeat split; try done.
  assert (NoDup (keys ip)) as Hnd.
  { eapply take_input_id_NoDup; [exact Htake|].
    eapply collect_NoDup; [exact Hcol|]. apply NoDup_nil_2. }
  assert (get name ip = Some v) as Hip.
  { apply take_input_id_cases in Htake as [_ [->|(? & ? & _ & _ & _ & _ & ->)]];
      [done|]. by rewrite get_set_ne. }
  simpl in Hcreate.
  set (kwds := set_user_owner _ _ _ _) in Hcreate.
  assert (get name kwds = Some v /\ NoDup (keys kwds)) as [Hk Hndk].
  { unfold kwds, set_user_owner.
    assert (get name (filter_keys (in_set (get_included_properties cls Input)) ip)
            = Some v) as Hf.
    { rewrite get_filter_keys. unfold in_set. by rewrite bool_decide_eq_true_2. }
    pose proof (NoDup_keys_filter (in_set (get_included_properties cls Input)) ip Hnd)
      as Hndf.
    destruct (cls_RESTMeta cls) as [m|] eqn:Hm; [|done].
    destruct (user_owner_property m) as [o|] eqn:Ho; [|done].
    destruct user as [u|]; [|done]. split; [|by apply NoDup_keys_set].
    rewrite get_set_ne; [done|]. intros ->. by apply (Hown m). }
  apply construct_lookup in Hcreate as [_ Hlook]; [|done].
  by rewrite Hlook, (elem_of_keys_has _ _ Hprop).
Qed.

(** C3 (as amended).  For a model class that declares an owner property and
    a logged-in principal: a newly constructed instance holds the principal's
    key as owner whatever the payload gives for it; an update of an existing
    instance injects nothing (the owner after it is the conversion of the
    payload's value when the payload names the owner and the property is
    accepted as input, and the prior owner otherwise); and in the
    construction of a new instance of any class, every structured property
    of the owned class that the payload gives holds instances that the
    principal owns. *)
Theorem ownership_injection (cls : model_class) (m : RESTMeta) (o : string)
    (u : entity) :
  cls_RESTMeta cls = Some m -> user_owner_property m = Some o ->
  o ∈ keys (_properties cls) ->
  (forall data w built w',
      _build_model_from_data E (Some u) cls data None w = (Ok built, w') ->
      get o (e_values (fst built)) = Some (key_value (e_key u)))
  /\ (forall existing data w built w',
      _build_model_from_data E (Some u) cls data (Some existing) w = (Ok built, w') ->
      owner_after_update E (Some u) cls o existing (fst built) (snd built))
  /\ (forall parent name repeated data w built w',
      NoDup (keys (_properties parent)) ->
      (name, Property (StructuredProperty cls) repeated) ∈ _properties parent ->
      name ≠ "id" ->
      (forall mp, cls_RESTMeta parent = Some mp -> user_owner_property mp ≠ Some name) ->
      _build_model_from_data E (Some u) parent data None w = (Ok built, w') ->
      py_contains name (snd built) = Ok true ->
      name ∈ get_included_properties parent Input ->
      exists v, get name (e_values (fst built)) = Some v
                /\ nested_owned o u repeated v).
Proof.
  intros Hmeta Howner Hprop. split; [|split].
  - intros data w built w' Hb. by eapply build_create_owner.
  - intros existing data w built w' Hb. by eapply build_update_owner.
  - intros parent name repeated data w built w' Hnd Hin Hid Hpo Hb Hhas Hincl.
    assert (name ∈ keys (_properties parent)) as Hname.
    { apply list_elem_of_In, in_map_iff.
      exists (name, Property (StructuredProperty cls) repeated).
      split; [done|]. by apply list_elem_of_In. }
    destruct (build_create_named (Some u) parent data w built w' name Hb Hname Hid Hpo
                Hhas Hincl) as (prop & raw & w1 & v & w2 & Hp & _ & Hconv & Hget).
    assert (prop = Property (StructuredProperty cls) repeated) as ->.
    { apply (elem_get _ _ _ Hnd) in Hp, Hin. congruence. }
    exists v. split; [done|].
    assert (forall x wa y wb,
              _value_to_property E (Some u)
                (Property (StructuredProperty cls) repeated) x wa = (Ok y, wb) ->
              exists e, y = VModel e
                        /\ get o (e_values e) = Some (key_value (e_key u))) as Hone.
    { intros x wa y wb Hv. simpl in Hv. inv_M.
      exists (fst a). split; [done|]. by eapply build_create_owner. }
    unfold convert_input in Hconv. simpl in Hconv. unfold nested_owned.
    destruct repeated.
    + inv_M. eexists. split; [done|]. intros y Hy.
      match goal with
      | Hm : mapM _ _ _ = _ |- _ =>
          destruct (mapM_Ok_all _ _ _ _ _ y Hm Hy) as (x & wa & wb & _ & Hx)
      end.
      exact (Hone x wa y wb Hx).
    + exact (Hone _ _ _ _ Hconv).
Qed.

End Ownership.

(** The injection at work: a POST of a name under principal U. *)
Lemma ownership_injection_witness :
  (forall data w built w',
      _build_model_from_data Example.env (Some Example.eU) Example.MyModel data None w
      = (Ok built, w') ->
      Dict.get "owner" (e_values (fst built)) = Some (key_value (e_key Example.eU)))
  /\ fst (_build_model_from_data Example.env (Some Example.eU) Example.MyModel
            (VDict [("name", VStr "x")]) None Example.w0)
     = Ok (Entity Example.MyModel None [("name", VStr "x"); ("owner", VKey Example.kU)],
           VDict [("name", VStr "x")])
  /\ fst (_build_model_from_data Example.env (Some Example.eU) Example.Folder
            (VDict [("title", VStr "t"); ("first", VDict [("name", VStr "x")])])
            None Example.w0)
     = Ok (Entity Example.Folder None
             [("title", VStr "t");
              ("first", VModel (Entity Example.MyModel None
                                  [("name", VStr "x"); ("owner", VKey Example.kU)]))],
           VDict [("title", VStr "t"); ("first", VDict [("name", VStr "x")])]).
Proof.
  split; [|split; vm_compute; reflexivity].
  apply (ownership_injection Example.env Example.MyModel
           (MkRESTMeta [] [] [] [] [] [] [] [] (Some "owner") false None)
           "owner" Example.eU); [reflexivity | reflexivity |].
  apply (bool_decide_unpack _). vm_compute. exact I.
Defined.

(** The claim as stated lets an explicit owner of the payload stand; the
    code does not: the payload gives V's key for the owner, which converts to
    V's key, and the new instance is owned by U all the same. *)
Lemma injection_overrides_payload_owner :
  let payload := VDict [("name", VStr "x"); ("owner", VStr "kV")] in
  py_getitem payload "owner" = Ok (VStr "kV")
  /\ fst (_value_to_property Example.env (Some Example.eU)
            (Property (KeyProperty (Some "User")) false) (VStr "kV") Example.w0)
     = Ok (VKey Example.kV)
  /\ fst (_build_model_from_data Example.env (Some Example.eU) Example.MyModel
            payload None Example.w0)
     = Ok (Entity Example.MyModel None [("name", VStr "x"); ("owner", VKey Example.kU)],
           payload)
  /\ VKey Example.kU ≠ VKey Example.kV.
Proof. repeat split; try (vm_compute; reflexivity). done. Qed.

(* ===================================================================== *)
(** * Keys of the payload that name no property (C10) *)
(* ===================================================================== *)

Section UnknownKeys.
Context (E : Env) (user : option entity).
Import Dict DictFacts.

Lemma rename_key_agree k src dst d1 d2 :
  src ≠ k -> agree_except k d1 d2 ->
  agree_except k (rename_key src dst d1) (rename_key src dst d2).
Proof.
  intros Hsrc Hag key Hkey. unfold rename_key.
  rewrite (Hag src Hsrc). destruct (get src d2) as [x|]; [|by apply Hag].
  rewrite !get_set, !get_del. rewrite (Hag key Hkey). done.
Qed.

Lemma rename_all_agree k table d1 d2 :
  k ∉ map snd table -> agree_except k d1 d2 ->
  agree_except k (rename_all Input table d1) (rename_all Input table d2).
Proof.
  revert d1 d2. induction table as [|entry table IH]; intros d1 d2 Hk Hag; [done|].
  simpl in *. apply not_elem_of_cons in Hk as [Hne Hk].
  apply IH; [done|]. apply rename_key_agree; [|done]. simpl. congruence.
Qed.

Lemma collect_ext convert d1 d2 props acc w :
  (forall name, name ∈ keys props -> get name d1 = get name d2) ->
  collect_input_properties convert (VDict d1) props acc w
  = collect_input_properties convert (VDict d2) props acc w.
Proof.
  revert acc w. induction props as [|[n p] props IH]; intros acc w Hag; [done|].
  simpl. unfold bind, lift, has. rewrite (Hag n) by (by left).
  assert (forall name, name ∈ keys props -> get name d1 = get name d2) as Hag'.
  { intros name Hin. apply Hag. by right. }
  destruct (get n d2) as [raw|]; simpl; [|by apply IH].
  destruct (convert_input convert p raw w) as [[x|e] w1]; [|done]. by apply IH.
Qed.

Lemma take_input_id_ext meta model d1 d2 ip w :
  get "id" d1 = get "id" d2 ->
  take_input_id meta model (VDict d1) ip w = take_input_id meta model (VDict d2) ip w.
Proof.
  intros Hid. unfold take_input_id. destruct model; [done|].
  destruct meta as [m|]; [|done]. destruct (use_input_id m); [|done].
  simpl. unfold bind, lift, has. by rewrite Hid.
Qed.


End UnknownKeys.



(* ===================================================================== *)
(** * Facts on the datastore model *)
(* ===================================================================== *)

Section StoreFacts.
Context (E : Env).

(** The entities a query returns: the stored entities that it matches. *)
Lemma elem_of_run_query store q e :
  e ∈ run_query E store q <->
  exists k e0, store !! k = Some e0 /\ e = loaded (k, e0)
               /\ query_matches E q e = true.
Proof.
  unfold run_query. rewrite merge_sort_Permutation.
  rewrite list_elem_of_In, in_map_iff. split.
  - intros ([k e0] & <- & Hin). apply list_elem_of_In, elem_of_map_to_list in Hin.
    apply map_lookup_filter_Some in Hin as [Hs Hm]. by exists k, e0.
  - intros (k & e0 & Hs & -> & Hm). exists (k, e0). split; [done|].
    apply list_elem_of_In, elem_of_map_to_list, map_lookup_filter_Some. done.
Qed.

Lemma length_run_query store q :
  (length (run_query E store q) <= size store)%nat.
Proof.
  unfold run_query. rewrite merge_sort_Permutation, length_map, length_map_to_list.
  apply map_subseteq_size, map_filter_subseteq.
Qed.

Lemma lookup_foldr_delete (store : gmap Key entity) ks k :
  foldr delete store ks !! k = if bool_decide (k ∈ ks) then None else store !! k.
Proof.
  induction ks as [|k' ks IH]; cbn [foldr].
  - by rewrite bool_decide_eq_false_2 by apply not_elem_of_nil.
  - destruct (decide (k = k')) as [->|Hne].
    + by rewrite lookup_delete_eq, bool_decide_eq_true_2 by (by left).
    + rewrite lookup_delete_ne by done. rewrite IH.
      destruct (decide (k ∈ ks)) as [Hin|Hnin].
      * by rewrite !bool_decide_eq_true_2 by (by try right).
      * rewrite !bool_decide_eq_false_2; [done| |done].
        intros [?|?]%elem_of_cons; done.
Qed.

Lemma elem_of_keys_of (l : list entity) k :
  k ∈ keys_of l <-> exists e, e ∈ l /\ e_key e = Some k.
Proof. unfold keys_of. by rewrite list_elem_of_omap. Qed.

Lemma filter_all {A} (p : A -> bool) (l : list A) :
  (forall x, x ∈ l -> p x = true) -> List.filter p l = l.
Proof.
  induction l as [|x l IH]; simpl; [done|]. intros Hall.
  rewrite (Hall x) by (by left). f_equal. apply IH. intros y Hy. apply Hall. by right.
Qed.

(** A page of a query: when the cursor has passed only keys that are gone,
    the page is a prefix of all the matches. *)
Lemma default_limit_fits : DEFAULT_MAX_QUERY_RESULTS <= MAX_PAGE_SIZE.
Proof. by vm_compute. Qed.

Lemma fetch_page_fresh store q limit cursor :
  limit <= MAX_PAGE_SIZE ->
  (forall c, cursor = Some c ->
     c_shape c = query_shape q /\ forall k, k ∈ c_seen c -> store !! k = None) ->
  let all := run_query E store q in
  fetch_page E store q limit cursor
  = Ok (take (Z.to_nat limit) all,
        match take (Z.to_nat limit) all with
        | [] => None
        | _ => Some (MkCursor (query_shape q)
                       (match cursor with Some c => c_seen c | None => [] end
                        ++ keys_of (take (Z.to_nat limit) all)))
        end,
        bool_decide (Z.to_nat limit < length all)%nat).
Proof.
  intros Hl Hc all. unfold fetch_page.
  rewrite (proj2 (Z.ltb_ge _ _) Hl).
  assert (match cursor with
          | Some c => bool_decide (c_shape c = query_shape q)
          | None => true
          end = true) as ->.
  { destruct cursor as [c|]; [|done]. apply bool_decide_eq_true. by apply Hc. }
  simpl. fold all.
  rewrite (filter_all _ all); [done|].
  intros e He. apply elem_of_run_query in He as (k & e0 & Hs & -> & _).
  unfold key_seen, loaded. simpl. apply negb_true_iff, bool_decide_eq_false.
  destruct cursor as [c|]; [|apply not_elem_of_nil].
  intros Hin. apply Hc in Hin; [congruence|done].
Qed.

End StoreFacts.

(* ===================================================================== *)
(** * Collection GET and DELETE under owner_user *)
(* ===================================================================== *)

Section DeleteLoop.
Context (E : Env) (H : Self.handler) (R : request) (q : Query).
Local Abbreviation delete_page := (delete_page H).
Local Abbreviation only_matches_gone := (only_matches_gone E q).

Lemma delete_pages_S fuel cursor acc w :
  RESTHandlerClass.delete_pages E H (S fuel) q cursor acc w
  = match fetch_page E (w_store w) q DEFAULT_MAX_QUERY_RESULTS cursor with
    | Raise e => (Raise e, w)
    | Ok (results, cursor', more) =>
        match delete_page results acc w with
        | (Raise e, w1) => (Raise e, w1)
        | (Ok acc1, w1) =>
            if more then RESTHandlerClass.delete_pages E H fuel q cursor' acc1 w1
            else (Ok acc1, w1)
        end
    end.
Proof.
  simpl. unfold bind at 1. unfold get_world. unfold bind at 1. unfold lift.
  destruct (fetch_page _ _ _ _ _) as [[[results cursor'] more]|e]; [|done].
  simpl. unfold bind, delete_page.
  destruct results as [|e results]; [by destruct more|].
  destruct (Self.delete_callback H) as [callback|].
  - destruct (RESTHandlerClass.delete_each _ _ _ _) as [[acc1|e1] w1]; [|done].
    by destruct more.
  - unfold bind. simpl. by destruct more.
Qed.

Lemma store_without_nil w : store_without [] w w.
Proof. split; [|done]. intros k. by rewrite bool_decide_eq_false_2 by apply not_elem_of_nil. Qed.

Lemma delete_each_spec callback results acc w r w' :
  RESTHandlerClass.delete_each callback results acc w = (r, w') ->
  exists gone rest,
    results = (gone ++ rest)%list /\ store_without gone w w'
    /\ (forall ds, r = Ok ds -> ds = (acc ++ results)%list /\ rest = []).
Proof.
  revert acc w. induction results as [|m results IH]; intros acc w; simpl.
  - intros [= <- <-]. exists [], []. split; [done|]. split; [apply store_without_nil|].
    intros ds [= <-]. by rewrite app_nil_r.
  - unfold bind at 1. unfold lift.
    destruct (callback m) as [[]|e].
    2:{ intros [= <- <-]. exists [], (m :: results).
        split; [done|]. split; [apply store_without_nil|]. done. }
    unfold bind at 1. unfold RESTHandlerClass.delete_entity.
    destruct (e_key m) as [k|] eqn:Hkey.
    2:{ intros [= <- <-]. exists [], (m :: results).
        split; [done|]. split; [apply store_without_nil|]. done. }
    unfold key_delete. intros Hrec.
    apply IH in Hrec as (gone & rest & -> & [Hlook Htab] & Hok).
    exists (m :: gone), rest. split; [done|]. split; [split|].
    + intros k0. rewrite Hlook. simpl. unfold keys_of. simpl. rewrite Hkey. simpl.
      fold (keys_of gone).
      destruct (decide (k0 = k)) as [->|Hne].
      * rewrite lookup_delete_eq. rewrite (bool_decide_eq_true_2 (k ∈ k :: _)) by (by left).
        by destruct (bool_decide _).
      * rewrite lookup_delete_ne by done.
        destruct (decide (k0 ∈ keys_of gone)) as [Hin|Hnin].
        -- by rewrite !bool_decide_eq_true_2 by (by try right).
        -- rewrite !bool_decide_eq_false_2; [done| |done].
           intros [?|?]%elem_of_cons; done.
    + done.
    + intros ds Hds. destruct (Hok ds Hds) as [-> ->].
      split; [|done]. by rewrite <- app_assoc.
Qed.

Lemma delete_page_spec results acc w r w' :
  delete_page results acc w = (r, w') ->
  exists gone rest,
    results = (gone ++ rest)%list /\ store_without gone w w'
    /\ (forall ds, r = Ok ds -> ds = (acc ++ results)%list /\ rest = []).
Proof.
  unfold delete_page. destruct results as [|e results].
  - intros [= <- <-]. exists [], []. split; [done|]. split; [apply store_without_nil|].
    intros ds [= <-]. by rewrite app_nil_r.
  - destruct (Self.delete_callback H) as [callback|]; [apply delete_each_spec|].
    unfold bind, delete_multi, ret. intros [= <- <-].
    exists (e :: results), []. split; [by rewrite app_nil_r|]. split; [split|].
    + intros k. simpl. apply lookup_foldr_delete.
    + done.
    + intros ds [= <-]. done.
Qed.

Lemma only_matches_gone_trans w w1 w' :
  only_matches_gone w w1 -> only_matches_gone w1 w' -> only_matches_gone w w'.
Proof.
  intros H1 H2 k. destruct (H2 k) as [Heq|[Hn (e0 & Hs & Hm)]].
  - rewrite Heq. apply H1.
  - right. split; [done|]. exists e0. split; [|done].
    destruct (H1 k) as [Heq|[Hn' _]]; congruence.
Qed.

Lemma page_only_matches results cursor' more limit cursor gone rest w w1 :
  fetch_page E (w_store w) q limit cursor = Ok (results, cursor', more) ->
  results = (gone ++ rest)%list -> store_without gone w w1 ->
  only_matches_gone w w1.
Proof.
  unfold fetch_page. destruct (MAX_PAGE_SIZE <? limit); [done|].
  destruct (negb _); [done|]. intros [= <- _ _] Hres [Hlook _] k.
  rewrite Hlook. case_bool_decide as Hin; [|by left].
  right. split; [done|].
  apply elem_of_keys_of in Hin as (e & He & Hkey).
  assert (e ∈ run_query E (w_store w) q) as Hrun.
  { assert (e ∈ (gone ++ rest)%list) as He' by (apply elem_of_app; by left).
    rewrite <- Hres in He'. apply elem_of_take in He' as (i & Hi & _).
    apply list_elem_of_lookup_2 in Hi. apply list_elem_of_In, filter_In in Hi as [Hi _].
    by apply list_elem_of_In. }
  apply elem_of_run_query in Hrun as (k' & e0 & Hs & -> & Hm).
  injection Hkey as <-. by exists e0.
Qed.

(** Whatever the outcome of the loop, only matches of the query are gone. *)
Lemma delete_pages_safe fuel cursor acc w r w' :
  RESTHandlerClass.delete_pages E H fuel q cursor acc w = (r, w') ->
  only_matches_gone w w'.
Proof.
  revert cursor acc w. induction fuel as [|fuel IH]; intros cursor acc w.
  - intros [= _ <-]. intros k. by left.
  - rewrite delete_pages_S.
    destruct (fetch_page _ _ _ _ _) as [[[results cursor'] more]|e] eqn:Hf.
    2:{ intros [= _ <-]. intros k. by left. }
    destruct (delete_page results acc w) as [[acc1|e] w1] eqn:Hp.
    + apply delete_page_spec in Hp as (gone & rest & Hres & Hw & _).
      pose proof (page_only_matches _ _ _ _ _ _ _ _ _ Hf Hres Hw) as Hstep.
      destruct more.
      * intros Hrec. apply IH in Hrec. by eapply only_matches_gone_trans.
      * by intros [= _ <-].
    + apply delete_page_spec in Hp as (gone & rest & Hres & Hw & _).
      intros [= _ <-]. by eapply page_only_matches.
Qed.

End DeleteLoop.

Section DeleteExact.
Context (E : Env) (H : Self.handler) (R : request) (q : Query).
Local Abbreviation cursor_fresh := (cursor_fresh q).

Lemma run_query_key store e :
  e ∈ run_query E store q -> exists k, e_key e = Some k /\ is_Some (store !! k).
Proof. intros (k & e0 & Hs & -> & _)%elem_of_run_query. by exists k. Qed.

Lemma run_query_same_key store e1 e2 k :
  e1 ∈ run_query E store q -> e2 ∈ run_query E store q ->
  e_key e1 = Some k -> e_key e2 = Some k -> e1 = e2.
Proof.
  intros (k1 & a1 & Hs1 & -> & _)%elem_of_run_query
         (k2 & a2 & Hs2 & -> & _)%elem_of_run_query [= ->] [= ->]. congruence.
Qed.

Lemma cursor_fresh_next cursor results w w1 :
  cursor_fresh cursor w -> store_without results w w1 ->
  cursor_fresh
    (match results with
     | [] => None
     | _ => Some (MkCursor (query_shape q)
                    (match cursor with Some c => c_seen c | None => [] end
                     ++ keys_of results))
     end) w1.
Proof.
  intros Hc [Hlook _] c Hceq. destruct results as [|e results]; [done|].
  injection Hceq as <-. simpl. split; [done|]. intros k Hin. rewrite Hlook.
  case_bool_decide as Hk; [done|].
  apply elem_of_app in Hin as [Hin|Hin]; [|done].
  destruct cursor as [c|]; [|by apply elem_of_nil in Hin].
  destruct (Hc c eq_refl) as [_ Hs]. by apply Hs.
Qed.

Lemma run_query_after_page results w w1 e :
  (forall x, x ∈ results -> x ∈ run_query E (w_store w) q) ->
  store_without results w w1 ->
  e ∈ results \/ e ∈ run_query E (w_store w1) q <-> e ∈ run_query E (w_store w) q.
Proof.
  intros Hsub [Hlook _]. split.
  - intros [Hin|Hin]; [by apply Hsub|].
    apply elem_of_run_query in Hin as (k & e0 & Hs & -> & Hm).
    apply elem_of_run_query. exists k, e0. split; [|done].
    rewrite Hlook in Hs. by destruct (bool_decide _).
  - intros Hin. pose proof Hin as (k & e0 & Hs & -> & Hm)%elem_of_run_query.
    destruct (decide (k ∈ keys_of results)) as [Hk|Hk].
    + left. apply elem_of_keys_of in Hk as (e' & He' & Hkey).
      by rewrite <- (run_query_same_key _ _ _ k (Hsub _ He') Hin Hkey eq_refl).
    + right. apply elem_of_run_query. exists k, e0. split; [|done].
      by rewrite Hlook, bool_decide_eq_false_2.
Qed.

(** When the loop returns, no match of the query is left and the entities
    it returns are the matches. *)
Lemma delete_pages_exact fuel cursor acc w ds w' :
  cursor_fresh cursor w ->
  RESTHandlerClass.delete_pages E H fuel q cursor acc w = (Ok ds, w') ->
  (forall k e0, w_store w' !! k = Some e0 -> query_matches E q (loaded (k, e0)) = false)
  /\ exists ds', ds = (acc ++ ds')%list
                 /\ forall e, e ∈ ds' <-> e ∈ run_query E (w_store w) q.
Proof.
  revert cursor acc w. induction fuel as [|fuel IH]; intros cursor acc w Hc; [done|].
  rewrite delete_pages_S, (fetch_page_fresh E _ _ _ _ default_limit_fits Hc).
  set (all := run_query E (w_store w) q).
  set (results := take (Z.to_nat DEFAULT_MAX_QUERY_RESULTS) all).
  assert (forall x, x ∈ results -> x ∈ all) as Hsub.
  { intros x (i & Hi & _)%elem_of_take. by eapply list_elem_of_lookup_2. }
  destruct (delete_page H results acc w) as [[acc1|e] w1] eqn:Hp; [|done].
  apply delete_page_spec in Hp as (gone & rest & Hres & Hw & Hok).
  destruct (Hok acc1 eq_refl) as [-> ->]. rewrite app_nil_r in Hres. subst gone.
  case_bool_decide as Hmore.
  - intros Hrec. apply IH in Hrec as [Hnone (ds' & -> & Hds')].
    2:{ by apply (cursor_fresh_next _ _ w). }
    split; [done|]. exists (results ++ ds')%list. split; [by rewrite app_assoc|].
    intros e. rewrite elem_of_app, Hds'. by apply run_query_after_page.
  - intros [= <- <-]. assert (results = all) as Hall.
    { apply take_ge. lia. }
    split.
    + intros k e0 Hs. destruct (query_matches E q (loaded (k, e0))) eqn:Hm; [|done].
      destruct Hw as [Hlook _]. rewrite Hlook in Hs.
      case_bool_decide as Hk; [done|]. exfalso. apply Hk.
      apply elem_of_keys_of. exists (loaded (k, e0)). split; [|done].
      rewrite Hall. apply elem_of_run_query. by exists k, e0.
    + exists results. split; [done|]. intros e. by rewrite Hall.
Qed.

Lemma length_run_query_filter store :
  length (run_query E store q)
  = size (filter (fun ke : Key * entity => query_matches E q (loaded ke) = true) store).
Proof.
  unfold run_query. by rewrite merge_sort_Permutation, length_map, length_map_to_list.
Qed.

Lemma run_query_shrinks results w w1 :
  results ≠ [] ->
  (forall x, x ∈ results -> x ∈ run_query E (w_store w) q) ->
  store_without results w w1 ->
  (length (run_query E (w_store w1) q) < length (run_query E (w_store w) q))%nat.
Proof.
  intros Hne Hsub [Hlook _]. rewrite !length_run_query_filter.
  apply map_subset_size, map_subset_alt. split.
  - apply map_subseteq_spec. intros k e0 [Hs Hm]%map_lookup_filter_Some.
    apply map_lookup_filter_Some. split; [|done].
    rewrite Hlook in Hs. by destruct (bool_decide _).
  - destruct results as [|e results]; [done|].
    pose proof (Hsub e ltac:(by left)) as (k & e0 & Hs & -> & Hm)%elem_of_run_query.
    exists k. split.
    + apply map_lookup_filter_None. left. rewrite Hlook.
      rewrite bool_decide_eq_true_2; [done|].
      apply elem_of_keys_of. exists (loaded (k, e0)). split; [by left|done].
    + exists e0. by apply map_lookup_filter_Some.
Qed.

(** Without a callback the loop returns, given fuel for its pages. *)
Lemma delete_pages_total fuel cursor acc w :
  Self.delete_callback H = None ->
  cursor_fresh cursor w ->
  (length (run_query E (w_store w) q) < fuel)%nat ->
  exists ds w', RESTHandlerClass.delete_pages E H fuel q cursor acc w = (Ok ds, w').
Proof.
  intros Hcb. revert cursor acc w.
  induction fuel as [|fuel IH]; intros cursor acc w Hc Hlen; [lia|].
  rewrite delete_pages_S, (fetch_page_fresh E _ _ _ _ default_limit_fits Hc).
  set (all := run_query E (w_store w) q) in *.
  set (results := take (Z.to_nat DEFAULT_MAX_QUERY_RESULTS) all).
  assert (forall x, x ∈ results -> x ∈ all) as Hsub.
  { intros x (i & Hi & _)%elem_of_take. by eapply list_elem_of_lookup_2. }
  destruct (delete_page H results acc w) as [[acc1|e] w1] eqn:Hp.
  - pose proof Hp as (gone & rest & Hres & Hw & Hok)%delete_page_spec.
    destruct (Hok acc1 eq_refl) as [-> ->]. rewrite app_nil_r in Hres. subst gone.
    case_bool_decide as Hmore; [|by eauto].
    apply IH; [by apply (cursor_fresh_next _ _ w)|].
    assert (results ≠ []) as Hne.
    { subst results. destruct all; simpl in *; [lia|]. done. }
    pose proof (run_query_shrinks _ _ _ Hne Hsub Hw) as Hshrink.
    fold all in Hshrink. lia.
  - exfalso. unfold delete_page in Hp. rewrite Hcb in Hp.
    destruct results; [done|]. unfold bind, delete_multi, ret in Hp. done.
Qed.

End DeleteExact.

Section OwnerScope.
Context (E : Env) (H : Self.handler) (R : request) (u : entity) (o : string).
Local Abbreviation owned_by_principal := (owned_by_principal H u o).
Local Abbreviation owner_query := (owner_query H u o).

Lemma owner_query_matches e :
  query_matches E owner_query e = owned_by_principal e.
Proof.
  unfold query_matches, owned_by_principal, owner_query. simpl.
  by rewrite !andb_true_r.
Qed.

Lemma scoped_query_matches q e :
  q_kind q = cls_kind (Self.model H) -> (o, e_key u) ∈ q_filters q ->
  query_matches E q e = true -> owned_by_principal e = true.
Proof.
  intros Hkind Hin. unfold query_matches, owned_by_principal. rewrite Hkind.
  intros [[Hk _]%andb_true_iff Hf]%andb_true_iff.
  rewrite Hk. simpl. rewrite forallb_forall in Hf. apply Hf.
  by apply list_elem_of_In.
Qed.

Lemma filter_query_inv w q0 w1 :
  _filter_query E H R w = (Ok q0, w1) ->
  w1 = w /\ q_kind q0 = cls_kind (Self.model H) /\ q_filters q0 = [].
Proof.
  unfold _filter_query. destruct (GET_param R "q") as [text|].
  - destruct (gql_where E text); [|done]. by intros [= <- <-].
  - by intros [= <- <-].
Qed.

Lemma order_query_inv q w q' w1 :
  _order_query E H R q w = (Ok q', w1) ->
  w1 = w /\ q_kind q' = q_kind q /\ q_filters q' = q_filters q.
Proof.
  unfold _order_query. destruct (GET_param R "order") as [text|].
  - destruct (parse_orders E H _) as [orders|exc].
    + unfold lift, query_order. destruct (existsb _ orders); [done|].
      by intros [= <- <-].
    + by destruct (exn_cls exc).
  - by intros [= <- <-].
Qed.

Lemma fetch_query_results q w page w1 :
  _fetch_query E R q w = (Ok page, w1) ->
  w1 = w /\ forall e, e ∈ fst page -> e ∈ run_query E (w_store w) q.
Proof.
  intros Hf. pose proof (fetch_query_cases E R q w) as Hc.
  destruct (page_limit E R) as [limit|]; [|by destruct Hc as [? Hc]; rewrite Hc in Hf].
  destruct Hc as [Hpos Hc].
  destruct (page_cursor E R) as [cursor|]; [|by destruct Hc as [? Hc]; rewrite Hc in Hf].
  destruct (fetch_page E (w_store w) q limit cursor) as [[[results next] more]|e] eqn:Hp.
  2:{ destruct (exn_cls e); try (by rewrite Hc in Hf);
        by destruct Hc as [? Hc]; rewrite Hc in Hf. }
  rewrite Hc in Hf. injection Hf as <- <-. split; [done|]. simpl.
  apply (fetch_page_more E) in Hp as [-> _]; [|done].
  intros e (i & Hi & _)%elem_of_take. apply list_elem_of_lookup_2 in Hi.
  apply list_elem_of_In, filter_In in Hi as [Hi _]. by apply list_elem_of_In.
Qed.

Lemma filter_by_owner_property prop q w :
  user R = Some u ->
  RESTHandlerClass.user_owner_property_name H = Ok o ->
  Dict.get o (_properties (Self.model H)) = Some prop ->
  validate E prop (key_value (e_key u)) = true ->
  RESTHandlerClass.filter_by_owner E H R q w
  = (Ok (MkQuery (q_kind q) (q_where q) (q_filters q ++ [(o, e_key u)]) (q_orders q)), w).
Proof.
  intros Hu Ho Hprop Hvalid.
  unfold RESTHandlerClass.filter_by_owner, RESTHandlerClass.user_key.
  rewrite Ho, Hu. unfold bind, lift, class_getattr. rewrite Hprop.
  destruct (e_key u) as [k|]; [|done]. simpl in Hvalid. by rewrite Hvalid.
Qed.


End OwnerScope.


(** C5 (a defect of the code).  The collection path with a trailing slash
    addresses no entity either ([model_id] is ['/']), so under owner_user a
    collection GET and a collection DELETE of the logged-in principal U are
    to be scoped to U's entities, as they are on the path without the slash:
    there the GET returns U's entity alone and the DELETE removes U's entity
    and leaves V's.  With the slash the wrapper runs the owner check on
    [None]: both requests end with an [AttributeError] that nothing catches,
    nothing is returned and nothing is deleted. *)
Lemma trailing_slash_collection_is_not_scoped :
  let H := Example.handler_with [("GET", PERMISSION_OWNER_USER);
                                 ("DELETE", PERMISSION_OWNER_USER)] in
  let R := Example.request_of (Some Example.eU) None in
  let wrapped func method_name model_id :=
    RESTHandlerClass.rest_method_wrapper Example.env H R func method_name model_id
      Example.w0 in
  wrapped (RESTHandlerClass.get Example.env H R) "GET" "/"
  = (Raise (Exn AttributeError "owner"), Example.w0)
  /\ wrapped (RESTHandlerClass.delete Example.env H R) "DELETE" "/"
     = (Raise (Exn AttributeError "owner"), Example.w0)
  /\ (exists text, fst (wrapped (RESTHandlerClass.get Example.env H R) "GET" "")
                   = Ok (Response 200 text))
  /\ fst (RESTHandlerClass.get Example.env H R None Example.w0)
     = Ok (VDict [("results", VList [VModel Example.m1]); ("next_results_url", VNone)])
  /\ (exists text, fst (wrapped (RESTHandlerClass.delete Example.env H R) "DELETE" "")
                   = Ok (Response 200 text))
  /\ w_store (snd (wrapped (RESTHandlerClass.delete Example.env H R) "DELETE" ""))
       !! Example.k1 = None
  /\ w_store (snd (wrapped (RESTHandlerClass.delete Example.env H R) "DELETE" ""))
       !! Example.k2 = Some Example.m2.
Proof.
  repeat split; try (vm_compute; reflexivity); vm_compute; eexists; reflexivity.
Qed.

(* ===================================================================== *)
(** * Encoding and decoding an entity (C9) *)
(* ===================================================================== *)

Section Codec.
Context (E : Env) (user : option entity).
Import Dict DictFacts KeysFacts.
Local Abbreviation encode_scalar := (encode_scalar E).
Local Abbreviation encode_value := (encode_value E).

Lemma to_dict_values_flat cls values :
  Forall (fun np => is_structured (snd np) = false) (_properties cls) ->
  to_dict_values cls values
  = map (fun np => (fst np, value_or_default values np)) (_properties cls).
Proof.
  destruct cls as [kind props meta]. simpl.
  induction props as [|[name [ptype repeated]] props IH]; [done|].
  intros [Hflat Hrest]%Forall_cons. simpl. f_equal; [|by apply IH].
  unfold value_or_default. simpl. by destruct ptype.
Qed.

Lemma decode_key_scalar k :
  _decode_key E k = VNone \/ exists s, _decode_key E k = VStr s.
Proof.
  unfold _decode_key. destruct (_kind_map E (key_kind k)) as [mc|]; [|by eauto].
  destruct (cls_RESTMeta mc) as [m|]; [|by eauto].
  destruct (use_input_id m); [|by eauto]. destruct (string_id k); by eauto.
Qed.

Lemma mapM_pure {A B} (g : A -> M B) (h : A -> B) (l : list A) w :
  (forall x, x ∈ l -> g x w = (Ok (h x), w)) ->
  mapM g l w = (Ok (map h l), w).
Proof.
  induction l as [|x l IH]; intros Hall; [done|]. simpl.
  rewrite (bind_Ok_intro _ _ _ _ _ (Hall x ltac:(by left))).
  rewrite (bind_Ok_intro _ _ _ _ _ (IH (fun y Hy => Hall y ltac:(by right)))).
  done.
Qed.

Lemma json_encode_scalar f v w :
  encodable_scalar v ->
  json_encode E (S (S f)) v w = (Ok (encode_scalar v), w).
Proof.
  destruct v; try done; intros _; simpl.
  destruct (decode_key_scalar k) as [Hk|[s Hk]];
    unfold bind, ret; simpl; by rewrite Hk.
Qed.

Lemma json_encode_value f v w :
  encodable v ->
  json_encode E (S (S (S f))) v w = (Ok (encode_value v), w).
Proof.
  destruct v; try (intros Hv; by apply (json_encode_scalar (S f))).
  intros Hl. simpl in Hl. change (json_encode E (S (S (S f))) (VList l) w)
    with (bind (mapM (json_encode E (S (S f))) l) (fun l' => ret (VList l')) w).
  erewrite bind_Ok_intro; [done|].
  apply mapM_pure. intros x Hx. apply json_encode_scalar.
  rewrite Forall_forall in Hl. by apply Hl.
Qed.

Lemma json_encode_dict f d w :
  Forall (fun kv => encodable (snd kv)) d ->
  json_encode E (S (S (S (S f)))) (VDict d) w
  = (Ok (VDict (map_values encode_value d)), w).
Proof.
  intros Hd.
  change (json_encode E (S (S (S (S f)))) (VDict d) w)
    with (bind (mapM (fun kv => bind (json_encode E (S (S (S f))) (snd kv))
                                  (fun v => ret (fst kv, v))) d)
               (fun d' => ret (VDict d')) w).
  erewrite bind_Ok_intro; [done|].
  apply (mapM_pure _ (fun kv => (fst kv, encode_value (snd kv)))).
  intros kv Hkv. rewrite Forall_forall in Hd.
  by rewrite (bind_Ok_intro _ _ _ _ _ (json_encode_value f _ w (Hd kv Hkv))).
Qed.

Lemma get_map_values f d k :
  get k (map_values f d) = option_map f (get k d).
Proof.
  induction d as [|[k' v] d IH]; simpl; [done|]. by destruct (String.eqb k k').
Qed.

Lemma del_map_values f d k :
  del k (map_values f d) = map_values f (del k d).
Proof.
  induction d as [|[k' v] d IH]; simpl; [done|].
  destruct (String.eqb k k'); simpl; by rewrite IH.
Qed.

Lemma set_map_values f d k v :
  set k (f v) (map_values f d) = map_values f (set k v d).
Proof.
  induction d as [|[k' v'] d IH]; simpl; [done|].
  destruct (String.eqb k k'); simpl; [by rewrite del_map_values|by rewrite IH].
Qed.

Lemma rename_all_map_values f dir table d :
  rename_all dir table (map_values f d) = map_values f (rename_all dir table d).
Proof.
  revert d. induction table as [|entry table IH]; intros d; [done|].
  simpl. rewrite <- IH. f_equal. unfold rename_key.
  rewrite get_map_values. destruct (get _ d) as [x|]; [|done]. simpl.
  by rewrite del_map_values, set_map_values.
Qed.

End Codec.

Section RoundTrip.
Context (E : Env) (user : option entity).
Import Dict DictFacts KeysFacts.
Local Abbreviation key_token_decodes := (key_token_decodes E).
Local Abbreviation scalar_value_ok := (scalar_value_ok E).
Local Abbreviation property_value_ok := (property_value_ok E).

Lemma scalar_value_encodable ptype v :
  scalar_value_ok ptype v -> encodable_scalar v.
Proof. by destruct ptype, v. Qed.

Lemma scalar_value_not_list ptype v :
  scalar_value_ok ptype v -> encode_value E v = encode_scalar E v.
Proof. by destruct ptype, v. Qed.

Lemma property_value_encodable p v : property_value_ok p v -> encodable v.
Proof.
  unfold property_value_ok. intros [_ Hv]. destruct (_repeated p).
  - destruct v; try done. simpl.
    eapply Forall_impl; [exact Hv|]. apply scalar_value_encodable.
  - pose proof (scalar_value_encodable _ _ Hv). by destruct v.
Qed.

Lemma scalar_round_trip ptype repeated v w :
  scalar_value_ok ptype v ->
  _value_to_property E user (Property ptype repeated) (encode_scalar E v) w
  = (Ok v, w).
Proof.
  destruct ptype as [kind| | | | |], v; simpl; try done.
  - unfold key_token_decodes. destruct (_decode_key E k); try done.
    destruct (key_from_urlsafe E s); try done; [by intros ->|].
    destruct kind as [kind|]; [|done].
    destruct (_kind_map E kind) as [mc|]; [|done].
    destruct (cls_RESTMeta mc) as [m|]; [|done]. by intros [-> ->].
  - by intros ->.
Qed.

Lemma scalars_round_trip p l w :
  Forall (scalar_value_ok (prop_ptype p)) l ->
  mapM (_value_to_property E user p) (map (encode_scalar E) l) w = (Ok l, w).
Proof.
  destruct p as [ptype repeated]. simpl.
  induction 1 as [|v l Hv Hl IH]; [done|].
  cbn [map mapM].
  rewrite (bind_Ok_intro _ _ _ _ _ (scalar_round_trip ptype repeated v w Hv)).
  by rewrite (bind_Ok_intro _ _ _ _ _ IH).
Qed.

(** Decoding the JSON of a value of a property gives the value back. *)
Lemma value_round_trip p v w :
  property_value_ok p v ->
  convert_input (_value_to_property E user) p (encode_value E v) w = (Ok v, w).
Proof.
  unfold property_value_ok, convert_input. intros [_ Hv].
  destruct (_repeated p) eqn:Hrep.
  - destruct v; try done. simpl.
    unfold bind at 1. unfold lift.
    by rewrite (bind_Ok_intro _ _ _ _ _ (scalars_round_trip p l w Hv)).
  - rewrite (scalar_value_not_list _ _ Hv).
    destruct p as [ptype repeated]. by apply scalar_round_trip.
Qed.

End RoundTrip.

Section RoundTripFacts.
Context (E : Env).
Import Dict DictFacts KeysFacts.

Lemma filter_keys_all {A} p (d : list (string * A)) :
  (forall k, k ∈ keys d -> p k = true) -> filter_keys p d = d.
Proof.
  unfold filter_keys. induction d as [|[k v] d IH]; simpl; [done|].
  intros Hall. rewrite (Hall k) by (by left). f_equal.
  apply IH. intros k' Hk'. apply Hall. by right.
Qed.

Lemma get_value_or_default props values np :
  NoDup (keys props) -> np ∈ props ->
  get (fst np) (map (fun np => (fst np, value_or_default values np)) props)
  = Some (value_or_default values np).
Proof.
  induction props as [|a props IH]; simpl.
  - intros _ Hin. by apply elem_of_nil in Hin.
  - intros [Hnin Hnd]%NoDup_cons [->|Hin]%elem_of_cons.
    + by rewrite String.eqb_refl.
    + destruct (String.eqb (fst np) (fst a)) eqn:Hk; [|by apply IH].
      apply String.eqb_eq in Hk. exfalso. apply Hnin. rewrite <- Hk.
      apply list_elem_of_In, in_map, list_elem_of_In, Hin.
Qed.

Lemma set_attributes_total cls kwds values :
  (forall name v, (name, v) ∈ kwds ->
     exists prop, get name (_properties cls) = Some prop
                  /\ validate E prop v = true) ->
  exists values', _set_attributes E cls kwds values = Ok values'.
Proof.
  revert values. induction kwds as [|[n x] kwds IH]; simpl; intros values Hall;
    [by eauto|].
  destruct (Hall n x) as (prop & Hg & Hv); [by left|].
  unfold class_getattr. rewrite Hg, Hv.
  apply IH. intros name v Hin. apply Hall. by right.
Qed.

Lemma collect_total convert data props acc w (val : string * property -> pyval) :
  NoDup (keys props) ->
  (forall np, np ∈ props ->
     py_contains (fst np) data = Ok true
     /\ exists raw, py_getitem data (fst np) = Ok raw
                    /\ convert_input convert (snd np) raw w = (Ok (val np), w)) ->
  exists ip,
    collect_input_properties convert data props acc w = (Ok ip, w)
    /\ (forall np, np ∈ props -> get (fst np) ip = Some (val np))
    /\ (forall name, name ∉ keys props -> get name ip = get name acc).
Proof.
  revert acc. induction props as [|[n p] props IH]; intros acc Hnd Hall.
  - exists acc. split; [done|]. split; [|done].
    intros np Hin. by apply elem_of_nil in Hin.
  - apply NoDup_cons in Hnd as [Hnin Hnd].
    destruct (Hall (n, p)) as (Hhas & raw & Hraw & Hconv); [by left|].
    simpl in Hhas, Hraw, Hconv.
    destruct (IH (set n (val (n, p)) acc) Hnd) as (ip & Hc & Hval & Hframe).
    { intros np Hin. apply Hall. by right. }
    exists ip. split; [|split].
    + cbn [collect_input_properties]. unfold bind at 1. unfold lift.
      rewrite Hhas. cbn [negb]. unfold bind at 1. rewrite Hraw.
      by rewrite (bind_Ok_intro _ _ _ _ _ Hconv).
    + intros np [->|Hin]%elem_of_cons; [|by apply Hval].
      simpl. rewrite (Hframe n Hnin). apply get_set_eq.
    + intros name [Hne Hnin']%not_elem_of_cons.
      rewrite (Hframe name Hnin'). by apply get_set_ne.
Qed.

Lemma values_all_del P k d : values_all P d -> values_all P (del k d).
Proof.
  unfold values_all. induction d as [|[k' v] d IH]; simpl; [done|].
  intros [Hv Hd]%Forall_cons. destruct (String.eqb k k'); [by apply IH|].
  apply Forall_cons. split; [done|by apply IH].
Qed.

Lemma values_all_set P k v d : P v -> values_all P d -> values_all P (set k v d).
Proof.
  intros Hv. unfold values_all. induction d as [|[k' v'] d IH]; simpl.
  - intros _. by apply Forall_singleton.
  - intros [Hv' Hd]%Forall_cons. destruct (String.eqb k k').
    + apply Forall_cons. split; [done|by apply values_all_del].
    + apply Forall_cons. split; [done|by apply IH].
Qed.

Lemma values_all_get P k v d : values_all P d -> get k d = Some v -> P v.
Proof.
  unfold values_all. rewrite Forall_forall. intros Hd Hg%get_elem.
  exact (Hd _ Hg).
Qed.

Lemma values_all_rename_all P dir table d :
  values_all P d -> values_all P (rename_all dir table d).
Proof.
  revert d. induction table as [|entry table IH]; intros d Hd; [done|].
  simpl. apply IH. unfold rename_key.
  destruct (get _ d) as [x|] eqn:Hg; [|done].
  apply values_all_set; [by eapply values_all_get|by apply values_all_del].
Qed.

Lemma translation_inverts_nil names :
  "id" ∉ names -> translation_inverts [] [] names.
Proof.
  intros Hid d id _. simpl. split; [apply get_set_eq|].
  intros name Hin. apply get_set_ne. by intros <-.
Qed.

End RoundTripFacts.

Section TranslationTables.
Import Dict DictFacts KeysFacts.

Lemma rename_key_get src dst d x :
  get x (rename_key src dst d)
  = match get src d with
    | Some v => if String.eqb x dst then Some v
                else if String.eqb x src then None else get x d
    | None => get x d
    end.
Proof.
  unfold rename_key. destruct (get src d) as [v|]; [|done].
  by rewrite get_set, get_del.
Qed.

(** The renamings of a table whose source names and destination names are
    pairwise distinct, no destination being a source or a key of the
    dictionary: every destination holds what its source held, no source is
    left, and every other key is as it was. *)
Lemma rename_all_spec dir table d :
  NoDup (map (step_src dir) table) ->
  NoDup (map (step_dst dir) table) ->
  (forall t, t ∈ map (step_dst dir) table -> t ∉ map (step_src dir) table) ->
  (forall t, t ∈ map (step_dst dir) table -> get t d = None) ->
  (forall e, e ∈ table ->
     get (step_dst dir e) (rename_all dir table d) = get (step_src dir e) d)
  /\ (forall s, s ∈ map (step_src dir) table -> get s (rename_all dir table d) = None)
  /\ (forall x, x ∉ map (step_src dir) table -> x ∉ map (step_dst dir) table ->
        get x (rename_all dir table d) = get x d).
Proof.
  revert d. induction table as [|e table IH]; intros d Hs Ht Hdisj Hfree.
  - split; [|split]; [intros e Hin|intros s Hin|done]; by apply elem_of_nil in Hin.
  - cbn [map] in *. apply NoDup_cons in Hs as [Hs0 Hs], Ht as [Ht0 Ht].
    set (s := step_src dir e) in *. set (t := step_dst dir e) in *.
    assert (s ≠ t) as Hst.
    { intros Heq. apply (Hdisj t); [by left|]. rewrite <- Heq. by left. }
    assert (get t (rename_key s t d) = get s d) as F1.
    { rewrite rename_key_get, String.eqb_refl.
      destruct (get s d); [done|]. apply Hfree. by left. }
    assert (get s (rename_key s t d) = None) as F2.
    { rewrite rename_key_get, String.eqb_refl.
      destruct (get s d) eqn:Hg; [|done].
      by rewrite (proj2 (String.eqb_neq s t) Hst). }
    assert (forall x, x ≠ s -> x ≠ t ->
              get x (rename_key s t d) = get x d) as F3.
    { intros x Hxs Hxt. rewrite rename_key_get.
      destruct (get s d); [|done].
      by rewrite (proj2 (String.eqb_neq x t) Hxt),
                 (proj2 (String.eqb_neq x s) Hxs). }
    destruct (IH (rename_key s t d) Hs Ht) as (I1 & I2 & I3).
    { intros t' Hin Hin'. apply (Hdisj t'); by right. }
    { intros t' Hin. rewrite F3; [apply Hfree; by right| |].
      - intros ->. apply (Hdisj s); [by right|by left].
      - intros ->. done. }
    change (rename_all dir (e :: table) d)
      with (rename_all dir table (rename_key s t d)).
    split; [|split].
    + intros e' [->|Hin]%elem_of_cons.
      * fold t s. rewrite I3; [done| |done].
        intros Hin. apply (Hdisj t); [by left|by right].
      * rewrite (I1 e' Hin). apply F3.
        -- intros Heq. apply Hs0. rewrite <- Heq.
           apply list_elem_of_In, in_map, list_elem_of_In, Hin.
        -- intros Heq. apply (Hdisj t); [by left|]. right. rewrite <- Heq.
           apply list_elem_of_In, in_map, list_elem_of_In, Hin.
    + intros s' [->|Hin]%elem_of_cons; [|by apply I2].
      rewrite I3; [done|done|].
      intros Hin. apply (Hdisj s); [by right|by left].
    + intros x [Hxs Hxs']%not_elem_of_cons [Hxt Hxt']%not_elem_of_cons.
      rewrite I3 by done. by apply F3.
Qed.

(** One table used for the output and for the input, none of whose wire
    names is a property name, [id] or one of its own property names, and
    which does not rename [id]: the input renaming undoes the output
    renaming. *)
Lemma translation_inverts_table table names :
  NoDup (map fst table) -> NoDup (map snd table) ->
  (forall n, n ∈ map snd table ->
     (n ∉ names) /\ n ≠ "id" /\ (n ∉ map fst table)) ->
  ("id" ∉ map fst table) -> ("id" ∉ names) ->
  translation_inverts table table names.
Proof.
  intros Holds Hnews Hwire Hido Hidn d id Hkeys.
  destruct (rename_all_spec Output table d) as (O1 & O2 & O3); try done.
  { intros t Hin. by apply Hwire. }
  { intros t Hin. apply get_None_not_in. rewrite Hkeys. by apply Hwire. }
  set (d' := rename_all Output table d) in *.
  destruct (rename_all_spec Input table (set "id" id d')) as (I1 & I2 & I3);
    try done.
  { intros o Hin Hin'. by apply (Hwire o). }
  { intros o Hin. rewrite get_set_ne; [by apply O2|]. by intros <-. }
  split.
  - rewrite I3; [apply get_set_eq| |done].
    intros Hin. by apply Hwire in Hin as (_ & ? & _).
  - intros name Hname. assert ("id" ≠ name) as Hne by (by intros <-).
    destruct (decide (name ∈ map fst table)) as [Hin|Hnin].
    + apply list_elem_of_In, in_map_iff in Hin as (e & <- & He%list_elem_of_In).
      etrans; [exact (I1 e He)|]. simpl. rewrite get_set_ne; [by apply O1|].
      intros Heq. destruct (Hwire (snd e)) as (_ & Hid & _); [|by rewrite Heq in Hid].
      apply list_elem_of_In, in_map, list_elem_of_In, He.
    + rewrite I3; [|intros Hin; by apply Hwire in Hin as (? & _)|done].
      rewrite get_set_ne by done. apply O3; [done|].
      intros Hin. by apply Hwire in Hin as (? & _).
Qed.

End TranslationTables.

Section RoundTripTheorem.
Context (E : Env) (user : option entity).
Import Dict DictFacts KeysFacts.

(** C9 (as amended).  An entity with a key, whose properties are generic
    (strings, integers and the other JSON scalars), [DateTimeProperty] or
    [KeyProperty], repeated or not, and hold values of these kinds that pass
    validation (a [datetime] that the parser reads back from its ISO text, a
    key whose token decodes to it, no [None] for a [datetime]); every
    property is in the output and in the input projection; the input renaming
    undoes the output renaming; no owner is injected (no current user, or no
    owner property).  Then, with depth 5 or more, the encoder returns a JSON
    object, [_build_model_from_data] on that object returns a new instance
    of the class, and every property of that instance reads as it reads on
    the original. *)
Theorem encode_decode_round_trip (cls : model_class) (key : Key)
    (values : list (string * pyval)) (fuel : nat) (w : world) :
  NoDup (keys (_properties cls)) ->
  "id" ∉ keys (_properties cls) ->
  (forall name, name ∈ keys (_properties cls) ->
     name ∈ get_included_properties cls Output
     /\ name ∈ get_included_properties cls Input) ->
  translation_inverts (effective_table cls Output w)
    (effective_table cls Input (tables_after cls Output w))
    (keys (_properties cls)) ->
  (user = None
   \/ forall m, cls_RESTMeta cls = Some m -> user_owner_property m = None) ->
  (forall np, np ∈ _properties cls ->
     property_value_ok E (snd np) (value_or_default values np)
     /\ validate E (snd np) (value_or_default values np) = true) ->
  (5 <= fuel)%nat ->
  exists json w1 decoded w2,
    json_encode E fuel (VModel (Entity cls (Some key) values)) w = (Ok json, w1)
    /\ _build_model_from_data E user cls json None w1 = (Ok decoded, w2)
    /\ e_cls (fst decoded) = cls
    /\ forall name, name ∈ keys (_properties cls) ->
         py_getattr (fst decoded) name
         = py_getattr (Entity cls (Some key) values) name.
Proof.
  intros Hnd Hid Hincl Htr Hown Hvals Hfuel.
  set (props := _properties cls) in *.
  set (d0 := map (fun np => (fst np, value_or_default values np)) props).
  set (idv := _decode_key E key).
  set (t_out := effective_table cls Output w) in *.
  set (w1 := tables_after cls Output w) in *.
  set (t_in := effective_table cls Input w1) in *.
  set (dout := set "id" idv (rename_all Output t_out d0)).
  assert (keys d0 = keys props) as Hkeys0.
  { unfold d0, keys. rewrite map_map. done. }
  destruct (Htr d0 idv Hkeys0) as [Hid2 Hget2].
  fold dout in Hid2, Hget2.
  assert (encode_value E idv = idv /\ encodable idv
          /\ exists k, key_of_id (cls_kind cls) idv = Ok k) as (Hidv & Hidenc & Hidkey).
  { unfold idv. destruct (decode_key_scalar E key) as [Hk|[s Hk]]; rewrite Hk;
      simpl; [by eauto|]. destruct (String.eqb s ""); by eauto. }
  assert (values_all encodable dout) as Henc.
  { apply values_all_set; [done|]. apply values_all_rename_all.
    unfold values_all, d0. rewrite Forall_map. apply Forall_forall.
    intros np Hnp. simpl. eapply property_value_encodable, Hvals, Hnp. }
  assert (Forall (fun np => is_structured (snd np) = false) props) as Hflat.
  { apply Forall_forall. intros np Hnp. apply Hvals in Hnp as [[Hs _] _]. done. }
  assert (json_encode E fuel (VModel (Entity cls (Some key) values)) w
          = (Ok (VDict (map_values (encode_value E) dout)), w1)) as Hencode.
  { destruct fuel as [|[|[|[|[|f]]]]]; try lia.
    change (json_encode E (S (S (S (S (S f))))) (VModel (Entity cls (Some key) values)) w)
      with (bind (NDBEncoder_default E (VModel (Entity cls (Some key) values)))
                 (json_encode E (S (S (S (S f))))) w).
    assert (NDBEncoder_default E (VModel (Entity cls (Some key) values)) w
            = (Ok (VDict dout), w1)) as Hdef.
    { unfold NDBEncoder_default, to_dict. cbn [e_cls e_key e_values].
      rewrite (to_dict_values_flat _ _ Hflat). fold props. fold d0.
      rewrite filter_keys_all.
      2:{ intros k Hk. rewrite Hkeys0 in Hk. apply bool_decide_eq_true_2.
          by apply Hincl. }
      unfold bind at 1. rewrite translate_property_names_eq, translate_loop_dict.
      done. }
    rewrite (bind_Ok_intro _ _ _ _ _ Hdef). by apply json_encode_dict. }
  set (w2 := tables_after cls Input w1).
  set (din := map_values (encode_value E) (rename_all Input t_in dout)).
  assert (forall np, np ∈ props ->
            get (fst np) din = Some (encode_value E (value_or_default values np)))
    as Hdin.
  { intros np Hnp. unfold din. rewrite get_map_values, Hget2.
    - unfold d0. by rewrite get_value_or_default.
    - apply list_elem_of_In, in_map, list_elem_of_In, Hnp. }
  assert (get "id" din = Some idv) as Hdinid.
  { unfold din. rewrite get_map_values, Hid2. simpl. by rewrite Hidv. }
  destruct (collect_total (_value_to_property E user) (VDict din) props [] w2
              (value_or_default values) Hnd) as (ip & Hc & Hip & Hframe).
  { intros np Hnp. simpl. unfold has. rewrite (Hdin np Hnp). split; [done|].
    eexists. split; [done|]. apply value_round_trip. by apply Hvals. }
  assert (NoDup (keys ip)) as Hndip.
  { eapply collect_NoDup; [exact Hc|]. apply NoDup_nil_2. }
  assert (exists ip1,
            take_input_id (cls_RESTMeta cls) None (VDict din) ip w2 = (Ok ip1, w2)
            /\ (ip1 = ip \/ ip1 = set "id" idv ip)) as (ip1 & Htake & Hip1).
  { unfold take_input_id. destruct (cls_RESTMeta cls) as [m|]; [|by eauto].
    destruct (use_input_id m); [|by eauto].
    unfold bind, lift. simpl. unfold has. rewrite Hdinid. simpl. by eauto. }
  set (ipf := filter_keys (in_set (get_included_properties cls Input)) ip1).
  assert (set_user_owner (cls_RESTMeta cls) None user ipf = ipf) as Hownf.
  { unfold set_user_owner. destruct (cls_RESTMeta cls) as [m|] eqn:Hm; [|done].
    destruct Hown as [->|Hno]; [by destruct (user_owner_property m)|].
    by rewrite (Hno m eq_refl). }
  assert (NoDup (keys (del "id" ipf))) as Hndf.
  { apply NoDup_keys_del, NoDup_keys_filter.
    destruct Hip1 as [->| ->]; [done|by apply NoDup_keys_set]. }
  assert (forall np, np ∈ props ->
            get (fst np) (del "id" ipf) = Some (value_or_default values np))
    as Hipf.
  { intros np Hnp.
    assert (fst np ∈ keys props) as Hin
      by (apply list_elem_of_In, in_map, list_elem_of_In, Hnp).
    assert ("id" ≠ fst np) as Hne by (intros Heq; apply Hid; by rewrite Heq).
    rewrite get_del_ne by done. unfold ipf. rewrite get_filter_keys.
    unfold in_set. rewrite bool_decide_eq_true_2 by (by apply Hincl).
    destruct Hip1 as [->| ->]; [by apply Hip|].
    rewrite get_set_ne by done. by apply Hip. }
  assert (forall name v, (name, v) ∈ del "id" ipf ->
            exists np, np ∈ props /\ fst np = name
                       /\ v = value_or_default values np) as Hkw.
  { intros name v Hin. apply elem_get in Hin; [|done].
    rewrite get_del in Hin. destruct (String.eqb name "id") eqn:Hn; [done|].
    apply String.eqb_neq in Hn. unfold ipf in Hin.
    rewrite get_filter_keys in Hin. destruct (in_set _ name); [|done].
    assert (get name ip = Some v) as Hg.
    { destruct Hip1 as [->| ->]; [done|].
      rewrite get_set_ne in Hin; [done|]. by intros <-. }
    destruct (decide (name ∈ keys props)) as [Hk|Hk].
    - apply list_elem_of_In, in_map_iff in Hk as (np & <- & Hnp%list_elem_of_In).
      exists np. rewrite (Hip np Hnp) in Hg. by injection Hg as <-.
    - by rewrite (Hframe name Hk) in Hg. }
  destruct (set_attributes_total E cls (del "id" ipf) []) as [values' Hset].
  { intros name v Hin. destruct (Hkw name v Hin) as (np & Hnp & <- & ->).
    exists (snd np). split; [|by apply Hvals].
    apply elem_get; [done|]. by destruct np. }
  destruct Hidkey as [kid Hidkey].
  assert (exists key', construct E cls ipf = Ok (Entity cls key' values'))
    as [key' Hcons].
  { rewrite construct_with_id.
    2:{ intros name Hin. destruct (decide (name = "id")) as [->|Hne]; [by right|].
        left. apply elem_of_keys_has.
        destruct (decide (name ∈ keys props)) as [Hk|Hk]; [done|]. exfalso.
        apply get_None_not_in in Hin; [done|].
        unfold ipf. rewrite get_filter_keys. destruct (in_set _ name); [|done].
        destruct Hip1 as [->| ->]; [by apply Hframe|].
        rewrite get_set_ne by done. by apply Hframe. }
    2:{ unfold has. fold props. destruct (get "id" props) eqn:Hg; [|done].
        by apply get_Some_in in Hg. }
    assert (get "id" ipf = None \/ get "id" ipf = Some idv) as [-> | ->].
    { unfold ipf. rewrite get_filter_keys. destruct (in_set _ "id"); [|by left].
      destruct Hip1 as [->| ->]; [left; by rewrite Hframe|right; apply get_set_eq]. }
    - simpl. rewrite Hset. simpl. by eauto.
    - rewrite Hidkey. simpl. rewrite Hset. simpl. by eauto. }
  exists (VDict (map_values (encode_value E) dout)), w1,
         (Entity cls key' values', VDict din), w2.
  split; [exact Hencode|]. split; [|split; [done|]].
  - rewrite build_unfold.
    rewrite (bind_Ok_intro _ _ _ (VDict din) w2).
    2:{ rewrite translate_property_names_eq, translate_loop_dict.
        unfold din. by rewrite rename_all_map_values. }
    fold props. rewrite (bind_Ok_intro _ _ _ _ _ Hc).
    rewrite (bind_Ok_intro _ _ _ _ _ Htake). cbv zeta. fold ipf.
    rewrite Hownf. unfold create_or_update. by rewrite Hcons.
  - intros name Hin.
    apply list_elem_of_In, in_map_iff in Hin as (np & <- & Hnp%list_elem_of_In).
    unfold py_getattr. cbn [e_cls e_values fst]. fold props.
    rewrite (elem_get _ (snd np)); [|done|by destruct np].
    rewrite (set_attributes_lookup E cls _ _ _ Hset) by done.
    rewrite (Hipf np Hnp). unfold value_or_default. by destruct (get np.1 values).
Qed.

End RoundTripTheorem.

Lemma encode_decode_round_trip_witness :
  (exists json w1 decoded w2,
     json_encode Example.env RECURSION_LIMIT (VModel Example.p1) Example.w0
     = (Ok json, w1)
     /\ _build_model_from_data Example.env None Example.Post json None w1
        = (Ok decoded, w2)
     /\ e_cls (fst decoded) = Example.Post
     /\ forall name, name ∈ Dict.keys (_properties Example.Post) ->
          py_getattr (fst decoded) name = py_getattr Example.p1 name)
  /\ fst (json_encode Example.env RECURSION_LIMIT (VModel Example.p1) Example.w0)
     = Ok (VDict [("created", VStr "2013-01-01T00:00:00"); ("author", VStr "kU");
                  ("tags", VList [VStr "x"; VStr "y"]); ("title", VStr "a");
                  ("id", VStr "kP")]).
Proof.
  split; [|vm_compute; reflexivity].
  assert (forall (s : gset string) k, in_set s k = true -> k ∈ s) as Hin.
  { intros s k. apply bool_decide_eq_true_1. }
  assert (forall (x : string) (l : list string),
            bool_decide (x ∉ l) = true -> x ∉ l) as Hnin.
  { intros x l. apply bool_decide_eq_true_1. }
  apply (encode_decode_round_trip Example.env None Example.Post Example.kP
           [("name", VStr "a"); ("created", VDateTime 0);
            ("author", VKey Example.kU); ("tags", VList [VStr "x"; VStr "y"])]
           RECURSION_LIMIT Example.w0).
  - apply (bool_decide_unpack _). vm_compute. exact I.
  - apply Hnin. vm_compute. reflexivity.
  - intros name H. vm_compute in H.
    repeat (apply elem_of_cons in H as [->|H]);
      try solve [split; apply Hin; vm_compute; reflexivity].
    by apply elem_of_nil in H.
  - apply (translation_inverts_table [("name", "title")]).
    + apply (bool_decide_unpack _). vm_compute. exact I.
    + apply (bool_decide_unpack _). vm_compute. exact I.
    + intros n H. vm_compute in H. apply elem_of_cons in H as [->|H];
        [|by apply elem_of_nil in H].
      repeat split; [apply Hnin; vm_compute; reflexivity|discriminate|
                     apply Hnin; vm_compute; reflexivity].
    + apply Hnin. vm_compute. reflexivity.
    + apply Hnin. vm_compute. reflexivity.
  - by left.
  - intros np H. vm_compute in H.
    repeat (apply elem_of_cons in H as [->|H]);
      try solve [vm_compute; repeat split; try reflexivity; repeat constructor].
    by apply elem_of_nil in H.
  - apply Nat.leb_le. vm_compute. reflexivity.
Defined.

(** The claim as stated fails for a property the model keeps out of the
    output: the JSON of the account does not hold the password, and the
    instance decoded from it has none. *)
Lemma excluded_output_property_is_lost :
  json_encode Example.env RECURSION_LIMIT (VModel Example.acc1) Example.w0
  = (Ok (VDict [("login", VStr "u"); ("id", VStr "kAcc")]), Example.w0)
  /\ _build_model_from_data Example.env None Example.Account
       (VDict [("login", VStr "u"); ("id", VStr "kAcc")]) None Example.w0
     = (Ok (Entity Example.Account None [("login", VStr "u")],
            VDict [("login", VStr "u"); ("id", VStr "kAcc")]), Example.w0)
  /\ py_getattr (Entity Example.Account None [("login", VStr "u")]) "password"
     = Ok VNone
  /\ py_getattr Example.acc1 "password" = Ok (VStr "s").
Proof. repeat split; vm_compute; reflexivity. Qed.

(** A [date] value is not a [datetime]: the encoder hands it to
    [JSONEncoder.default], which raises, although [_value_to_property] reads
    a [DateProperty] from text. *)
Lemma date_value_is_not_encoded :
  fst (json_encode Example.env RECURSION_LIMIT
         (VModel (Entity Example.Event (Some Example.kE)
                    [("day", VDate 0); ("at", VDateTime 0)])) Example.w0)
  = Raise (Exn TypeError "is not JSON serializable").
Proof. vm_compute. reflexivity. Qed.

(** A [datetime] property that is not set is encoded as [null], and the
    decoder hands [None] to the parser, which raises. *)
Lemma unset_datetime_is_not_decoded :
  json_encode Example.env RECURSION_LIMIT
    (VModel (Entity Example.Event (Some Example.kE) [])) Example.w0
  = (Ok (VDict [("day", VNone); ("at", VNone); ("id", VStr "kE")]), Example.w0)
  /\ fst (_build_model_from_data Example.env None Example.Event
            (VDict [("day", VNone); ("at", VNone); ("id", VStr "kE")]) None
            Example.w0)
     = Raise (Exn AttributeError "read").
Proof. split; vm_compute; reflexivity. Qed.

(* ===================================================================== *)
(** * What the handlers do to the datastore *)
(* ===================================================================== *)

Section KeepsStore.
Context (E : Env).

Lemma keeps_world_store {A} (m : M A) : keeps_world m -> keeps_store m.
Proof. intros Hm w r w' Hr. by rewrite (Hm w r w' Hr). Qed.

Lemma keeps_world_ret {A} (a : A) : keeps_world (ret a).
Proof. by intros w r w' [= _ <-]. Qed.

Lemma keeps_world_raise {A} c msg : keeps_world (@raise A c msg).
Proof. by intros w r w' [= _ <-]. Qed.

Lemma keeps_world_lift {A} (x : result A) : keeps_world (lift x).
Proof. by intros w r w' [= _ <-]. Qed.

Lemma keeps_world_bind {A B} (m : M A) (k : A -> M B) :
  keeps_world m -> (forall a, keeps_world (k a)) -> keeps_world (bind m k).
Proof.
  intros Hm Hk w r w'. unfold bind.
  destruct (m w) as [[a|e] w1] eqn:Hmw.
  - intros Hka. rewrite (Hk a w1 r w' Hka). by apply (Hm w (Ok a)).
  - intros [= <- <-]. by apply (Hm w (Raise e)).
Qed.

Lemma keeps_store_bind {A B} (m : M A) (k : A -> M B) :
  keeps_store m -> (forall a, keeps_store (k a)) -> keeps_store (bind m k).
Proof.
  intros Hm Hk w r w'. unfold bind.
  destruct (m w) as [[a|e] w1] eqn:Hmw.
  - intros Hka. rewrite (Hk a w1 r w' Hka). by apply (Hm w (Ok a)).
  - intros [= <- <-]. by apply (Hm w (Raise e)).
Qed.

Lemma keeps_store_try_except {A} (m : M A) (handler : exn -> M A) :
  keeps_store m -> (forall e, keeps_store (handler e)) ->
  keeps_store (try_except m handler).
Proof.
  intros Hm Hh w r w'. unfold try_except.
  destruct (m w) as [[a|e] w1] eqn:Hmw.
  - intros [= <- <-]. by apply (Hm w (Ok a)).
  - intros Hhe. rewrite (Hh e w1 r w' Hhe). by apply (Hm w (Raise e)).
Qed.

Lemma keeps_store_mapM {A B} (f : A -> M B) (l : list A) :
  (forall x, x ∈ l -> keeps_store (f x)) -> keeps_store (mapM f l).
Proof.
  induction l as [|x l IH]; intros Hf; simpl.
  - apply keeps_world_store, keeps_world_ret.
  - apply keeps_store_bind; [apply Hf; by left|]. intros b.
    apply keeps_store_bind; [apply IH; intros y Hy; apply Hf; by right|].
    intros bs. apply keeps_world_store, keeps_world_ret.
Qed.

Lemma keeps_store_translate data cls dir :
  keeps_store (translate_property_names data cls dir).
Proof.
  intros w r w'. rewrite translate_property_names_eq. intros [= _ <-].
  unfold tables_after. destruct (cls_RESTMeta cls); [|done].
  by destruct (w_tables w !! cls_kind cls).
Qed.

End KeepsStore.

Section BuildKeepsStore.
Context (E : Env) (user : option entity).

Lemma keeps_store_convert_input convert prop raw :
  (forall v, keeps_store (convert prop v)) ->
  keeps_store (convert_input convert prop raw).
Proof.
  intros Hc. unfold convert_input. destruct (_repeated prop); [|apply Hc].
  apply keeps_store_bind; [apply keeps_world_store, keeps_world_lift|].
  intros items. apply keeps_store_bind.
  - apply keeps_store_mapM. intros x _. apply Hc.
  - intros vs. apply keeps_world_store, keeps_world_ret.
Qed.

Lemma keeps_store_collect convert data props acc :
  (forall np v, np ∈ props -> keeps_store (convert (snd np) v)) ->
  keeps_store (collect_input_properties convert data props acc).
Proof.
  revert acc. induction props as [|[name prop] props IH]; intros acc Hc; simpl.
  - apply keeps_world_store, keeps_world_ret.
  - apply keeps_store_bind; [apply keeps_world_store, keeps_world_lift|].
    intros given.
    assert (forall acc', keeps_store
              (collect_input_properties convert data props acc')) as Hrest.
    { intros acc'. apply IH. intros np v Hnp. apply Hc. by right. }
    destruct (negb given); [apply Hrest|].
    apply keeps_store_bind; [apply keeps_world_store, keeps_world_lift|].
    intros raw. apply keeps_store_bind; [|intros v; apply Hrest].
    apply keeps_store_convert_input. intros v.
    apply (Hc (name, prop)). by left.
Qed.

Lemma keeps_world_take_input_id meta model data ip :
  keeps_world (take_input_id meta model data ip).
Proof.
  unfold take_input_id. destruct model; [apply keeps_world_ret|].
  destruct meta as [m|]; [|apply keeps_world_ret].
  destruct (use_input_id m); [|apply keeps_world_ret].
  apply keeps_world_bind; [apply keeps_world_lift|]. intros has_id.
  destruct (negb has_id); [apply keeps_world_raise|].
  apply keeps_world_bind; [apply keeps_world_lift|]. intros id.
  apply keeps_world_ret.
Qed.

Lemma cls_depth_structured kind props meta name modelclass repeated :
  (name, Property (StructuredProperty modelclass) repeated) ∈ props ->
  (cls_depth modelclass < cls_depth (ModelClass kind props meta))%nat.
Proof.
  simpl. intros Hin. apply Nat.lt_succ_r.
  induction props as [|[n [ptype r]] props IH]; [by apply elem_of_nil in Hin|].
  apply elem_of_cons in Hin as [[= <- <- <-]|Hin]; [lia|].
  specialize (IH Hin). lia.
Qed.

(** Building a model instance from data never writes to the datastore,
    also through nested structured properties. *)
Lemma build_keeps_store cls data model :
  keeps_store (_build_model_from_data E user cls data model).
Proof.
  remember (cls_depth cls) as n eqn:Hn.
  assert (cls_depth cls <= n)%nat as Hle by lia. clear Hn.
  revert cls data model Hle.
  induction n as [|n IH]; intros cls data model Hle.
  { destruct cls. simpl in Hle. lia. }
  rewrite build_unfold.
  apply keeps_store_bind; [apply keeps_store_translate|]. intros data'.
  apply keeps_store_bind.
  - apply keeps_store_collect. intros [name [ptype repeated]] v Hnp. simpl.
    destruct ptype as [k| | | |modelclass|];
      try solve [apply keeps_world_store; destruct v; simpl;
                 repeat match goal with
                        | |- keeps_world (ret _) => apply keeps_world_ret
                        | |- keeps_world (raise _ _) => apply keeps_world_raise
                        | |- keeps_world (match ?x with _ => _ end) => destruct x
                        | |- keeps_world (if ?x then _ else _) => destruct x
                        end].
    change (_value_to_property E user
              (Property (StructuredProperty modelclass) repeated) v)
      with (bind (_build_model_from_data E user modelclass v None)
                 (fun built => ret (VModel (fst built)))).
    apply keeps_store_bind.
    + apply IH. destruct cls as [kind props meta].
      pose proof (cls_depth_structured kind props meta _ _ _ Hnp). lia.
    + intros built. apply keeps_world_store, keeps_world_ret.
  - intros ip. apply keeps_store_bind.
    + apply keeps_world_store, keeps_world_take_input_id.
    + intros ip'. cbv zeta. apply keeps_store_bind.
      * apply keeps_world_store, keeps_world_lift.
      * intros m. apply keeps_world_store, keeps_world_ret.
Qed.

End BuildKeepsStore.

Section EncoderEffects.
Context (E : Env).

Lemma keeps_store_default o : keeps_store (NDBEncoder_default E o).
Proof.
  destruct o; try (apply keeps_world_store;
                   first [apply keeps_world_ret|apply keeps_world_raise]).
  simpl. apply keeps_store_bind; [apply keeps_store_translate|]. intros d.
  destruct (e_key e); apply keeps_world_store;
    [apply keeps_world_lift|apply keeps_world_raise].
Qed.

Lemma keeps_store_json_encode fuel o : keeps_store (json_encode E fuel o).
Proof.
  revert o. induction fuel as [|fuel IH]; intros o.
  { apply keeps_world_store, keeps_world_raise. }
  destruct o; cbn -[NDBEncoder_default];
    try (apply keeps_world_store, keeps_world_ret);
    try (apply keeps_store_bind; [apply keeps_store_default|apply IH]).
  - apply keeps_store_bind; [apply keeps_store_mapM; intros x _; apply IH|].
    intros l'. apply keeps_world_store, keeps_world_ret.
  - apply keeps_store_bind.
    + apply keeps_store_mapM. intros kv _.
      apply keeps_store_bind; [apply IH|].
      intros v. apply keeps_world_store, keeps_world_ret.
    + intros d'. apply keeps_world_store, keeps_world_ret.
Qed.

(** A computation that raises no [RESTException]. *)
Lemma mapM_raises {A B} (P : exn -> Prop) (f : A -> M B) (l : list A) w e w' :
  (forall x w0 e0 w1, x ∈ l -> f x w0 = (Raise e0, w1) -> P e0) ->
  mapM f l w = (Raise e, w') -> P e.
Proof.
  revert w. induction l as [|x l IH]; intros w Hf; simpl; [done|].
  unfold bind at 1. destruct (f x w) as [[b|e0] w1] eqn:Hx.
  - unfold bind at 1. destruct (mapM f l w1) as [[bs|e1] w2] eqn:Hl; [done|].
    intros [= <- <-]. eapply IH; [|exact Hl].
    intros y w0 e2 w3 Hy. apply Hf. by right.
  - intros [= <- <-]. eapply Hf; [by left|exact Hx].
Qed.

Lemma default_not_RESTException o w e w' :
  NDBEncoder_default E o w = (Raise e, w') -> is_RESTException e = false.
Proof.
  destruct o; simpl; try by intros [= <- _].
  rewrite (bind_Ok_intro _ _ _ (VDict (rename_all Output
             (effective_table (e_cls e0) Output w)
             (Dict.filter_keys (in_set (get_included_properties (e_cls e0) Output))
                (to_dict e0)))) (tables_after (e_cls e0) Output w)).
  - destruct (e_key e0); by intros [= <- _].
  - by rewrite translate_property_names_eq, translate_loop_dict.
Qed.

Lemma json_encode_not_RESTException fuel o w e w' :
  json_encode E fuel o w = (Raise e, w') -> is_RESTException e = false.
Proof.
  revert o w e w'. induction fuel as [|fuel IH]; intros o w e w';
    [by intros [= <- _]|].
  assert (forall x, bind (NDBEncoder_default E x) (json_encode E fuel) w
                    = (Raise e, w') -> is_RESTException e = false) as Hdef.
  { intros x. unfold bind.
    destruct (NDBEncoder_default E x w) as [[y|e0] w1] eqn:Hd; [by apply IH|].
    intros [= <- <-]. by eapply default_not_RESTException. }
  destruct o; cbn -[NDBEncoder_default]; try done; try apply Hdef.
  - unfold bind at 1.
    destruct (mapM (json_encode E fuel) l w) as [[l'|e0] w1] eqn:Hl; [done|].
    intros [= <- <-].
    eapply (mapM_raises (fun e => is_RESTException e = false)); [|exact Hl].
    intros x w0 e1 w2 _. apply IH.
  - unfold bind at 1.
    destruct (mapM _ d w) as [[d'|e0] w1] eqn:Hd; [done|].
    intros [= <- <-].
    eapply (mapM_raises (fun e => is_RESTException e = false)); [|exact Hd].
    intros kv w0 e1 w2 _. unfold bind.
    destruct (json_encode E fuel (snd kv) w0) as [[v|e2] w3] eqn:Hv; [done|].
    intros [= <- <-]. by eapply IH.
Qed.

End EncoderEffects.

Section SaveFacts.
Context (E : Env).
Import Dict DictFacts KeysFacts.

(** The identifier the datastore allocates names no stored entity. *)
Lemma allocate_id_fresh (store : gmap Key entity) kind :
  store !! MkKey kind (IntId (allocate_id store)) = None.
Proof.
  unfold allocate_id.
  set (f := fun (k : Key) (_ : entity) (acc : Z) =>
              match key_ident k with IntId n => Z.max n acc | StrId _ => acc end).
  assert (forall k e n, store !! k = Some e -> key_ident k = IntId n ->
                        n <= map_fold f 0 store) as Hbound.
  { apply (map_fold_weak_ind
             (fun r (m : gmap Key entity) =>
                forall k e n, m !! k = Some e -> key_ident k = IntId n -> n <= r)).
    - intros k e n Hk. by rewrite lookup_empty in Hk.
    - intros i x m r Hi IH k e n Hk Hn. unfold f.
      destruct (decide (i = k)) as [->|Hne].
      + rewrite Hn. lia.
      + rewrite lookup_insert_ne in Hk by done.
        specialize (IH k e n Hk Hn). destruct (key_ident i); lia. }
  destruct (store !! MkKey kind (IntId (1 + map_fold f 0 store))) as [e|] eqn:Hk;
    [|done].
  specialize (Hbound _ e _ Hk eq_refl). lia.
Qed.

Lemma wrap_exception_Raise {A} prefix (m : M A) w e w' :
  RESTHandlerClass.wrap_exception prefix m w = (Raise e, w') ->
  exists e0, m w = (Raise e0, w')
             /\ e = Exn RESTException (prefix ++ exn_msg e0).
Proof.
  unfold RESTHandlerClass.wrap_exception, try_except.
  destruct (m w) as [[x|e0] w1]; [done|]. intros [= <- <-]. by exists e0.
Qed.

(** The key of a newly constructed instance is the one its [id] names. *)
Lemma construct_key cls kwds e :
  (forall name, name ∈ keys kwds -> has name (_properties cls) = true \/ name = "id") ->
  has "id" (_properties cls) = false ->
  construct E cls kwds = Ok e ->
  match get "id" kwds with
  | Some v => key_of_id (cls_kind cls) v = Ok (e_key e)
  | None => e_key e = None
  end.
Proof.
  intros Hall Hid. rewrite construct_with_id by done.
  destruct (get "id" kwds) as [v|].
  - destruct (key_of_id (cls_kind cls) v) as [k|]; [|done]. simpl.
    destruct (_set_attributes _ _ _ _); [|done]. by intros [= <-].
  - simpl. destruct (_set_attributes _ _ _ _); [|done]. by intros [= <-].
Qed.

(** The keywords of a construction: names that were collected, and the
    owner property. *)
Lemma collect_keys_nil convert data props w ip w' name :
  collect_input_properties convert data props [] w = (Ok ip, w') ->
  name ∈ keys ip -> name ∈ keys props.
Proof.
  intros Hcol Hin. destruct (decide (name ∈ keys props)) as [|Hn]; [done|].
  exfalso. apply get_None_not_in in Hin; [done|].
  by rewrite (collect_frame _ _ _ _ _ _ _ name Hcol).
Qed.

Lemma kwds_names cls model user p ip name :
  (forall m o, cls_RESTMeta cls = Some m -> user_owner_property m = Some o ->
     o ∈ keys (_properties cls)) ->
  name ∈ keys (set_user_owner (cls_RESTMeta cls) model user (filter_keys p ip)) ->
  has name (_properties cls) = true \/ name ∈ keys ip.
Proof.
  intros Hown Hin.
  assert (name ∈ keys (filter_keys p ip) -> name ∈ keys ip) as Hfil.
  { intros Hf. destruct (decide (name ∈ keys ip)) as [|Hn]; [done|].
    exfalso. apply get_None_not_in in Hf; [done|].
    rewrite get_filter_keys. destruct (p name); [|done]. by apply get_None_not_in. }
  unfold set_user_owner in Hin.
  destruct (cls_RESTMeta cls) as [m|] eqn:Hm; [|by right; apply Hfil].
  destruct (user_owner_property m) as [o|] eqn:Ho; [|by right; apply Hfil].
  destruct model; [by right; apply Hfil|].
  destruct user; [|by right; apply Hfil].
  apply elem_of_keys_set in Hin as [->|Hin]; [|by right; apply Hfil].
  left. apply elem_of_keys_has. by eapply Hown.
Qed.

(** Build, callback, put: what the three steps of a POST and of a PUT do to
    the datastore. *)
Lemma build_put_cases user cls
    (cb : option (entity -> pyval -> result entity)) data model w r w' :
  (let! built := _build_model_from_data E user cls data model in
   let! m :=
     (match cb with
      | Some callback => lift (callback (fst built) (snd built))
      | None => ret (fst built)
      end) in
   model_put E m)%py w = (r, w') ->
  match r with
  | Raise _ => w_store w' = w_store w
  | Ok m' =>
      exists built w1 m1 k,
        _build_model_from_data E user cls data model w = (Ok built, w1)
        /\ match cb with
           | Some callback => callback (fst built) (snd built) = Ok m1
           | None => m1 = fst built
           end
        /\ m' = Entity (e_cls m1) (Some k) (e_values m1)
        /\ match e_key m1 with
           | Some k0 => k = k0
           | None => w_store w !! k = None
           end
        /\ w_store w' = <[k := m']> (w_store w)
  end.
Proof.
  unfold bind at 1.
  destruct (_build_model_from_data E user cls data model w) as [[built|e] w1] eqn:Hb.
  2:{ intros [= <- <-]. by eapply build_keeps_store. }
  pose proof (build_keeps_store E user cls data model _ _ _ Hb) as Hs.
  assert (forall m1, model_put E m1 w1 = (r, w') ->
            match r with
            | Raise _ => w_store w' = w_store w
            | Ok m' =>
                exists k, m' = Entity (e_cls m1) (Some k) (e_values m1)
                  /\ match e_key m1 with
                     | Some k0 => k = k0
                     | None => w_store w !! k = None
                     end
                  /\ w_store w' = <[k := m']> (w_store w)
            end) as Hput.
  { intros m1. unfold model_put. destruct (put_error E m1); [by intros [= <- <-]|].
    intros [= <- <-]. simpl. rewrite Hs.
    eexists. split; [done|]. split; [|done].
    destruct (e_key m1); [done|]. apply allocate_id_fresh. }
  destruct cb as [callback|].
  - unfold bind, lift. destruct (callback (fst built) (snd built)) as [m1|e] eqn:Hcb.
    + intros Hp. apply Hput in Hp. destruct r as [m'|]; [|done].
      destruct Hp as (k & ? & ? & ?). by exists built, w1, m1, k.
    + by intros [= <- <-].
  - unfold bind, ret. intros Hp. apply Hput in Hp. destruct r as [m'|]; [|done].
    destruct Hp as (k & ? & ? & ?). by exists built, w1, (fst built), k.
Qed.

End SaveFacts.

(* ===================================================================== *)
(** * Batch PUT: one transaction, one attempt (C1) *)
(* ===================================================================== *)

Section BatchPut.
Context (E : Env) (H : Self.handler) (R : request).
Import Dict DictFacts KeysFacts.
Local Abbreviation update_model := (RESTHandlerClass.update_model E H R).
Local Abbreviation update_each := (RESTHandlerClass.update_each E H R).

Lemma transactional_once {A} (callback : M A) w :
  ndb_transactional E 0 callback w
  = match callback w with
    | (Raise e, w1) => (Raise e, rolled_back w w1)
    | (Ok a, w1) =>
        if commit_succeeds E 0 then (Ok a, w1)
        else (Raise (Exn TransactionFailedError "The transaction could not be committed"),
              rolled_back w w1)
    end.
Proof.
  unfold ndb_transactional. simpl.
  destruct (callback w) as [[a|e] w1]; [|done]. by destruct (commit_succeeds E 0).
Qed.

(** The loop of the batch is the course of its elements. *)
Lemma update_each_cases permission models acc w :
  match update_each permission models acc w with
  | (Ok all, w1) =>
      exists updated,
        all = (acc ++ updated)%list
        /\ batch_course (update_model permission) models w updated w1
  | (Raise e, w2) =>
      exists pre bad post updated w1,
        models = (pre ++ bad :: post)%list
        /\ batch_course (update_model permission) pre w updated w1
        /\ update_model permission bad w1 = (Raise e, w2)
  end.
Proof.
  revert acc w. induction models as [|x xs IH]; intros acc w; simpl.
  - exists []. split; [by rewrite app_nil_r|constructor].
  - unfold bind. destruct (update_model permission x w) as [[m|e] w1] eqn:Hx.
    + specialize (IH (acc ++ [m])%list w1).
      destruct (update_each permission xs (acc ++ [m])%list w1) as [[all|e] w2].
      * destruct IH as (updated & -> & Hc). exists (m :: updated).
        split; [by rewrite <- app_assoc|]. by econstructor.
      * destruct IH as (pre & bad & post & updated & w3 & -> & Hc & Hbad).
        exists (x :: pre), bad, post, (m :: updated), w3.
        split; [done|]. split; [by econstructor|done].
    + exists [], x, xs, [], w. split; [done|]. split; [constructor|done].
Qed.

Lemma course_update_each permission models w updated w1 acc :
  batch_course (update_model permission) models w updated w1 ->
  update_each permission models acc w = (Ok (acc ++ updated)%list, w1).
Proof.
  intros Hc. revert acc.
  induction Hc as [w|x xs w m w1 ms w' Hx Hc IH]; intros acc; simpl.
  - by rewrite app_nil_r.
  - unfold bind. rewrite Hx, IH. by rewrite <- app_assoc.
Qed.

Lemma course_fails permission pre bad post w updated w1 e w2 acc :
  batch_course (update_model permission) pre w updated w1 ->
  update_model permission bad w1 = (Raise e, w2) ->
  update_each permission (pre ++ bad :: post) acc w = (Raise e, w2).
Proof.
  intros Hc Hbad. revert acc.
  induction Hc as [w|x xs w m w1 ms w' Hx Hc IH]; intros acc; simpl.
  - unfold bind. by rewrite Hbad.
  - unfold bind. rewrite Hx. by apply IH.
Qed.

Lemma put_batch_eq models permission w :
  body R = Some (VList models) ->
  get "PUT" (Self.permissions H) = Some permission ->
  RESTHandlerClass.put E H R None w
  = match update_each permission models [] w with
    | (Raise e, w1) => (Raise e, rolled_back w w1)
    | (Ok a, w1) =>
        if commit_succeeds E 0
        then (Ok (VList (map VModel (map (RESTHandlerClass.current_instance w1) a))), w1)
        else (Raise (Exn TransactionFailedError "The transaction could not be committed"),
              rolled_back w w1)
    end.
Proof.
  intros Hbody Hp. unfold RESTHandlerClass.put. rewrite Hbody.
  unfold bind at 1. unfold RESTHandlerClass._multi_update_models.
  rewrite transactional_once.
  unfold RESTHandlerClass.permission_of. rewrite Hp.
  rewrite (bind_Ok_intro (ret permission) _ w permission w eq_refl).
  unfold bind at 1.
  destruct (update_each permission models [] w) as [[a|e] w1]; [|done].
  unfold bind, get_world, ret. by destruct (commit_succeeds E 0).
Qed.

(** The identifier of an element resolves without a change of the state. *)
Lemma model_id_to_model_world model_id w r w' :
  _model_id_to_model E H model_id w = (r, w') -> w' = w.
Proof.
  intros Hm.
  destruct (model_id_to_model_cases E H model_id w) as [[m Hx]|[msg Hx]];
    rewrite Hx in Hm; by injection Hm.
Qed.

(** An element of the batch up to its update: the identifier, the entity it
    resolves to and the owner check. *)
Lemma update_model_eq permission x w id target :
  py_contains "id" x = Ok true -> py_getitem x "id" = Ok id ->
  _model_id_to_model E H id w = (Ok target, w) ->
  (permission = PERMISSION_OWNER_USER ->
   RESTHandlerClass.not_owned E H R target = Ok false) ->
  update_model permission x w
  = RESTHandlerClass.wrap_exception "Invalid JSON PUT data - "
      (let! built := _build_model_from_data E (user R) (Self.model H) x target in
       let! model :=
         (match Self.put_callback H with
          | Some callback => lift (callback (fst built) (snd built))
          | None => ret (fst built)
          end) in
       model_put E model) w.
Proof.
  intros Hc Hg Hm Hown. unfold RESTHandlerClass.update_model.
  rewrite (bind_Ok_intro _ _ w true w) by (unfold lift; by rewrite Hc).
  cbn [negb].
  rewrite (bind_Ok_intro _ _ w id w) by (unfold lift; by rewrite Hg).
  rewrite (bind_Ok_intro _ _ _ _ _ Hm).
  rewrite (bind_Ok_intro _ _ w false w); [done|].
  case_bool_decide as Hp; [|done]. unfold lift. by rewrite (Hown Hp).
Qed.

(** An element of the batch that is updated. *)
Lemma update_model_Ok permission x w e w1 :
  update_model permission x w = (Ok e, w1) ->
  exists id target built wb m1 k,
    py_contains "id" x = Ok true /\ py_getitem x "id" = Ok id
    /\ _model_id_to_model E H id w = (Ok target, w)
    /\ (permission = PERMISSION_OWNER_USER ->
        RESTHandlerClass.not_owned E H R target = Ok false)
    /\ _build_model_from_data E (user R) (Self.model H) x target w = (Ok built, wb)
    /\ match Self.put_callback H with
       | Some callback => callback (fst built) (snd built) = Ok m1
       | None => m1 = fst built
       end
    /\ e = Entity (e_cls m1) (Some k) (e_values m1)
    /\ match e_key m1 with
       | Some k0 => k = k0
       | None => w_store w !! k = None
       end
    /\ w_store w1 = <[k := e]> (w_store w).
Proof.
  unfold RESTHandlerClass.update_model. unfold bind at 1. unfold lift at 1.
  destruct (py_contains "id" x) as [has_id|e0] eqn:Hc; [|done].
  destruct has_id; cbn [negb]; [|done].
  unfold bind at 1. unfold lift at 1.
  destruct (py_getitem x "id") as [id|e0] eqn:Hg; [|done].
  unfold bind at 1.
  destruct (_model_id_to_model E H id w) as [[target|e0] w2] eqn:Hm; [|done].
  pose proof (model_id_to_model_world _ _ _ _ Hm) as ->.
  unfold bind at 1.
  destruct ((if bool_decide (permission = PERMISSION_OWNER_USER)
             then lift (RESTHandlerClass.not_owned E H R target)
             else ret false) w) as [[denied|e0] w3] eqn:Hd; [|done].
  assert (w3 = w /\ (permission = PERMISSION_OWNER_USER ->
                     RESTHandlerClass.not_owned E H R target = Ok denied))
    as [-> Hden].
  { case_bool_decide as Hp.
    - unfold lift in Hd. destruct (RESTHandlerClass.not_owned E H R target); [|done].
      by injection Hd as <- <-.
    - by injection Hd as <- <-. }
  destruct denied; [done|].
  intros Hw. apply wrap_exception_Ok, (build_put_cases E) in Hw
    as (built & wb & m1 & k & Hb & Hm1 & -> & Hk & Hs).
  by exists id, target, built, wb, m1, k.
Qed.


End BatchPut.


(* ===================================================================== *)
(** * Ownership after creation (C2) *)
(* ===================================================================== *)

Section OwnershipOnce.
Context (E : Env).
Import Dict DictFacts KeysFacts.

(** C2 (as amended).  For a model that declares an owner property which is
    one of its properties, and handlers without callbacks: the entity a POST
    under principal [u] stores has the key of [u] as its owner.  A PUT that
    addresses an existing entity stores, under the key of that entity, an
    entity whose owner is the prior owner when the payload (after the input
    name translation) does not name the owner property or the property is
    not accepted as input, and the conversion of the payload's value when it
    does and is.  A batch PUT that returns has updated every element in its
    turn, and every element that resolves to an existing entity obeys the
    same rule. *)
Theorem ownership_set_at_creation (H : Self.handler) (m : RESTMeta) (o : string) :
  cls_RESTMeta (Self.model H) = Some m -> user_owner_property m = Some o ->
  o ∈ keys (_properties (Self.model H)) ->
  (forall R u w v w',
      user R = Some u -> Self.post_callback H = None ->
      RESTHandlerClass.post E H R None w = (Ok v, w') ->
      exists e k, v = VModel e /\ e_key e = Some k /\ w_store w' !! k = Some e
                  /\ get o (e_values e) = Some (key_value (e_key u)))
  /\ (forall R existing w v w',
        Self.put_callback H = None ->
        RESTHandlerClass.put E H R (Some existing) w = (Ok v, w') ->
        exists e k json payload,
          v = VModel e /\ e_key e = Some k /\ w_store w' !! k = Some e
          /\ (forall k0, e_key existing = Some k0 -> k = k0)
          /\ body R = Some json
          /\ translate_loop Input (effective_table (Self.model H) Input w) json
             = Ok payload
          /\ owner_after_update E (user R) (Self.model H) o existing e payload)
  /\ (forall R permission models w v w',
        Self.put_callback H = None ->
        body R = Some (VList models) ->
        get "PUT" (Self.permissions H) = Some permission ->
        RESTHandlerClass.put E H R None w = (Ok v, w') ->
        exists updated,
          batch_course (RESTHandlerClass.update_model E H R permission)
            models w updated w'
          /\ v = VList (map VModel
                          (map (RESTHandlerClass.current_instance w') updated)))
  /\ (forall R permission x w e w',
        Self.put_callback H = None ->
        RESTHandlerClass.update_model E H R permission x w = (Ok e, w') ->
        exists id target k payload,
          py_getitem x "id" = Ok id
          /\ _model_id_to_model E H id w = (Ok target, w)
          /\ e_key e = Some k /\ w_store w' = <[k := e]> (w_store w)
          /\ translate_loop Input (effective_table (Self.model H) Input w) x
             = Ok payload
          /\ forall existing,
               target = Some existing ->
               (forall k0, e_key existing = Some k0 -> k = k0)
               /\ owner_after_update E (user R) (Self.model H) o existing e payload).
Proof.
  intros Hmeta Howner Hprop. split; [|split; [|split]].
  - intros R u w v w' Hu Hcb. unfold RESTHandlerClass.post.
    destruct (body R) as [json|]; [|done]. intros Hp. inv_M.
    apply wrap_exception_Ok, (build_put_cases E) in Hm
      as (built & w1 & m1 & k & Hb & Hm1 & -> & Hk & Hs).
    rewrite Hcb in Hm1. subst m1. eexists _, k.
    split; [done|]. split; [done|]. split; [by rewrite Hs, lookup_insert_eq|].
    simpl. rewrite Hu in Hb.
    by apply (build_create_owner E (Some u) _ m o u _ _ _ _ Hmeta Howner Hprop eq_refl Hb).
  - intros R existing w v w' Hcb. unfold RESTHandlerClass.put.
    destruct (body R) as [json|]; [|done]. intros Hp. inv_M.
    apply wrap_exception_Ok, (build_put_cases E) in Hm
      as (built & w1 & m1 & k & Hb & Hm1 & -> & Hk & Hs).
    rewrite Hcb in Hm1. subst m1.
    pose proof (build_update_owner E _ _ o _ _ _ _ _ Hprop Hb) as Hrule.
    pose proof (build_update_lookup _ _ _ _ _ _ _ _ o Hb) as (_ & Hkey & _).
    apply build_inv in Hb as (_ & _ & _ & Htr & _).
    eexists _, k, json, (snd built).
    split; [done|]. split; [done|]. split; [by rewrite Hs, lookup_insert_eq|].
    split; [|done]. intros k0 Hk0. rewrite Hkey, Hk0 in Hk. done.
  - intros R permission models w v w' _ Hbody Hp.
    rewrite (put_batch_eq E H R models permission w Hbody Hp).
    pose proof (update_each_cases E H R permission models [] w) as Hc.
    destruct (RESTHandlerClass.update_each E H R permission models [] w)
      as [[all|e] w1]; [|done].
    destruct Hc as (updated & -> & Hc).
    destruct (commit_succeeds E 0); [|done]. intros [= <- <-]. by exists updated.
  - intros R permission x w e w' Hcb Hx.
    apply update_model_Ok in Hx
      as (id & target & built & wb & m1 & k & _ & Hg & Hm & _ & Hb & Hm1 & -> & Hk & Hs).
    rewrite Hcb in Hm1. subst m1.
    exists id, target, k, (snd built).
    split; [done|]. split; [done|]. split; [done|]. split; [done|].
    split; [by apply build_inv in Hb as (_ & _ & _ & Htr & _)|].
    intros existing ->.
    pose proof (build_update_lookup _ _ _ _ _ _ _ _ o Hb) as (_ & Hkey & _).
    split; [intros k0 Hk0; by rewrite Hkey, Hk0 in Hk|].
    by apply (build_update_owner E _ _ o _ _ _ _ _ Hprop Hb).
Qed.

End OwnershipOnce.

(** The rule at work: a POST under U stores an entity of U; a PUT by the
    admin A that does not name the owner leaves U's entity U's. *)
Lemma ownership_set_at_creation_witness :
  let H := Example.handler_with [("POST", PERMISSION_LOGGED_IN_USER);
                                 ("PUT", PERMISSION_ADMIN)] in
  (forall R u w v w',
      user R = Some u -> Self.post_callback H = None ->
      RESTHandlerClass.post Example.env H R None w = (Ok v, w') ->
      exists e k, v = VModel e /\ e_key e = Some k /\ w_store w' !! k = Some e
                  /\ Dict.get "owner" (e_values e) = Some (key_value (e_key u)))
  /\ fst (RESTHandlerClass.post Example.env H
            (Example.request_of (Some Example.eU) (Some (VDict [("name", VStr "x")])))
            None Example.w0)
     = Ok (VModel (Entity Example.MyModel (Some (MkKey "MyModel" (IntId 3)))
                     [("name", VStr "x"); ("owner", VKey Example.kU)]))
  /\ fst (RESTHandlerClass.put Example.env H
            (Example.request_of (Some Example.eA) (Some (VDict [("count", VInt 7)])))
            (Some Example.m1) Example.w0)
     = Ok (VModel (Entity Example.MyModel (Some Example.k1)
                     [("name", VStr "a"); ("owner", VKey Example.kU); ("count", VInt 7)])).
Proof.
  split; [|split; vm_compute; reflexivity].
  apply (ownership_set_at_creation Example.env
           (Example.handler_with [("POST", PERMISSION_LOGGED_IN_USER);
                                  ("PUT", PERMISSION_ADMIN)])
           (MkRESTMeta [] [] [] [] [] [] [] [] (Some "owner") false None) "owner");
    [reflexivity | reflexivity |].
  apply (bool_decide_unpack _). vm_compute. exact I.
Defined.

(** The claim as stated says no PUT ever changes the owner; a PUT whose
    payload names the owner property does: U's entity, put with V's key as
    owner, is persisted as V's. *)
Lemma put_can_change_owner :
  let H := Example.handler_with [("PUT", PERMISSION_OWNER_USER)] in
  let R := Example.request_of (Some Example.eU) (Some (VDict [("owner", VStr "kV")])) in
  let done := RESTHandlerClass.put Example.env H R (Some Example.m1) Example.w0 in
  Dict.get "owner" (e_values Example.m1) = Some (VKey Example.kU)
  /\ fst done = Ok (VModel (Entity Example.MyModel (Some Example.k1)
                              [("name", VStr "a"); ("owner", VKey Example.kV)]))
  /\ w_store (snd done) !! Example.k1
     = Some (Entity Example.MyModel (Some Example.k1)
               [("name", VStr "a"); ("owner", VKey Example.kV)])
  /\ VKey Example.kV ≠ VKey Example.kU.
Proof. repeat split; try (vm_compute; reflexivity). done. Qed.

Section HandlerOutcomes.
Context (E : Env) (H : Self.handler) (R : request).
Import Dict DictFacts KeysFacts.

Lemma keeps_world_model_id_to_model model_id :
  keeps_world (_model_id_to_model E H model_id).
Proof.
  intros w r w'.
  destruct (model_id_to_model_cases E H model_id w) as [[m ->]|[msg ->]];
    by intros [= _ <-].
Qed.

Lemma keeps_store_get_response status content :
  keeps_store (get_response E status content).
Proof.
  apply keeps_store_bind; [apply keeps_store_json_encode|].
  intros text. apply keeps_world_store, keeps_world_ret.
Qed.

(** The wrapper writes to the datastore only through the handler method. *)
Lemma keeps_store_wrapper func method_name model_id :
  (forall m, keeps_store (func m)) ->
  keeps_store (RESTHandlerClass.rest_method_wrapper E H R func method_name model_id).
Proof.
  intros Hf. unfold RESTHandlerClass.rest_method_wrapper.
  destruct (get method_name (Self.permissions H)) as [p|];
    [|apply keeps_store_get_response].
  destruct (_ && _)%bool; [apply keeps_store_get_response|].
  apply keeps_store_bind.
  { destruct (bool_decide _); apply keeps_world_store;
      [|apply keeps_world_ret].
    apply keeps_world_bind; [apply keeps_world_lift|].
    intros a. apply keeps_world_ret. }
  intros not_admin. destruct not_admin; [apply keeps_store_get_response|].
  apply keeps_store_try_except.
  - destruct (negb _).
    + apply keeps_store_bind;
        [apply keeps_world_store, keeps_world_model_id_to_model|].
      intros m. apply keeps_store_bind.
      { destruct (bool_decide _); apply keeps_world_store;
          [apply keeps_world_lift|apply keeps_world_ret]. }
      intros denied. destruct denied; [apply keeps_store_get_response|].
      apply keeps_store_bind; [apply Hf|].
      intros v. apply keeps_store_get_response.
    + apply keeps_store_bind; [apply Hf|].
      intros v. apply keeps_store_get_response.
  - intros e. destruct (is_RESTException e);
      [apply keeps_store_get_response|apply keeps_world_store, keeps_world_lift].
Qed.

Lemma keeps_world_fetch_query q : keeps_world (_fetch_query E R q).
Proof.
  intros w r w'. pose proof (fetch_query_cases E R q w) as Hc.
  destruct (page_limit E R); [destruct Hc as [_ Hc]|].
  2:{ destruct Hc as [msg ->]. by intros [= _ <-]. }
  destruct (page_cursor E R).
  2:{ destruct Hc as [msg ->]. by intros [= _ <-]. }
  destruct (fetch_page _ _ _ _ _) as [[[rs nx] more]|e].
  - rewrite Hc. by intros [= _ <-].
  - destruct (exn_cls e); try (rewrite Hc; by intros [= _ <-]).
    destruct Hc as [msg ->]. by intros [= _ <-].
Qed.

Lemma keeps_world_get model : keeps_world (RESTHandlerClass.get E H R model).
Proof.
  unfold RESTHandlerClass.get. destruct model as [m|].
  { destruct (Self.get_callback H); [apply keeps_world_lift|apply keeps_world_ret]. }
  apply keeps_world_bind.
  { unfold _filter_query. destruct (GET_param R "q") as [q|]; [|apply keeps_world_ret].
    destruct (gql_where E q); [apply keeps_world_ret|apply keeps_world_raise]. }
  intros q. apply keeps_world_bind.
  { unfold RESTHandlerClass.permission_of.
    destruct (get "GET" _); [apply keeps_world_ret|apply keeps_world_raise]. }
  intros p. apply keeps_world_bind.
  { destruct (bool_decide _); [|apply keeps_world_ret].
    apply keeps_world_bind; [apply keeps_world_lift|]. intros o.
    destruct (class_getattr _ _ _) as [a|]; [|apply keeps_world_raise].
    apply keeps_world_bind; [apply keeps_world_lift|]. intros k.
    destruct a as [prop| |]; [|apply keeps_world_ret|apply keeps_world_raise].
    destruct k as [key|]; [|apply keeps_world_ret].
    destruct (validate E prop (VKey key));
      [apply keeps_world_ret|apply keeps_world_raise]. }
  intros q'. apply keeps_world_bind.
  { unfold _order_query. destruct (GET_param R "order"); [|apply keeps_world_ret].
    destruct (parse_orders _ _ _) as [os|exc]; [apply keeps_world_lift|].
    destruct (exn_cls exc); first [apply keeps_world_raise|apply keeps_world_lift]. }
  intros q''. apply keeps_world_bind; [apply keeps_world_fetch_query|].
  intros page. apply keeps_world_bind.
  { destruct (Self.get_callback H); [apply keeps_world_lift|apply keeps_world_ret]. }
  intros results. apply keeps_world_ret.
Qed.

(** GET and OPTIONS requests never change the datastore, whatever they are
    answered: the handler methods leave the state as it is, and the encoding
    of the answer writes at most to the translation tables. *)
Theorem get_and_options_are_read_only (model_id : string) (w : world) :
  w_store (snd (RESTHandlerClass.rest_method_wrapper E H R
                  (RESTHandlerClass.get E H R) "GET" model_id w)) = w_store w
  /\ w_store (snd (RESTHandlerClass.rest_method_wrapper E H R
                     RESTHandlerClass.options "OPTIONS" model_id w)) = w_store w
  /\ (forall model, snd (RESTHandlerClass.get E H R model w) = w).
Proof.
  split; [|split].
  - destruct (RESTHandlerClass.rest_method_wrapper _ _ _ _ _ _ _) as [r w'] eqn:Hr.
    eapply keeps_store_wrapper; [|exact Hr].
    intros m. apply keeps_world_store, keeps_world_get.
  - destruct (RESTHandlerClass.rest_method_wrapper _ _ _ _ _ _ _) as [r w'] eqn:Hr.
    eapply keeps_store_wrapper; [|exact Hr].
    intros m. apply keeps_world_store, keeps_world_ret.
  - intros model. destruct (RESTHandlerClass.get E H R model w) as [r w'] eqn:Hr.
    by eapply keeps_world_get.
Qed.

End HandlerOutcomes.

Section WriteOutcomes.
Context (E : Env) (H : Self.handler) (R : request).
Import Dict DictFacts KeysFacts.

(** POST.  Every failure of the handler method is a [RESTException] and
    leaves the datastore as it was; a success is a request without an
    addressed entity and writes exactly one entry, the returned entity under
    its key. *)
Theorem post_outcomes (model : option entity) (w : world) :
  (forall e w', RESTHandlerClass.post E H R model w = (Raise e, w') ->
     is_RESTException e = true /\ w_store w' = w_store w)
  /\ (forall v w', RESTHandlerClass.post E H R model w = (Ok v, w') ->
        model = None
        /\ exists e k, v = VModel e /\ e_key e = Some k
                       /\ w_store w' = <[k := e]> (w_store w)).
Proof.
  unfold RESTHandlerClass.post. destruct model as [m|].
  { split; [by intros e w' [= <- <-]|done]. }
  destruct (body R) as [json|]; [|split; [by intros e w' [= <- <-]|done]].
  split.
  - intros e w'. unfold bind at 1.
    destruct (RESTHandlerClass.wrap_exception _ _ w) as [[m|e0] w1] eqn:Hw; [done|].
    intros [= <- <-]. apply wrap_exception_Raise in Hw as (e1 & Hb & ->).
    split; [done|]. by apply (build_put_cases E) in Hb.
  - intros v w' Hp. split; [done|]. inv_M.
    apply wrap_exception_Ok, (build_put_cases E) in Hm
      as (built & w1 & m1 & k & _ & _ & -> & _ & Hs).
    by eexists _, k.
Qed.

(** Without client-supplied identifiers, for a model without a property
    [id] and whose owner property, if it declares one, is one of its
    properties, a POST stores a new entity: its key named nothing before, so
    every entity that was stored stays as it was. *)
Theorem post_creates_new_entity (w : world) (v : pyval) (w' : world) :
  Self.post_callback H = None ->
  model_use_input_id H = false ->
  ("id" ∉ keys (_properties (Self.model H))) ->
  (forall m o, cls_RESTMeta (Self.model H) = Some m -> user_owner_property m = Some o ->
     o ∈ keys (_properties (Self.model H))) ->
  RESTHandlerClass.post E H R None w = (Ok v, w') ->
  exists e k, v = VModel e /\ e_key e = Some k
              /\ w_store w !! k = None
              /\ w_store w' = <[k := e]> (w_store w)
              /\ forall k0 e0, w_store w !! k0 = Some e0 -> w_store w' !! k0 = Some e0.
Proof.
  intros Hcb Huse Hid Hown. unfold RESTHandlerClass.post.
  destruct (body R) as [json|]; [|done]. intros Hp. inv_M.
  apply wrap_exception_Ok, (build_put_cases E) in Hm
    as (built & w1 & m1 & k & Hb & Hm1 & -> & Hk & Hs).
  rewrite Hcb in Hm1. subst m1.
  assert (e_key (fst built) = None) as Hnone.
  { apply build_inv in Hb as (collected & ip & w2 & _ & Hcol & Htake & Hcons).
    apply take_input_id_cases in Htake as [_ [->|(m & id & _ & Hmeta & Hu & _)]].
    2:{ unfold model_use_input_id in Huse. rewrite Hmeta in Huse. congruence. }
    simpl in Hcons. rewrite construct_properties in Hcons.
    { destruct (_set_attributes _ _ _ _); [|done]. by injection Hcons as <-. }
    intros name Hin. apply (kwds_names _ _ _ _ _ _ Hown) in Hin as [Hin|Hin]; [done|].
    apply elem_of_keys_has. by eapply collect_keys_nil. }
  rewrite Hnone in Hk. eexists _, k. repeat split; try done.
  intros k0 e0 Hk0. rewrite Hs, lookup_insert_ne; [done|]. by intros ->; congruence.
Qed.

(** With client-supplied identifiers, for a model without a property [id]
    that accepts [id] as input and whose owner property, if it declares one,
    is one of its properties, a POST writes the new entity under the key the
    payload's [id] names, and does not look at what that key held: a
    non-empty string names the key of that name, a positive number the key of
    that number ([true] is the number 1, [false] the number 0); for the number
    0, the empty string and [None] the datastore allocates a new key; and
    with any other [id] the POST fails. *)
Theorem post_with_input_id_writes_named_key (m : RESTMeta) (w : world)
    (v : pyval) (w' : world) :
  cls_RESTMeta (Self.model H) = Some m -> use_input_id m = true ->
  ("id" ∉ keys (_properties (Self.model H))) ->
  (forall o, user_owner_property m = Some o -> o ∈ keys (_properties (Self.model H))) ->
  ("id" ∈ get_included_properties (Self.model H) Input) ->
  Self.post_callback H = None ->
  RESTHandlerClass.post E H R None w = (Ok v, w') ->
  exists json payload id e,
    body R = Some json
    /\ translate_loop Input (effective_table (Self.model H) Input w) json = Ok payload
    /\ py_getitem payload "id" = Ok id
    /\ v = VModel e
    /\ w_store w' = <[default (MkKey "" (IntId 0)) (e_key e) := e]> (w_store w)
    /\ match id with
       | VStr s =>
           if String.eqb s "" then exists k, e_key e = Some k /\ w_store w !! k = None
           else e_key e = Some (MkKey (cls_kind (Self.model H)) (StrId s))
       | VInt n =>
           0 <= n
           /\ if n =? 0 then exists k, e_key e = Some k /\ w_store w !! k = None
              else e_key e = Some (MkKey (cls_kind (Self.model H)) (IntId n))
       | VBool b =>
           if b then e_key e = Some (MkKey (cls_kind (Self.model H)) (IntId 1))
           else exists k, e_key e = Some k /\ w_store w !! k = None
       | VNone => exists k, e_key e = Some k /\ w_store w !! k = None
       | _ => False
       end.
Proof.
  intros Hmeta Huse Hnoid Howner Hincl Hcb. unfold RESTHandlerClass.post.
  destruct (body R) as [json|]; [|done]. intros Hp. inv_M.
  apply wrap_exception_Ok, (build_put_cases E) in Hm
    as (built & w1 & m1 & k & Hb & Hm1 & -> & Hk & Hs).
  rewrite Hcb in Hm1. subst m1.
  apply build_inv in Hb as (collected & ip & w2 & Htr & Hcol & Htake & Hcons).
  assert (exists id, py_getitem (snd built) "id" = Ok id /\ ip = set "id" id collected)
    as (id & Hid & ->).
  { unfold take_input_id in Htake. rewrite Hmeta, Huse in Htake. inv_M.
    destruct (negb a); [done|]. inv_M. by eauto. }
  exists json, (snd built), id, (Entity (e_cls (fst built)) (Some k) (e_values (fst built))).
  split; [done|]. split; [done|]. split; [done|]. split; [done|]. split; [done|].
  simpl in Hcons. apply construct_key in Hcons.
  2:{ intros name Hin. apply (kwds_names (Self.model H)) in Hin as [Hin|Hin].
      - by left.
      - apply elem_of_keys_set in Hin as [->|Hin]; [by right|].
        left. apply elem_of_keys_has. by eapply collect_keys_nil.
      - intros m0 o Hm0. rewrite Hmeta in Hm0. injection Hm0 as <-. apply Howner. }
  2:{ unfold has. destruct (get "id" (_properties (Self.model H))) eqn:Hg; [|done].
      by apply get_Some_in in Hg. }
  assert (get "id" (set_user_owner (Some m) None (user R)
            (filter_keys (in_set (get_included_properties (Self.model H) Input))
               (set "id" id collected))) = Some id) as Hget.
  { assert (get "id" (filter_keys (in_set (get_included_properties (Self.model H) Input))
                        (set "id" id collected)) = Some id) as Hfil.
    { rewrite get_filter_keys. unfold in_set. rewrite bool_decide_eq_true_2 by done.
      apply get_set_eq. }
    unfold set_user_owner. destruct (user_owner_property m) as [owner|] eqn:Ho; [|done].
    destruct (user R); [|done]. rewrite get_set_ne; [done|]. intros ->.
    by apply Hnoid, Howner. }
  rewrite Hmeta, Hget in Hcons. simpl.
  assert (forall k0, e_key (fst built) = Some k0 -> Some k = Some k0) as Hnamed.
  { intros k0 Hk0. rewrite Hk0 in Hk. by subst. }
  assert (e_key (fst built) = None ->
          exists k1, Some k = Some k1 /\ w_store w !! k1 = None) as Hfresh.
  { intros Hk0. rewrite Hk0 in Hk. by exists k. }
  unfold key_of_id in Hcons. destruct id as [ |b|z|s|t|t|t|k0|l|d|e0| ]; try done.
  - injection Hcons as Hcons. by apply Hfresh.
  - destruct b; simpl in Hcons; injection Hcons as Hcons;
      [by apply Hnamed|by apply Hfresh].
  - destruct (z =? 0) eqn:Hz.
    + injection Hcons as Hcons. split; [lia|]. by apply Hfresh.
    + destruct (z <? 0) eqn:Hneg; [done|]. injection Hcons as Hcons.
      split; [lia|]. by apply Hnamed.
  - destruct (String.eqb s ""); injection Hcons as Hcons;
      [by apply Hfresh|by apply Hnamed].
Qed.

End WriteOutcomes.

Section UpdateDeleteOutcomes.
Context (E : Env) (H : Self.handler) (R : request).
Import Dict DictFacts KeysFacts.

(** PUT of one entity.  Every failure of the handler method is a
    [RESTException] and leaves the datastore as it was; a success writes
    exactly one entry, the returned entity under its key, and without a
    callback that is the key of the addressed entity, whose class it keeps:
    an update neither moves an entity nor adds one. *)
Theorem put_single_outcomes (m : entity) (w : world) :
  (forall e w', RESTHandlerClass.put E H R (Some m) w = (Raise e, w') ->
     is_RESTException e = true /\ w_store w' = w_store w)
  /\ (forall v w', RESTHandlerClass.put E H R (Some m) w = (Ok v, w') ->
        exists m' k, v = VModel m' /\ e_key m' = Some k
                     /\ w_store w' = <[k := m']> (w_store w)
                     /\ (Self.put_callback H = None ->
                         e_cls m' = e_cls m
                         /\ forall k0, e_key m = Some k0 -> k = k0))
  /\ (forall k v w', e_key m = Some k -> Self.put_callback H = None ->
        RESTHandlerClass.put E H R (Some m) w = (Ok v, w') ->
        forall k0, k0 ≠ k -> w_store w' !! k0 = w_store w !! k0).
Proof.
  unfold RESTHandlerClass.put.
  destruct (body R) as [json|];
    [|split; [by intros e w' [= <- <-]|split; [done|by intros k v w' _ _ ?]]].
  assert (forall v w', bind (RESTHandlerClass.wrap_exception "Invalid JSON PUT data - "
            (let! built := _build_model_from_data E (user R) (Self.model H) json (Some m) in
             let! model :=
               (match Self.put_callback H with
                | Some callback => lift (callback (fst built) (snd built))
                | None => ret (fst built)
                end) in
             model_put E model)%py) (fun model => ret (VModel model)) w = (Ok v, w') ->
          exists m' k, v = VModel m' /\ e_key m' = Some k
                       /\ w_store w' = <[k := m']> (w_store w)
                       /\ (Self.put_callback H = None ->
                           e_cls m' = e_cls m
                           /\ forall k0, e_key m = Some k0 -> k = k0)) as Hok.
  { intros v w' Hp. inv_M.
    apply wrap_exception_Ok, (build_put_cases E) in Hm
      as (built & w1 & m1 & k & Hb & Hm1 & -> & Hk & Hs).
    eexists _, k. split; [done|]. split; [done|]. split; [done|].
    intros Hcb. rewrite Hcb in Hm1. subst m1.
    apply build_inv in Hb as (collected & ip & w2 & _ & _ & _ & Hcons).
    simpl in Hcons. apply populate_inv in Hcons as (values & Hb & _).
    rewrite Hb in Hk |- *. simpl in Hk |- *. split; [done|].
    intros k0 Hk0. by rewrite Hk0 in Hk. }
  split; [|split; [exact Hok|]].
  - intros e w'. unfold bind at 1.
    destruct (RESTHandlerClass.wrap_exception _ _ w) as [[m'|e0] w1] eqn:Hw; [done|].
    intros [= <- <-]. apply wrap_exception_Raise in Hw as (e1 & Hb & ->).
    split; [done|]. by apply (build_put_cases E) in Hb.
  - intros k v w' Hk Hcb Hp k0 Hne.
    apply Hok in Hp as (m' & k' & _ & _ & -> & Hsame).
    destruct (Hsame Hcb) as [_ Hkey]. rewrite (Hkey k Hk).
    by rewrite lookup_insert_ne.
Qed.

(** DELETE of one entity.  A failure (of the callback, or an entity without
    a key) is a [RESTException] and changes nothing; a success returns the
    addressed entity and removes its key from the datastore, and nothing
    else; and without a callback the deletion of an entity that has a key
    always succeeds. *)
Theorem delete_single_outcomes (m : entity) (w : world) :
  (forall e w', RESTHandlerClass.delete E H R (Some m) w = (Raise e, w') ->
     is_RESTException e = true /\ w' = w)
  /\ (forall v w', RESTHandlerClass.delete E H R (Some m) w = (Ok v, w') ->
        v = VModel m
        /\ exists k, e_key m = Some k
                     /\ w' = MkWorld (delete k (w_store w)) (w_tables w))
  /\ (Self.delete_callback H = None ->
      forall k, e_key m = Some k ->
        RESTHandlerClass.delete E H R (Some m) w
        = (Ok (VModel m), MkWorld (delete k (w_store w)) (w_tables w))).
Proof.
  unfold RESTHandlerClass.delete, RESTHandlerClass.wrap_exception, try_except,
    RESTHandlerClass.delete_entity, key_delete, bind, lift, ret, raise.
  destruct (Self.delete_callback H) as [callback|].
  - destruct (callback m) as [[]|e0].
    + destruct (e_key m) as [k|].
      * split; [done|]. split; [|done]. intros v w' [= <- <-]. by eauto.
      * split; [by intros e w' [= <- <-]|]. split; [done|done].
    + split; [by intros e w' [= <- <-]|]. split; [done|done].
  - destruct (e_key m) as [k|].
    + split; [done|]. split.
      * intros v w' [= <- <-]. by eauto.
      * by intros _ k0 [= <-].
    + split; [by intros e w' [= <- <-]|]. split; [done|done].
Qed.

End UpdateDeleteOutcomes.

Section CollectionOutcomes.
Context (E : Env) (H : Self.handler) (R : request).
Import Dict DictFacts KeysFacts.

Lemma parse_orders_Raise os exc :
  parse_orders E H os = Raise exc ->
  exn_cls exc = AttributeError \/ exn_cls exc = TypeError.
Proof.
  induction os as [|o os IH]; simpl; [done|].
  destruct (parse_order E H o) as [x|e0] eqn:Ho; simpl.
  - destruct (parse_orders E H os) as [xs|e1]; simpl; [done|].
    intros [= <-]. by apply IH.
  - intros [= <-]. unfold parse_order in Ho.
    destruct (class_getattr _ _ _) as [[| |]|]; try done.
    + destruct (String.prefix "-" _); [|done]. injection Ho as <-. by right.
    + injection Ho as <-. by left.
Qed.

Lemma order_query_Raise q w e w' :
  _order_query E H R q w = (Raise e, w') ->
  w' = w /\ is_Some (GET_param R "order")
  /\ (is_RESTException e = true \/ exn_cls e = TypeError).
Proof.
  unfold _order_query. destruct (GET_param R "order") as [text|]; [|done].
  destruct (parse_orders E H _) as [orders|exc] eqn:Hp.
  - unfold lift, query_order. destruct (existsb _ orders); [|done].
    intros [= <- <-]. split; [done|]. split; [done|]. by right.
  - destruct (parse_orders_Raise _ _ Hp) as [Hc|Hc]; rewrite Hc.
    + intros [= <- <-]. split; [done|]. split; [done|]. by left.
    + intros [= <- <-]. split; [done|]. split; [done|]. by right.
Qed.


End CollectionOutcomes.

Section CollectionDelete.
Context (E : Env) (H : Self.handler) (R : request).
Import Dict DictFacts KeysFacts.

Lemma all_query_matches e :
  query_matches E (MkQuery (cls_kind (Self.model H)) None [] []) e
  = String.eqb (cls_kind (e_cls e)) (cls_kind (Self.model H)).
Proof. unfold query_matches. simpl. by rewrite !andb_true_r. Qed.

Lemma delete_all_eq (p : permission) (w : world) :
  get "DELETE" (Self.permissions H) = Some p -> p ≠ PERMISSION_OWNER_USER ->
  RESTHandlerClass.delete E H R None w
  = match RESTHandlerClass.delete_pages E H (S (size (w_store w)))
            (MkQuery (cls_kind (Self.model H)) None [] []) None [] w with
    | (Ok ds, w1) => (Ok (VList (map VModel ds)), w1)
    | (Raise e, w1) => (Raise e, w1)
    end.
Proof.
  intros Hp Hne. unfold RESTHandlerClass.delete, RESTHandlerClass.permission_of.
  rewrite Hp. rewrite (bind_Ok_intro _ _ _ p w eq_refl).
  rewrite bool_decide_eq_false_2 by done.
  rewrite (bind_Ok_intro (ret _) _ w _ w eq_refl).
  rewrite (bind_Ok_intro get_world _ w w w eq_refl).
  unfold bind, ret.
  by destruct (RESTHandlerClass.delete_pages _ _ _ _ _ _ _) as [[ds|e] w1].
Qed.

(** A collection DELETE under a level other than owner_user is a deletion
    of every entity of the handler's model: whatever its outcome, entities of
    other models stay as they are; when it returns, no entity of the model
    is left and the entities it returns are the ones that were stored; and
    without a callback it does return. *)
Theorem collection_delete_all (p : permission) (w : world) :
  get "DELETE" (Self.permissions H) = Some p -> p ≠ PERMISSION_OWNER_USER ->
  (forall r w', RESTHandlerClass.delete E H R None w = (r, w') ->
     forall k e0, w_store w !! k = Some e0 ->
                  cls_kind (e_cls e0) ≠ cls_kind (Self.model H) ->
                  w_store w' !! k = Some e0)
  /\ (forall v w', RESTHandlerClass.delete E H R None w = (Ok v, w') ->
        (forall k e0, w_store w' !! k = Some e0 ->
                      cls_kind (e_cls e0) ≠ cls_kind (Self.model H))
        /\ exists deleted,
             v = VList (map VModel deleted)
             /\ forall e, e ∈ deleted <->
                          stored w e /\ cls_kind (e_cls e) = cls_kind (Self.model H))
  /\ (Self.delete_callback H = None ->
      exists v w', RESTHandlerClass.delete E H R None w = (Ok v, w')).
Proof.
  intros Hp Hne. rewrite (delete_all_eq p w Hp Hne).
  set (q := MkQuery (cls_kind (Self.model H)) None [] []).
  assert (cursor_fresh q None w) as Hfresh by done.
  split; [|split].
  - intros r w'.
    destruct (RESTHandlerClass.delete_pages _ _ _ _ _ _ _) as [r0 w1] eqn:Hd.
    apply delete_pages_safe in Hd. intros Hrw k e0 Hs Hnot.
    assert (w' = w1) as -> by (destruct r0; by injection Hrw).
    destruct (Hd k) as [Heq|(_ & e1 & Hs' & Hm)]; [congruence|].
    unfold q in Hm. rewrite all_query_matches in Hm.
    apply String.eqb_eq in Hm. simpl in Hm. congruence.
  - intros v w'.
    destruct (RESTHandlerClass.delete_pages _ _ _ _ _ _ _) as [[ds|e] w1] eqn:Hd; [|done].
    intros [= <- <-].
    apply delete_pages_exact in Hd as [Hnone (ds' & -> & Hds')]; [|done].
    split.
    + intros k e0 Hs Hkind. specialize (Hnone k e0 Hs).
      unfold q in Hnone. rewrite all_query_matches in Hnone.
      apply String.eqb_neq in Hnone. done.
    + exists ds'. split; [done|]. intros e. rewrite Hds', elem_of_run_query.
      unfold stored, q. setoid_rewrite all_query_matches.
      setoid_rewrite String.eqb_eq. naive_solver.
  - intros Hcb.
    destruct (delete_pages_total E H q (S (size (w_store w))) None [] w Hcb Hfresh)
      as (ds & w' & ->).
    + pose proof (length_run_query E (w_store w) q). lia.
    + by eauto.
Qed.

(** The loop over a page with a callback, when the callback raises for one
    of its entities: the entities before it are deleted, that one and the
    ones after it are not, and the exception is the callback's. *)
Lemma delete_each_partial callback pre m post acc w e :
  (forall x, x ∈ pre -> callback x = Ok tt /\ is_Some (e_key x)) ->
  callback m = Raise e ->
  RESTHandlerClass.delete_each callback (pre ++ m :: post) acc w
  = (Raise e, MkWorld (foldr delete (w_store w) (rev (keys_of pre))) (w_tables w)).
Proof.
  revert acc w. induction pre as [|x pre IH]; intros acc w Hpre Hm; simpl.
  - unfold bind, lift. rewrite Hm. by destruct w.
  - destruct (Hpre x) as [Hx [k Hk]]; [by left|].
    rewrite (bind_Ok_intro (lift (callback x)) _ w tt w)
      by (unfold lift; by rewrite Hx).
    rewrite (bind_Ok_intro (RESTHandlerClass.delete_entity x) _ w tt
               (MkWorld (delete k (w_store w)) (w_tables w)))
      by (unfold RESTHandlerClass.delete_entity; by rewrite Hk).
    rewrite IH; [|intros y Hy; apply Hpre; by right|done].
    simpl. unfold keys_of. simpl. rewrite Hk. simpl.
    by rewrite foldr_app.
Qed.

(** A collection DELETE with a callback is not atomic: when the callback
    raises for an entity of the first page, the entities the page lists
    before it are already deleted, the others are still stored, and the
    callback's exception leaves the handler method as it is. *)
Theorem collection_delete_partial (p : permission) (w : world)
    (callback : entity -> result unit) (pre post : list entity) (m : entity)
    (e : exn) :
  get "DELETE" (Self.permissions H) = Some p -> p ≠ PERMISSION_OWNER_USER ->
  Self.delete_callback H = Some callback ->
  take (Z.to_nat DEFAULT_MAX_QUERY_RESULTS)
    (run_query E (w_store w) (MkQuery (cls_kind (Self.model H)) None [] []))
  = (pre ++ m :: post)%list ->
  (forall x, x ∈ pre -> callback x = Ok tt) ->
  callback m = Raise e ->
  exists w',
    RESTHandlerClass.delete E H R None w = (Raise e, w')
    /\ w_tables w' = w_tables w
    /\ forall k, w_store w' !! k
                 = if bool_decide (k ∈ keys_of pre) then None else w_store w !! k.
Proof.
  intros Hp Hne Hcb Hpage Hpre Hm. rewrite (delete_all_eq p w Hp Hne).
  set (q := MkQuery (cls_kind (Self.model H)) None [] []) in *.
  assert (forall x, x ∈ pre -> callback x = Ok tt /\ is_Some (e_key x)) as Hpre'.
  { intros x Hx. split; [by apply Hpre|].
    assert (x ∈ run_query E (w_store w) q) as Hin.
    { assert (x ∈ take (Z.to_nat DEFAULT_MAX_QUERY_RESULTS)
                      (run_query E (w_store w) q)) as Ht.
      { rewrite Hpage. apply elem_of_app. by left. }
      apply elem_of_take in Ht as (i & Hi & _). by eapply list_elem_of_lookup_2. }
    apply (run_query_key E q) in Hin as (k & -> & _). by eexists. }
  assert (delete_page H (pre ++ m :: post) [] w
          = (Raise e, MkWorld (foldr delete (w_store w) (rev (keys_of pre)))
                        (w_tables w))) as Hpg.
  { unfold delete_page. rewrite Hcb.
    rewrite <- (delete_each_partial callback pre m post [] w e Hpre' Hm).
    by destruct pre. }
  rewrite delete_pages_S, (fetch_page_fresh E _ _ _ None);
    [|apply default_limit_fits|done].
  cbv zeta. rewrite Hpage, Hpg.
  eexists. split; [done|]. split; [done|]. intros k. cbn [w_store].
  rewrite lookup_foldr_delete.
  assert (bool_decide (k ∈ rev (keys_of pre)) = bool_decide (k ∈ keys_of pre))
    as ->; [|done].
  apply bool_decide_ext. by rewrite !list_elem_of_In, <- in_rev.
Qed.

End CollectionDelete.

Section Resolution.
Context (E : Env) (H : Self.handler).
Import Dict DictFacts KeysFacts.

(** [_model_id_to_model].  An empty identifier resolves to [None]; any other
    resolves to the stored entity under the key it names, or fails with the
    [RESTException] ['Invalid model id - <id>']; the state is never changed.
    Without client-supplied identifiers the key is the one the token
    decodes to, of whatever kind: the result does not depend on the
    handler's model. *)
Theorem model_id_resolution (model_id : pyval) (w : world) :
  (truthy model_id = false -> _model_id_to_model E H model_id w = (Ok None, w))
  /\ (truthy model_id = true ->
      (exists k e0,
          (if model_use_input_id H
           then key_of_id (cls_kind (Self.model H)) model_id = Ok (Some k)
           else exists s, model_id = VStr s /\ key_from_urlsafe E s = KeyParsed k)
          /\ w_store w !! k = Some e0
          /\ _model_id_to_model E H model_id w = (Ok (Some (loaded (k, e0))), w))
      \/ _model_id_to_model E H model_id w
         = (Raise (Exn RESTException ("Invalid model id - " ++ py_str E model_id)), w))
  /\ (forall H', model_use_input_id H = false -> model_use_input_id H' = false ->
        _model_id_to_model E H' model_id w = _model_id_to_model E H model_id w).
Proof.
  split; [|split].
  - intros Ht. unfold _model_id_to_model. by rewrite Ht.
  - intros Ht. unfold _model_id_to_model. rewrite Ht. simpl.
    unfold try_except, bind, lift, ret, raise, key_get.
    destruct (model_use_input_id H).
    + destruct (key_of_id _ _) as [[k|]|] eqn:Hk; [|by right..].
      destruct (w_store w !! k) as [e0|] eqn:Hs; [left|by right].
      by exists k, e0.
    + destruct model_id; try by right.
      destruct (key_from_urlsafe E s) as [k| |] eqn:Hk; [|by right..].
      destruct (w_store w !! k) as [e0|] eqn:Hs; [left|by right].
      exists k, e0. split; [by exists s|done].
  - intros H' Hu Hu'. unfold _model_id_to_model. by rewrite Hu, Hu'.
Qed.

End Resolution.

Section RestClass.
Import Dict DictFacts KeysFacts.

Lemma get_update {A} k (d u : list (string * A)) :
  NoDup (keys u) ->
  get k (update d u) = match get k u with Some v => Some v | None => get k d end.
Proof.
  unfold update. revert d. induction u as [|[k' v'] u IH]; intros d; [done|].
  simpl. intros [Hnin Hnd]%NoDup_cons. rewrite (IH _ Hnd).
  destruct (String.eqb k k') eqn:Hk.
  - apply String.eqb_eq in Hk as ->.
    apply get_None_not_in in Hnin. rewrite Hnin. apply get_set_eq.
  - apply String.eqb_neq in Hk. destruct (get k u); [done|].
    apply get_set_ne. congruence.
Qed.

(** [get_rest_class].  The handler class it returns has the given model; its
    permissions are the given ones over the default [OPTIONS: anyone], so
    OPTIONS always has an entry; and when some method is under owner_user the
    model declares an owner property that names an attribute of the model
    class (a property, the key, or any other attribute: [hasattr] asks no
    more), so reading the owner of an entity of the model never fails, and
    with a logged-in user the owner check of the handlers gives a decision.
    Without any method under owner_user nothing is asked of the model. *)
Theorem get_rest_class_validates (E : Env) (ndb_model : model_class)
    (kwd_permissions : list (string * permission))
    (get_cb : option (pyval -> result pyval))
    (post_cb put_cb : option (entity -> pyval -> result entity))
    (delete_cb : option (entity -> result unit)) :
  NoDup (keys kwd_permissions) ->
  let perms := update [("OPTIONS", PERMISSION_ANYONE)] kwd_permissions in
  let h := Self.MkHandler ndb_model perms get_cb post_cb put_cb delete_cb in
  let owner_user_used :=
    existsb (fun kv => bool_decide (snd kv = PERMISSION_OWNER_USER)) perms in
  (get "OPTIONS" perms = Some (default PERMISSION_ANYONE (get "OPTIONS" kwd_permissions))
   /\ forall method, method ≠ "OPTIONS" -> get method perms = get method kwd_permissions)
  /\ (forall method, get method perms = Some PERMISSION_OWNER_USER ->
        owner_user_used = true)
  /\ (owner_user_used = false ->
      get_rest_class E ndb_model kwd_permissions get_cb post_cb put_cb delete_cb = Ok h)
  /\ (owner_user_used = true ->
      match RESTHandlerClass.user_owner_property_name h with
      | Ok o =>
          match class_getattr E ndb_model o with
          | Some _ =>
              get_rest_class E ndb_model kwd_permissions get_cb post_cb put_cb delete_cb
              = Ok h
              /\ forall R e, e_cls e = ndb_model ->
                   (exists v, RESTHandlerClass.get_model_owner E h (Some e) = Ok v)
                   /\ (is_Some (user R) ->
                       exists b, RESTHandlerClass.not_owned E h R (Some e) = Ok b)
          | None =>
              exists msg,
                get_rest_class E ndb_model kwd_permissions get_cb post_cb put_cb delete_cb
                = Raise (Exn ValueError msg)
          end
      | Raise _ =>
          exists msg,
            get_rest_class E ndb_model kwd_permissions get_cb post_cb put_cb delete_cb
            = Raise (Exn ValueError msg)
      end).
Proof.
  intros Hnd perms h owner_user_used.
  split; [split|split; [|split]].
  - unfold perms. rewrite get_update by done.
    by destruct (get "OPTIONS" kwd_permissions).
  - intros method Hm. unfold perms. rewrite get_update by done.
    destruct (get method kwd_permissions); [done|]. simpl.
    by rewrite (proj2 (String.eqb_neq method "OPTIONS") Hm).
  - intros method Hp. apply existsb_exists. exists (method, PERMISSION_OWNER_USER).
    split; [by apply list_elem_of_In, get_elem|]. by apply bool_decide_eq_true_2.
  - intros Hno. unfold get_rest_class. fold perms. fold owner_user_used.
    by rewrite Hno.
  - intros Hyes. unfold get_rest_class. fold perms. fold owner_user_used.
    rewrite Hyes. unfold RESTHandlerClass.user_owner_property_name. simpl.
    destruct (cls_RESTMeta ndb_model) as [m|] eqn:Hmeta; [|by eexists].
    destruct (user_owner_property m) as [o|] eqn:Ho; [|by eexists].
    destruct (class_getattr E ndb_model o) as [a|] eqn:Ha; [|by eexists].
    split; [done|]. intros R e Hcls.
    assert (exists v, RESTHandlerClass.get_model_owner E h (Some e) = Ok v) as [v Hv].
    { unfold RESTHandlerClass.get_model_owner,
        RESTHandlerClass.user_owner_property_name. simpl. rewrite Hmeta, Ho. simpl.
      unfold getattr_instance, py_getattr. rewrite Hcls.
      unfold class_getattr in Ha.
      destruct (get o (_properties ndb_model)) as [prop|].
      - destruct (get o (e_values e)); by eexists.
      - destruct (is_key_name o); [by eexists|].
        destruct (other_attribute E ndb_model o); [by eexists|done]. }
    split; [by exists v|]. intros [u Hu].
    unfold RESTHandlerClass.not_owned, RESTHandlerClass.user_key.
    rewrite Hv, Hu. simpl. by eexists.
Qed.

End RestClass.

Section TranslationFacts.
Import Dict DictFacts KeysFacts.

(** [translate_property_names] for output and then for input.  When both
    calls use the same table, whose property names are pairwise distinct and
    whose wire names are pairwise distinct, no keys of the dictionary and no
    property names of the table, the second call undoes the first: the
    dictionary holds under every key what it held before. *)
Theorem translation_round_trip (cls : model_class) (table : list (string * string))
    (d : list (string * pyval)) (w : world) :
  effective_table cls Output w = table ->
  effective_table cls Input (tables_after cls Output w) = table ->
  NoDup (map fst table) -> NoDup (map snd table) ->
  (forall n, n ∈ map snd table -> (n ∉ keys d) /\ (n ∉ map fst table)) ->
  exists d1 d2,
    translate_property_names (VDict d) cls Output w
    = (Ok (VDict d1), tables_after cls Output w)
    /\ translate_property_names (VDict d1) cls Input (tables_after cls Output w)
       = (Ok (VDict d2), tables_after cls Input (tables_after cls Output w))
    /\ forall name, get name d2 = get name d.
Proof.
  intros Hout Hin Holds Hnews Hwire.
  exists (rename_all Output table d),
         (rename_all Input table (rename_all Output table d)).
  split; [by rewrite translate_property_names_eq, translate_loop_dict, Hout|].
  split; [by rewrite translate_property_names_eq, translate_loop_dict, Hin|].
  destruct (rename_all_spec Output table d) as (O1 & O2 & O3); try done.
  { intros t Ht. by apply Hwire. }
  { intros t Ht. apply get_None_not_in. by apply Hwire. }
  set (d1 := rename_all Output table d) in *.
  destruct (rename_all_spec Input table d1) as (I1 & I2 & I3); try done.
  { intros o Ho Hn. by apply (Hwire o). }
  intros name.
  destruct (decide (name ∈ map fst table)) as [Ho|Ho].
  - apply list_elem_of_In, in_map_iff in Ho as (e & <- & He%list_elem_of_In).
    etrans; [exact (I1 e He)|]. by apply O1.
  - destruct (decide (name ∈ map snd table)) as [Hn|Hn].
    + rewrite (I2 name Hn). symmetry. apply get_None_not_in. by apply Hwire.
    + rewrite I3 by done. by apply O3.
Qed.

(** The table of [RESTMeta.translate_property_names] is updated in place:
    when the class declares it, a call for one direction leaves the entries
    of that direction in it, and the next call, for whichever direction,
    translates with them too.  When the class does not declare it, every
    call starts from an empty table. *)
Theorem translation_tables_accumulate (cls : model_class) (m : RESTMeta)
    (dir1 dir2 : direction) (data1 data2 : pyval) (w : world) :
  cls_RESTMeta cls = Some m ->
  let w1 := snd (translate_property_names data1 cls dir1 w) in
  match w_tables w !! cls_kind cls with
  | Some base =>
      fst (translate_property_names data2 cls dir2 w1)
      = translate_loop dir2
          (update (update base (translate_table_for m dir1)) (translate_table_for m dir2))
          data2
      /\ w_tables w1 !! cls_kind cls = Some (update base (translate_table_for m dir1))
  | None =>
      fst (translate_property_names data2 cls dir2 w1)
      = translate_loop dir2 (update [] (translate_table_for m dir2)) data2
      /\ w1 = w
  end.
Proof.
  intros Hmeta w1. subst w1. rewrite !translate_property_names_eq. simpl.
  unfold tables_after, effective_table. rewrite Hmeta.
  destruct (w_tables w !! cls_kind cls) as [base|] eqn:Hb.
  - simpl. rewrite lookup_insert_eq. simpl. done.
  - by rewrite Hb.
Qed.

End TranslationFacts.

Section GateEdge.
Context (E : Env) (H : Self.handler) (R : request).
Import Dict DictFacts KeysFacts.

(** A path that ends in a slash addresses no entity ([model_id] is ['/']).
    Under owner_user with a logged-in user the owner check of the wrapper
    then reads the owner of [None]: the request ends with an
    [AttributeError], the handler method does not run and nothing changes.
    Under every other level the path is handled as the path without the
    slash is. *)
Theorem trailing_slash_outcomes (func : option entity -> M pyval)
    (method_name : string) (p : permission) (w : world) :
  get method_name (Self.permissions H) = Some p ->
  (p = PERMISSION_OWNER_USER -> is_Some (user R) ->
   exists e, RESTHandlerClass.rest_method_wrapper E H R func method_name "/" w
             = (Raise e, w)
             /\ exn_cls e = AttributeError)
  /\ (p ≠ PERMISSION_OWNER_USER ->
      RESTHandlerClass.rest_method_wrapper E H R func method_name "/" w
      = RESTHandlerClass.rest_method_wrapper E H R func method_name "" w).
Proof.
  intros Hp. unfold RESTHandlerClass.rest_method_wrapper. rewrite Hp. split.
  - intros -> [u Hu]. rewrite Hu. simpl.
    rewrite (bind_Ok_intro (ret false) _ w false w eq_refl).
    unfold except_RESTException, try_except.
    assert (exists e, RESTHandlerClass.not_owned E H R None = Raise e
                      /\ exn_cls e = AttributeError) as (e & Hno & Hcls).
    { unfold RESTHandlerClass.not_owned, RESTHandlerClass.get_model_owner,
        RESTHandlerClass.user_owner_property_name.
      destruct (cls_RESTMeta _) as [m|]; [destruct (user_owner_property m)|];
        simpl; by eauto. }
    rewrite (bind_Ok_intro (_model_id_to_model E H (VStr "")) _ w None w eq_refl).
    rewrite (bind_Raise_intro _ _ w e w) by (unfold lift; by rewrite Hno).
    exists e. unfold is_RESTException. by rewrite Hcls.
  - intros Hne. destruct (_ && _)%bool; [done|].
    assert (forall {A B} (m : M A) (k1 k2 : A -> M B) w0,
              (forall a w1, k1 a w1 = k2 a w1) -> bind m k1 w0 = bind m k2 w0)
      as Hext.
    { intros A B m k1 k2 w0 Hk. unfold bind. by destruct (m w0) as [[a|e] w1]. }
    apply Hext. intros [] w1; [done|].
    unfold except_RESTException, try_except. simpl.
    rewrite (bind_Ok_intro (_model_id_to_model E H (VStr "")) _ w1 None w1 eq_refl).
    rewrite bool_decide_eq_false_2 by done.
    by rewrite (bind_Ok_intro (ret false) _ w1 false w1 eq_refl).
Qed.

End GateEdge.

Section BuildEdge.
Context (E : Env) (user : option entity).
Import Dict DictFacts KeysFacts.

(** Building a model instance from data never writes to the datastore,
    whatever the data and the model class, also when it fails and also
    through nested structured properties. *)
Theorem build_model_never_writes (cls : model_class) (data : pyval)
    (model : option entity) (w : world) :
  w_store (snd (_build_model_from_data E user cls data model w)) = w_store w.
Proof.
  destruct (_build_model_from_data E user cls data model w) as [r w'] eqn:Hb.
  by eapply build_keeps_store.
Qed.

Lemma mapM_Ok_each {A B} (f : A -> M B) (l : list A) w l' w' x :
  mapM f l w = (Ok l', w') -> x ∈ l -> exists w1 y w2, f x w1 = (Ok y, w2).
Proof.
  revert w l'. induction l as [|a l IH]; intros w l' Hm Hx;
    [by apply elem_of_nil in Hx|].
  simpl in Hm. inv_M. apply elem_of_cons in Hx as [->|Hx]; [by eauto|].
  by eapply IH.
Qed.

(** A payload is accepted only with text that the date parser reads for
    every date, time and datetime property it names (after the input name
    translation): a [null] or a number there makes the construction fail,
    and what is converted is a [datetime], whichever of the three kinds the
    property is. *)
Theorem temporal_input_must_parse (cls : model_class) (data : pyval)
    (model : option entity) (w : world) (built : entity * pyval) (w' : world)
    (name : string) (ptype : prop_type) (repeated : bool) :
  _build_model_from_data E user cls data model w = (Ok built, w') ->
  NoDup (keys (_properties cls)) ->
  (name, Property ptype repeated) ∈ _properties cls ->
  is_temporal ptype = true ->
  py_contains name (snd built) = Ok true ->
  exists raw,
    py_getitem (snd built) name = Ok raw
    /\ if repeated
       then exists items,
              py_iter raw = Ok items
              /\ forall x, x ∈ items ->
                   exists s t, x = VStr s /\ dateutil_parse E s = Some t
       else exists s t, raw = VStr s /\ dateutil_parse E s = Some t
                        /\ forall w0, _value_to_property E user
                                        (Property ptype repeated) raw w0
                                      = (Ok (VDateTime t), w0).
Proof.
  intros Hb Hnd Hprop Htemp Hhas.
  apply build_inv in Hb as (collected & ip & w1 & _ & Hcol & _ & _).
  assert (name ∈ keys (_properties cls)) as Hin.
  { apply list_elem_of_In, in_map_iff. exists (name, Property ptype repeated).
    split; [done|]. by apply list_elem_of_In. }
  destruct (collect_named _ _ _ _ _ _ _ name Hcol Hin Hhas)
    as (prop & raw & w2 & v & w3 & Hp & Hraw & Hconv & _).
  assert (prop = Property ptype repeated) as ->.
  { apply (elem_get _ _ _ Hnd) in Hp, Hprop. congruence. }
  exists raw. split; [done|].
  assert (forall x w4 y w5,
            _value_to_property E user (Property ptype repeated) x w4 = (Ok y, w5) ->
            exists s t, x = VStr s /\ dateutil_parse E s = Some t
                        /\ forall w0, _value_to_property E user
                                        (Property ptype repeated) x w0
                                      = (Ok (VDateTime t), w0)) as Hone.
  { intros x w4 y w5. destruct ptype; try done; simpl;
      (destruct x; try done; destruct (dateutil_parse E s) as [t|] eqn:Ht; [|done];
       intros _; by exists s, t). }
  unfold convert_input in Hconv. simpl in Hconv. destruct repeated.
  - inv_M. exists a. split; [done|]. intros x Hx.
    destruct (mapM_Ok_each _ _ _ _ _ x Hm0 Hx) as (wx & y & wy & Hy).
    apply Hone in Hy as (s & t & ? & ? & _). by exists s, t.
  - by apply Hone in Hconv.
Qed.

End BuildEdge.

Section EncoderEdge.
Context (E : Env).
Import Dict DictFacts KeysFacts.

Lemma json_encode_date fuel v w r w' :
  is_date_or_time v = true -> json_encode E fuel v w = (r, w') ->
  exists e, r = Raise e.
Proof.
  destruct fuel; [intros _ [= <- _]; by eexists|].
  destruct v; try done; simpl; intros _ [= <- _]; by eexists.
Qed.

Lemma get_to_dict_flat cls values name prop :
  NoDup (keys (_properties cls)) -> (name, prop) ∈ _properties cls ->
  is_structured prop = false ->
  get name (to_dict_values cls values) = Some (value_or_default values (name, prop)).
Proof.
  destruct cls as [kind props meta]. simpl.
  induction props as [|[n [ptype repeated]] props IH]; simpl.
  - intros _ Hin. by apply elem_of_nil in Hin.
  - intros [Hnin Hnd]%NoDup_cons [[= -> ->]|Hin]%elem_of_cons Hflat.
    + rewrite String.eqb_refl. unfold value_or_default. simpl.
      unfold is_structured in Hflat. simpl in Hflat. by destruct ptype.
    + destruct (String.eqb name n) eqn:Hn; [|by apply IH].
      apply String.eqb_eq in Hn as ->. exfalso. apply Hnin.
      apply list_elem_of_In, in_map_iff. exists (n, prop).
      split; [done|]. by apply list_elem_of_In.
Qed.

(** [NDBEncoder.default] encodes [datetime] values only.  An entity that
    holds a [date] or a [time], alone or in a list, in a property that is
    part of the output is never encoded: the encoder raises, whatever the
    recursion depth allowed.  (Stated for a class without output name
    translation, where the property is output under its own name.) *)
Theorem encoder_rejects_date_and_time (cls : model_class) (key : option Key)
    (values : list (string * pyval)) (fuel : nat) (w : world)
    (name : string) (prop : property) :
  NoDup (keys (_properties cls)) ->
  effective_table cls Output w = [] ->
  (name, prop) ∈ _properties cls ->
  is_structured prop = false ->
  name ∈ get_included_properties cls Output ->
  name ≠ "id" ->
  (is_date_or_time (value_or_default values (name, prop)) = true
   \/ exists l x, value_or_default values (name, prop) = VList l
                  /\ x ∈ l /\ is_date_or_time x = true) ->
  exists e w', json_encode E fuel (VModel (Entity cls key values)) w = (Raise e, w').
Proof.
  intros Hnd Htab Hprop Hflat Hincl Hid Hdate.
  destruct (json_encode E fuel (VModel (Entity cls key values)) w) as [[j|e] w'] eqn:Hj;
    [exfalso|by eauto].
  destruct fuel as [|fuel]; [done|].
  change (json_encode E (S fuel) (VModel (Entity cls key values)) w)
    with (bind (NDBEncoder_default E (VModel (Entity cls key values)))
               (json_encode E fuel) w) in Hj.
  inv_M. unfold NDBEncoder_default in Hm. inv_M. cbn [e_cls e_key] in Hm0, Hk0.
  rewrite translate_property_names_eq, translate_loop_dict, Htab in Hm0.
  simpl in Hm0. injection Hm0 as <- <-.
  destruct key as [k|]; [|done]. simpl in Hk0. inv_M. simpl in Hl.
  injection Hl as <-.
  set (v := value_or_default values (name, prop)) in *.
  assert ((name, v) ∈ set "id" (_decode_key E k)
            (filter_keys (in_set (get_included_properties cls Output))
               (to_dict (Entity cls (Some k) values)))) as Hin.
  { apply get_elem. rewrite get_set_ne by done. rewrite get_filter_keys.
    unfold in_set. rewrite bool_decide_eq_true_2 by done.
    by apply get_to_dict_flat. }
  destruct fuel as [|fuel]; [done|]. simpl in Hk. inv_M.
  destruct (mapM_Ok_each _ _ _ _ _ _ Hm Hin) as (w1 & y & w2 & Hy).
  simpl in Hy. inv_M.
  destruct Hdate as [Hd|(l & x & Hl & Hx & Hd)].
  - by destruct (json_encode_date _ _ _ _ _ Hd Hm0) as [e He].
  - rewrite Hl in Hm0. destruct fuel as [|fuel]; [done|]. simpl in Hm0. inv_M.
    destruct (mapM_Ok_each _ _ _ _ _ _ Hm1 Hx) as (w3 & z & w4 & Hz).
    by destruct (json_encode_date _ _ _ _ _ Hd Hz) as [e He].
Qed.

End EncoderEdge.

Section Refusals.
Context (E : Env) (H : Self.handler) (R : request).
Import Dict DictFacts KeysFacts.

Lemma keeps_store_raise {A} (m : M A) : keeps_store m -> raise_keeps_store m.
Proof. intros Hm w e w' Hr _. by eapply Hm. Qed.

Lemma keeps_store_refusal (m : M response) : keeps_store m -> refusal_keeps_store m.
Proof. intros Hm w resp w' Hr _. by eapply Hm. Qed.

Lemma raise_keeps_store_bind {A B} (m : M A) (k : A -> M B) :
  keeps_world m -> (forall a, raise_keeps_store (k a)) ->
  raise_keeps_store (bind m k).
Proof.
  intros Hm Hk w e w'. unfold bind.
  destruct (m w) as [[a|e0] w1] eqn:Hmw.
  - rewrite (Hm _ _ _ Hmw). apply Hk.
  - intros [= <- <-] _. by rewrite (Hm _ _ _ Hmw).
Qed.

Lemma refusal_keeps_store_bind {A} (m : M A) (k : A -> M response) :
  keeps_world m -> (forall a, refusal_keeps_store (k a)) ->
  refusal_keeps_store (bind m k).
Proof.
  intros Hm Hk w resp w'. unfold bind.
  destruct (m w) as [[a|e0] w1] eqn:Hmw; [|done].
  rewrite (Hm _ _ _ Hmw). apply Hk.
Qed.

Lemma bind_Raise {A B} (m : M A) (k : A -> M B) w e w' :
  bind m k w = (Raise e, w') ->
  m w = (Raise e, w') \/ exists a w1, m w = (Ok a, w1) /\ k a w1 = (Raise e, w').
Proof.
  unfold bind. destruct (m w) as [[a|e0] w1] eqn:Hm;
    [|intros [= <- <-]; by left].
  intros Hk. right. by exists a, w1.
Qed.

Lemma get_response_cases code content w r w' :
  get_response E code content w = (r, w') ->
  match r with
  | Ok resp => status resp = code
  | Raise e => is_RESTException e = false
  end.
Proof.
  unfold get_response, bind.
  destruct (json_encode E RECURSION_LIMIT content w) as [[text|e] w1] eqn:Hj.
  - by intros [= <- _].
  - intros [= <- _]. by eapply json_encode_not_RESTException.
Qed.

(** The handler method, then the encoding of its result. *)
Lemma run_method_cases (m : M pyval) :
  raise_keeps_store m ->
  raise_keeps_store (let! result := m in success E result)
  /\ refusal_keeps_store (let! result := m in success E result).
Proof.
  intros Hm. split.
  - intros w e w'. unfold bind.
    destruct (m w) as [[v|e0] w1] eqn:Hmw.
    + unfold success. intros Hs Hrest.
      pose proof (get_response_cases _ _ _ _ _ Hs) as Hc. simpl in Hc. congruence.
    + intros [= <- <-]. by apply Hm.
  - intros w resp w'. unfold bind.
    destruct (m w) as [[v|e0] w1] eqn:Hmw; [|done].
    unfold success. intros Hs Hne.
    pose proof (get_response_cases _ _ _ _ _ Hs) as Hc. simpl in Hc. congruence.
Qed.

(** A response of the wrapper other than 200 leaves the datastore as it
    was, when the [RESTException]s of the handler method do. *)
Lemma wrapper_refusal func method_name model_id :
  (forall m, raise_keeps_store (func m)) ->
  refusal_keeps_store
    (RESTHandlerClass.rest_method_wrapper E H R func method_name model_id).
Proof.
  intros Hf. unfold RESTHandlerClass.rest_method_wrapper.
  destruct (get method_name (Self.permissions H)) as [p|];
    [|apply keeps_store_refusal, keeps_store_get_response].
  destruct (_ && _)%bool; [apply keeps_store_refusal, keeps_store_get_response|].
  apply refusal_keeps_store_bind.
  { destruct (bool_decide _); [|apply keeps_world_ret].
    apply keeps_world_bind; [apply keeps_world_lift|].
    intros a. apply keeps_world_ret. }
  intros [|]; [apply keeps_store_refusal, keeps_store_get_response|].
  set (body := if negb (String.eqb model_id "") then _ else _).
  assert (raise_keeps_store body /\ refusal_keeps_store body) as [Hraise Hrefuse].
  { unfold body. destruct (negb _); [|by apply run_method_cases].
    split.
    - apply raise_keeps_store_bind; [apply keeps_world_model_id_to_model|].
      intros m. apply raise_keeps_store_bind.
      { destruct (bool_decide _); [apply keeps_world_lift|apply keeps_world_ret]. }
      intros [|]; [apply keeps_store_raise, keeps_store_get_response|].
      by apply run_method_cases.
    - apply refusal_keeps_store_bind; [apply keeps_world_model_id_to_model|].
      intros m. apply refusal_keeps_store_bind.
      { destruct (bool_decide _); [apply keeps_world_lift|apply keeps_world_ret]. }
      intros [|]; [apply keeps_store_refusal, keeps_store_get_response|].
      by apply run_method_cases. }
  intros w resp w'. unfold except_RESTException, try_except.
  destruct (body w) as [[resp0|e] w1] eqn:Hb.
  - intros [= <- <-]. by apply (Hrefuse w).
  - destruct (is_RESTException e) eqn:He; [|done].
    unfold error. intros Herr _.
    rewrite (keeps_store_get_response E _ _ _ _ _ Herr).
    by apply (Hraise w e).
Qed.

Lemma delete_pages_not_RESTException q fuel cursor acc w e w' :
  Self.delete_callback H = None ->
  RESTHandlerClass.delete_pages E H fuel q cursor acc w = (Raise e, w') ->
  is_RESTException e = false.
Proof.
  intros Hcb. revert cursor acc w. induction fuel as [|fuel IH]; intros cursor acc w.
  { by intros [= <- _]. }
  rewrite delete_pages_S.
  destruct (fetch_page _ _ _ _ _) as [[[results cursor'] more]|e0] eqn:Hf.
  2:{ intros [= <- _]. unfold fetch_page in Hf.
      destruct (MAX_PAGE_SIZE <? _); [by injection Hf as <-|].
      destruct (negb _); [by injection Hf as <-|done]. }
  destruct (delete_page H results acc w) as [[acc1|e1] w1] eqn:Hp.
  - destruct more; [apply IH|done].
  - unfold delete_page in Hp. rewrite Hcb in Hp. by destruct results.
Qed.

(** The [RESTException]s of the handler methods leave the datastore as it
    was (for DELETE: without a callback). *)
Lemma handler_method_raise method func m :
  handler_method E H R method = Some func ->
  (method = "DELETE" -> Self.delete_callback H = None) ->
  raise_keeps_store (func m).
Proof.
  unfold handler_method. intros Hfunc Hdel.
  assert (String.eqb method "DELETE" = true -> Self.delete_callback H = None) as Hcb'.
  { intros Heq. by apply Hdel, String.eqb_eq. }
  clear Hdel.
  repeat match type of Hfunc with
         | (if ?b then _ else _) = _ => destruct b eqn:?
         end; try done; injection Hfunc as <-;
    try (assert (Self.delete_callback H = None) as Hcb by (by apply Hcb')).
  - apply keeps_store_raise, keeps_world_store, keeps_world_get.
  - unfold RESTHandlerClass.post. destruct m as [m|]; [by intros w e w' [= _ <-]|].
    destruct (body R) as [json|]; [|by intros w e w' [= _ <-]].
    intros w e w'. unfold bind at 1.
    destruct (RESTHandlerClass.wrap_exception _ _ w) as [[m'|e0] w1] eqn:Hw; [done|].
    intros [= <- <-] _. apply wrap_exception_Raise in Hw as (e1 & Hb & _).
    by apply (build_put_cases E) in Hb.
  - unfold RESTHandlerClass.put.
    destruct (body R) as [json|]; [|by intros w e w' [= _ <-]].
    destruct m as [m|].
    + intros w e w'. unfold bind at 1.
      destruct (RESTHandlerClass.wrap_exception _ _ w) as [[m'|e0] w1] eqn:Hw; [done|].
      intros [= <- <-] _. apply wrap_exception_Raise in Hw as (e1 & Hb & _).
      by apply (build_put_cases E) in Hb.
    + destruct json as [| | | | | | | |l| | |]; try by intros w0 e0 w0' [= _ <-].
      intros w e w'. unfold bind.
      destruct (RESTHandlerClass._multi_update_models E H R l w)
        as [[ms|e0] w1] eqn:Hm; [done|].
      intros [= <- <-] _.
      unfold RESTHandlerClass._multi_update_models in Hm.
      rewrite (transactional_once E) in Hm.
      destruct (bind _ _ w) as [[a|e1] w2]; [|by injection Hm as <- <-].
      destruct (commit_succeeds E 0); [done|]. by injection Hm as <- <-.
  - destruct m as [m|].
    + intros w e w' Hd _.
      unfold RESTHandlerClass.delete, RESTHandlerClass.wrap_exception, try_except,
        RESTHandlerClass.delete_entity, key_delete, bind, lift, ret, raise in Hd.
      rewrite Hcb in Hd. destruct (e_key m); [done|]. by injection Hd as _ <-.
    + intros w e w' Hd Hrest. exfalso.
      unfold RESTHandlerClass.delete in Hd.
      apply bind_Raise in Hd as [Hd|(p & w0 & _ & Hd)].
      { unfold RESTHandlerClass.permission_of in Hd.
        destruct (get "DELETE" (Self.permissions H)); [done|].
        by injection Hd as <- _. }
      apply bind_Raise in Hd as [Hd|(q & w1 & _ & Hd)].
      { destruct (bool_decide _); [|done].
        unfold RESTHandlerClass.filter_by_owner in Hd.
        apply bind_Raise in Hd as [Hd|(o & w1 & _ & Hd)].
        - unfold lift, RESTHandlerClass.user_owner_property_name in Hd.
          destruct (cls_RESTMeta _) as [mt|]; [destruct (user_owner_property mt)|];
            try done; by injection Hd as <- _.
        - destruct (class_getattr _ _ _) as [a|]; [|by injection Hd as <- _].
          apply bind_Raise in Hd as [Hd|(k & w2 & _ & Hd)].
          + unfold lift, RESTHandlerClass.user_key in Hd.
            destruct (user R); [done|]. by injection Hd as <- _.
          + destruct a as [prop| |]; try done; [|by injection Hd as <- _].
            destruct k as [key|]; [|done].
            destruct (validate E prop (VKey key)); [done|].
            by injection Hd as <- _. }
      apply bind_Raise in Hd as [Hd|(w2 & w3 & _ & Hd)]; [done|].
      apply bind_Raise in Hd as [Hd|(ds & w4 & _ & Hd)]; [|done].
      apply delete_pages_not_RESTException in Hd; [congruence|done].
  - apply keeps_store_raise, keeps_world_store, keeps_world_ret.
Qed.

(** A request that is answered with a status other than 200 has written
    nothing: whether the permission gate refused it (405, 401, 403), the
    identifier did not resolve or the handler method failed (400), the
    datastore is as it was before the request.  For DELETE this is for
    handlers without a delete callback; for the other methods it is for
    every handler. *)
Theorem refused_request_changes_nothing (method : string)
    (func : option entity -> M pyval) (model_id : string) (w : world)
    (resp : response) (w' : world) :
  handler_method E H R method = Some func ->
  (method = "DELETE" -> Self.delete_callback H = None) ->
  RESTHandlerClass.rest_method_wrapper E H R func method model_id w = (Ok resp, w') ->
  status resp ≠ 200 ->
  w_store w' = w_store w.
Proof.
  intros Hfunc Hcb Hr Hs. eapply wrapper_refusal; [|exact Hr|exact Hs].
  intros m. by eapply handler_method_raise.
Qed.

End Refusals.

Section DispatchFacts.
Context (E : Env) (allow_http_method_override : bool)
        (allowed_origin : option string)
        (RequestHandler_dispatch : string -> M response).

(** [dispatch].  A method override that is allowed and names none of the
    five methods is answered 405, before the origin is looked at; one that
    names a method makes the request a request of that method; one that is
    not allowed is not looked at.  Then, when the handler class restricts
    the origin to one that is not ['*'] and the request carries another
    [Origin], the request is answered 403 with the reason ['Origin not
    allowed'] and no handler method runs; a request without an [Origin]
    header, or with the allowed one, reaches the handler method. *)
Theorem dispatch_outcomes (q : http) (w : world) :
  let d := dispatch E allow_http_method_override allowed_origin
             RequestHandler_dispatch in
  (forall text,
     allow_http_method_override = true -> header_method_override q = Some text ->
     if existsb (String.eqb (strip (upper text))) OVERRIDE_METHODS
     then d q w = d (MkHttp (strip (upper text)) None (header_origin q)) w
     else d q w = (Ok (Response 405 (VDict [])), w))
  /\ (allow_http_method_override = false ->
      d q w = d (MkHttp (http_method q) None (header_origin q)) w)
  /\ (header_method_override q = None ->
      (forall allowed origin,
         allowed_origin = Some allowed -> header_origin q = Some origin ->
         allowed ≠ "" -> allowed ≠ "*" -> origin ≠ allowed ->
         d q w = (Ok (Response 403 (VDict [("reason", VStr "Origin not allowed")])), w))
      /\ (header_origin q = None \/ allowed_origin = None
          \/ allowed_origin = Some "" \/ allowed_origin = Some "*"
          \/ allowed_origin = header_origin q ->
          d q w = RequestHandler_dispatch (http_method q) w)).
Proof.
  intros d. subst d. unfold dispatch. split; [|split].
  - intros text -> ->. cbn -[existsb strip upper OVERRIDE_METHODS].
    destruct (existsb _ OVERRIDE_METHODS); [done|]. simpl. reflexivity.
  - by intros ->.
  - intros ->. assert ((if allow_http_method_override then None else None)
                       = @None string) as -> by by destruct allow_http_method_override.
    split.
    + intros allowed origin -> -> Ha Hs Ho.
      rewrite (proj2 (String.eqb_neq allowed "") Ha),
              (proj2 (String.eqb_neq allowed "*") Hs),
              (proj2 (String.eqb_neq origin allowed) Ho).
      simpl. reflexivity.
    + intros [->|[->|[->|[->|Heq]]]]; try done.
      * by destruct allowed_origin as [a|]; [destruct (negb _)|].
      * simpl. by destruct (header_origin q); [rewrite andb_false_r|].
      * rewrite Heq. destruct (header_origin q) as [o|]; [|done].
        destruct (negb _); [|done]. by rewrite String.eqb_refl.
Qed.

End DispatchFacts.

(* ===================================================================== *)
(** * The handlers on the example application *)
(* ===================================================================== *)

Lemma post_creates_new_entity_witness :
  let R := MkRequest [] (Some (VDict [("text", VStr "t2")])) "/note" None in
  let w' := snd (RESTHandlerClass.post Example.env Example.note_handler R None
                   Example.wN) in
  exists e k,
    VModel (Entity Example.Note (Some (MkKey "Note" (IntId 2))) [("text", VStr "t2")])
    = VModel e
    /\ e_key e = Some k
    /\ w_store Example.wN !! k = None
    /\ w_store w' = <[k := e]> (w_store Example.wN)
    /\ forall k0 e0, w_store Example.wN !! k0 = Some e0 -> w_store w' !! k0 = Some e0.
Proof.
  intros R w'.
  apply (post_creates_new_entity Example.env Example.note_handler R Example.wN).
  - reflexivity.
  - reflexivity.
  - apply (bool_decide_unpack _). vm_compute. exact I.
  - intros m o [= <-] Ho. discriminate Ho.
  - vm_compute. reflexivity.
Defined.

(** A POST of a tag with the identifier of a stored tag replaces the stored
    tag. *)
Lemma post_with_input_id_writes_named_key_witness :
  let R := MkRequest [] (Some (VDict [("id", VStr "t1"); ("label", VStr "new")]))
             "/tag" None in
  let new := Entity Example.Tag (Some Example.kT) [("label", VStr "new")] in
  let w' := snd (RESTHandlerClass.post Example.env Example.tag_handler R None
                   Example.wT) in
  (exists json payload id e,
     body R = Some json
     /\ translate_loop Input (effective_table Example.Tag Input Example.wT) json
        = Ok payload
     /\ py_getitem payload "id" = Ok id
     /\ VModel new = VModel e
     /\ w_store w' = <[default (MkKey "" (IntId 0)) (e_key e) := e]> (w_store Example.wT)
     /\ match id with
        | VStr s =>
            if String.eqb s ""
            then exists k, e_key e = Some k /\ w_store Example.wT !! k = None
            else e_key e = Some (MkKey "Tag" (StrId s))
        | VInt n =>
            0 <= n
            /\ if n =? 0
               then exists k, e_key e = Some k /\ w_store Example.wT !! k = None
               else e_key e = Some (MkKey "Tag" (IntId n))
        | VBool b =>
            if b then e_key e = Some (MkKey "Tag" (IntId 1))
            else exists k, e_key e = Some k /\ w_store Example.wT !! k = None
        | VNone => exists k, e_key e = Some k /\ w_store Example.wT !! k = None
        | _ => False
        end)
  /\ w_store Example.wT !! Example.kT = Some Example.t_old
  /\ w_store w' !! Example.kT = Some new.
Proof.
  intros R new w'. split; [|split; vm_compute; reflexivity].
  apply (post_with_input_id_writes_named_key Example.env Example.tag_handler R
           (MkRESTMeta [] [] [] [] [] [] [] [] None true None) Example.wT).
  - reflexivity.
  - reflexivity.
  - apply (bool_decide_unpack _). vm_compute. exact I.
  - intros o Ho. discriminate Ho.
  - apply (bool_decide_unpack _). vm_compute. exact I.
  - reflexivity.
  - vm_compute. reflexivity.
Defined.


Lemma collection_delete_all_witness :
  let H := Example.handler_with [("DELETE", PERMISSION_ADMIN)] in
  let R := Example.request_of (Some Example.eA) None in
  (exists v w', RESTHandlerClass.delete Example.env H R None Example.w0 = (Ok v, w'))
  /\ snd (RESTHandlerClass.delete Example.env H R None Example.w0)
     = MkWorld ∅ ∅.
Proof.
  intros H R. split; [|vm_compute; reflexivity].
  apply (proj2 (proj2 (collection_delete_all Example.env H R PERMISSION_ADMIN
                         Example.w0 eq_refl ltac:(discriminate)))).
  reflexivity.
Defined.

(** The callback refuses the second entity of the page: the first is
    deleted, the second is not, and the request ends with the callback's
    exception. *)
Lemma collection_delete_partial_witness :
  let R := Example.request_of None None in
  exists w',
    RESTHandlerClass.delete Example.env Example.guarded_handler R None Example.w0
    = (Raise (Exn ValueError "kept"), w')
    /\ w_tables w' = w_tables Example.w0
    /\ forall k, w_store w' !! k
                 = if bool_decide (k ∈ keys_of [Example.m1]) then None
                   else w_store Example.w0 !! k.
Proof.
  intros R.
  apply (collection_delete_partial Example.env Example.guarded_handler R
           PERMISSION_ANYONE Example.w0 Example.keep_k2 [Example.m1] []
           Example.m2 (Exn ValueError "kept")).
  - reflexivity.
  - discriminate.
  - reflexivity.
  - vm_compute. reflexivity.
  - intros x Hx. apply list_elem_of_singleton in Hx as ->. vm_compute. reflexivity.
  - vm_compute. reflexivity.
Defined.

Lemma get_rest_class_validates_witness :
  let h := Example.handler_with [("GET", PERMISSION_OWNER_USER)] in
  get_rest_class Example.env Example.MyModel [("GET", PERMISSION_OWNER_USER)]
    None None None None = Ok h
  /\ forall R e, e_cls e = Example.MyModel ->
       (exists v, RESTHandlerClass.get_model_owner Example.env h (Some e) = Ok v)
       /\ (is_Some (user R) ->
           exists b, RESTHandlerClass.not_owned Example.env h R (Some e) = Ok b).
Proof.
  intros h.
  assert (NoDup (Dict.keys [("GET", PERMISSION_OWNER_USER)])) as Hnd.
  { apply (bool_decide_unpack _). vm_compute. exact I. }
  exact (proj2 (proj2 (proj2
           (get_rest_class_validates Example.env Example.MyModel
              [("GET", PERMISSION_OWNER_USER)] None None None None Hnd))) eq_refl).
Defined.

Lemma translation_round_trip_witness :
  let d := [("name", VStr "a"); ("tags", VList [])] in
  exists d1 d2,
    translate_property_names (VDict d) Example.Post Output Example.w0
    = (Ok (VDict d1), tables_after Example.Post Output Example.w0)
    /\ translate_property_names (VDict d1) Example.Post Input
         (tables_after Example.Post Output Example.w0)
       = (Ok (VDict d2),
          tables_after Example.Post Input (tables_after Example.Post Output Example.w0))
    /\ forall name, Dict.get name d2 = Dict.get name d.
Proof.
  intros d.
  assert (forall (x : string) (l : list string),
            bool_decide (x ∉ l) = true -> x ∉ l) as Hnin.
  { intros x l. apply bool_decide_eq_true_1. }
  apply (translation_round_trip Example.Post [("name", "title")] d Example.w0).
  - vm_compute. reflexivity.
  - vm_compute. reflexivity.
  - apply (bool_decide_unpack _). vm_compute. exact I.
  - apply (bool_decide_unpack _). vm_compute. exact I.
  - intros n Hn. vm_compute in Hn.
    apply elem_of_cons in Hn as [->|Hn]; [|by apply elem_of_nil in Hn].
    split; apply Hnin; vm_compute; reflexivity.
Defined.

(** Class Feed renames [name] to [title] for output only.  Before any
    output, the input [title] is left as it is; after one output, the table
    the class declares holds the entry and the input [title] is renamed. *)
Lemma translation_tables_accumulate_witness :
  let m := MkRESTMeta [] [] [] [] [] [] [] [("name", "title")] None false None in
  let input := VDict [("title", VStr "x")] in
  let w1 := snd (translate_property_names (VDict [("name", VStr "a")])
                   Example.Feed Output Example.wF) in
  (fst (translate_property_names input Example.Feed Input w1)
   = translate_loop Input
       (Dict.update (Dict.update [] (translate_table_for m Output))
          (translate_table_for m Input)) input
   /\ w_tables w1 !! "Feed" = Some (Dict.update [] (translate_table_for m Output)))
  /\ fst (translate_property_names input Example.Feed Input Example.wF) = Ok input
  /\ fst (translate_property_names input Example.Feed Input w1)
     = Ok (VDict [("name", VStr "x")]).
Proof.
  intros m input w1. split; [|split; vm_compute; reflexivity].
  exact (translation_tables_accumulate Example.Feed m Output Input
           (VDict [("name", VStr "a")]) input Example.wF eq_refl).
Defined.

Lemma trailing_slash_outcomes_witness :
  let H := Example.handler_with [("GET", PERMISSION_OWNER_USER)] in
  let R := Example.request_of (Some Example.eU) None in
  exists e,
    RESTHandlerClass.rest_method_wrapper Example.env H R
      (RESTHandlerClass.get Example.env H R) "GET" "/" Example.w0
    = (Raise e, Example.w0)
    /\ exn_cls e = AttributeError.
Proof.
  intros H R.
  apply (proj1 (trailing_slash_outcomes Example.env H R
                  (RESTHandlerClass.get Example.env H R) "GET"
                  PERMISSION_OWNER_USER Example.w0 eq_refl) eq_refl).
  by exists Example.eU.
Defined.

Lemma temporal_input_must_parse_witness :
  let data := VDict [("created", VStr "2013-01-01T00:00:00")] in
  exists raw,
    py_getitem data "created" = Ok raw
    /\ exists s t, raw = VStr s /\ dateutil_parse Example.env s = Some t
                   /\ forall w0, _value_to_property Example.env None
                                   (Property DateTimeProperty false) raw w0
                                 = (Ok (VDateTime t), w0).
Proof.
  intros data.
  apply (temporal_input_must_parse Example.env None Example.MyModel data None
           Example.w0 (Entity Example.MyModel None [("created", VDateTime 0)], data)
           Example.w0 "created" DateTimeProperty false).
  - vm_compute. reflexivity.
  - apply (bool_decide_unpack _). vm_compute. exact I.
  - right. right. left.
  - reflexivity.
  - reflexivity.
Defined.

Lemma encoder_rejects_date_and_time_witness :
  exists e w',
    json_encode Example.env RECURSION_LIMIT
      (VModel (Entity Example.Event (Some Example.kE) [("day", VDate 0)])) Example.w0
    = (Raise e, w').
Proof.
  apply (encoder_rejects_date_and_time Example.env Example.Event (Some Example.kE)
           [("day", VDate 0)] RECURSION_LIMIT Example.w0 "day"
           (Property DateProperty false)).
  - apply (bool_decide_unpack _). vm_compute. exact I.
  - reflexivity.
  - left.
  - reflexivity.
  - apply (bool_decide_unpack _). vm_compute. exact I.
  - discriminate.
  - left. reflexivity.
Defined.

(** A POST without a body is answered 400 and stores nothing. *)
Lemma refused_request_changes_nothing_witness :
  let R := MkRequest [] None "/note" None in
  let r := RESTHandlerClass.rest_method_wrapper Example.env Example.note_handler R
             (RESTHandlerClass.post Example.env Example.note_handler R) "POST" ""
             Example.wN in
  fst r = Ok (Response 400 (VDict [("error", VStr "Invalid JSON POST data")]))
  /\ w_store (snd r) = w_store Example.wN.
Proof.
  intros R r. split; [vm_compute; reflexivity|].
  apply (refused_request_changes_nothing Example.env Example.note_handler R "POST"
           (RESTHandlerClass.post Example.env Example.note_handler R) "" Example.wN
           (Response 400 (VDict [("error", VStr "Invalid JSON POST data")]))).
  - reflexivity.
  - intros Hmethod. discriminate Hmethod.
  - vm_compute. reflexivity.
  - discriminate.
Defined.
